(* ===== verification/_CoqProject ===== *)
-Q . S2P
Prelude.v
JsValue.v
JsObject.v
Stores.v
Hooks.v
Pipeline.v
Submission.v
Api.v
Lifecycle.v
Invariants.v
Scenarios.v
MountFlow.v
ChangeFlow.v
Keys.v
StoreFlow.v
SubmitFlow.v
Liveness.v
Interleaving.v
YupAdapter.v
