(* ===== verification/Prelude.v ===== *)
(** * A verification model of react-form-events ([src/lib/index.tsx])

    The repository is one TypeScript module: the React hook [useForm]
    (lines 107-413) and the yup adapter [yupToFormErrors] /
    [validateYupError] (lines 416-444).  The hook keeps four React state
    cells ([formValues], [formErrors], [submitting], [fieldChanged]) and
    one ref ([formSelfRef]).  It derives [hasErrors], [isDirty] and
    [isSemiDirty] with [useMemo].  It hands out closures over the render
    in which they were created.  It reacts to its own state through
    three [useEffect]s: the deferred "did change" notification, the
    mount/unmount effect, and the submission effect that runs
    [_onSubmit].

    ** Library layout (dependency order, as in [_CoqProject])

    - [Prelude] (this file): the notation scope [form_scope], the state
      monad [St] used by every handler, the [for_each] loop that models
      [for ... of] / [for ... in], the invariant calculus [preserves]
      with its tactics [preserve_with] / [preserve_using], the hint
      databases [form] / [form_rw], and the tactic [concrete] that
      discharges hypotheses at concrete inputs.
    - [JsValue]: JavaScript values ([jsval]): numbers are IEEE doubles
      as [SpecFloat.spec_float]; [===] ([strict_eq], so [NaN !== NaN] and
      [+0 === -0]), [Object.is] ([same_value]), nullishness, [??] and
      truthiness.
    - [JsObject]: plain objects as association lists ([obj]) with
      [o[k]], [{...o, [k]: v}], spread and [Object.keys].  Keys are
      listed in JavaScript's property order (OrdinaryOwnPropertyKeys):
      array-index keys ([array_index]) first by value, then the other
      keys in creation order; assigning an existing key keeps its
      position ([obj_replace]), a new key goes to its place in that order
      ([obj_add]).  [obj_wf] says a list is a JavaScript object: no key
      repeated, keys in property order ([js_ordered]).
      Raw events are objects on an explicit heap, read by
      [event_value] / [event_checked].  The file also holds the Value
      Store contract of spec 4.1 as the class [FieldStoreLaws], with its
      finite-map ([gmap]) instance and the abstraction [to_map].  Objects
      are compared up to their bindings by the setoid [obj_equiv] ([≡]),
      with [Proper] instances for reading, [obj_set] and spread.
    - [Stores]: [Module ValueStore] (the [setForm] updater, its
      [FieldStore] instance and its refinement of the finite map),
      [Module ErrorStore] ([defaultFormErrors], [hasErrors], the
      [setError] updater) and [Module Dirty] ([isDirty], [isSemiDirty]).
    - [Hooks]: the configuration [config], the observable hook calls
      [call], the state cells [cells], the [formSelf] snapshot, the
      suspended submissions [task], the [world] every handler
      transforms, and the primitive updates (each functional update
      allocates a fresh object identity).
    - [Pipeline]: the change pipeline ([_changeValue],
      [onFieldChangingDefault]), the three binding factories,
      [setFormField], [setAllFields], and the Error Store handlers.
    - [Submission]: [handleSubmit] and [_onSubmit], cut at each [await]
      into a synchronous prefix and a continuation ([resume_task]).
    - [Api] ([Module Api]): the type declarations of lines 5-45 (the
      function types as handler types, [Field], [FieldRegister]), the
      record [FormOps] of the operations of [FormSelf<T>], and
      [form_api], the operations the hook hands out from a render.
    - [Lifecycle]: the React runtime as the hook relies on it.  A render
      happens whenever a cell changes, and [formWillMount] is called in
      every render.  The three effects run in declaration order when
      their dependency arrays change ([Object.is] per entry).  [flush]
      is the commit loop; the file also has mount, unmount, the events
      of the form ([event], [handler], [run_event]) and the step relation
      [step] / [reachable].  Its theorems show that the effects only
      clear cells and that the commit loop settles.
    - [Invariants]: two facts of every reachable state, by rule
      induction.  Committed object identities lie below the allocation
      counter.  The ref holds the mount render's snapshot.
    - [Scenarios]: concrete forms and worlds (defaults [{a: 1, b: 2}])
      at which the theorems are instantiated.
    - [MountFlow]: the mount computed in full.
    - [ChangeFlow], [StoreFlow], [SubmitFlow]: the handlers run as
      React events followed by the commit loop, and the theorems about
      them.
    - [Keys]: the field-key set of the types [FormValues<T>] and
      [FormErrors<T>], as an invariant of the runs whose events name
      fields of the defaults ([typed_reachable]), and what an untyped
      field name does.
    - [Liveness]: the pending submissions ([w_tasks]) weighed by
      [pending]; every resumption lowers the weight, and one event adds
      at most one task.  It also has the resumption of a submission
      after unmount.
    - [Interleaving]: two submissions in flight, one resumed before the
      other, as an explicit sequence of steps.
    - [YupAdapter]: [yupToFormErrors] and [validateYupError] against the
      class [Schema] that stands for the validation library.

    ** What the theorems show

    - Change pipeline ([ChangeFlow]).  [setFormField] stores the value,
      clears the field's error and notifies once.  A radio option is
      checked exactly when it is [===] to the value.  A blur changes
      nothing.  Five divergences are proved as theorems:
      - [fieldDidChange] receives the mount-time snapshot;
      - [setAllFields()] re-applies the defaults;
      - [setAllFields(o)] notifies only for the last key;
      - a [fieldOnChange] override called through [setFormField] sees
        the mount-time state;
      - a field named [""] is never notified.
      [formWillMount] runs on every render.
    - Error Store and reset ([StoreFlow]):
      - the [setAllErrors] round trip;
      - [setError] shows an error;
      - [clearAllErrors] clears every error;
      - [resetForm] restores the defaults.
    - Mount ([MountFlow]): [formWillMount], the registration sweep in
      key order, then [formDidMount], all on one snapshot.
    - Submission ([SubmitFlow]):
      - the default gate always passes, because errors are cleared in
        the same batch;
      - a falsy gate ends the attempt;
      - a fulfilled submit calls [formDidFinally] only;
      - a rejected submit is routed to [console.error] and
        [formDidFinally], which sees [submitting = true];
      - a rejected gate leaves [submitting] stuck true;
      - [formOnSubmit] does not skip the built-in sequence;
      - a second submit, or a field edit during a submission, submits
        again (the re-entrancy the spec requires to be guarded).
    - Pending submissions ([Liveness]):
      - from any state, at most [pending] resumptions (twice the
        pending gates plus the pending submits) drain every suspended
        [_onSubmit]: a gate that passes suspends once more on
        [formDidSubmit], nothing else suspends;
      - one event appends at most one task, however many renders its
        commit loop runs: only the first render can start [_onSubmit];
      - a submission pending at unmount still calls [formDidFinally]
        when it settles, while its state updates are dropped;
      - with two submissions pending ([Interleaving]), the first to
        finish sets [submitting] to [false] while the other still pends.
    - Field keys ([Keys]):
      - along the typed runs the committed values and errors list
        exactly the default keys, in their order;
      - [setFormField] with a name the defaults lack adds it to both
        objects, at its place in property order (the code is
        [@ts-nocheck] and checks no name).
    - Stores: the dirty laws for [NaN]-free defaults, and the refinement of the
      Value Store contract.  Adapter: the map it builds is equivalent ([≡])
      to the reference list of [inner]'s entries (first entry wins, empty
      [inner] falls back, absent [inner] yields [{}]), and its
      composition with [setAllErrors] is proved by setoid rewriting
      through that equivalence.

    ** Fuel

    [flush] runs at most [commit_fuel = 4] rounds of render-and-effects
    after each task.  [Lifecycle.flush_fuel_enough] proves that three
    rounds already reach the fixpoint from any state.  The effects
    only reset [fieldChanged] and [submitting]: the first round can
    start [_onSubmit], whose synchronous prefix only resets
    [submitting]; the second round only clears; the third finds nothing
    changed.  The fuel therefore never cuts a computation short.

    ** Modelling choices

    - Setters enqueue updates.  The updates of one task are applied in
      order and committed before the next task (React 18 batching).
      Closures read the render they were created in, which the model
      passes explicitly ([cells]).  [setFormField] and [setAllFields]
      are [useCallback(..., [])] and so use the first render.
    - The [formValues] and [formErrors] cells carry an object identity:
      React compares dependencies with [Object.is], and a functional
      update allocates a new object.
    - The defaults have one identity for the form's lifetime: the caller
      passes the same [defaultValues] object on every render (a module
      constant or a memoised object).  [cells0] and [resetForm] give it,
      and the all-[null] error map memoised on it, the identity [0].
      The code re-reads [args.defaultValues] in every render (lines
      108-123) and memoises [defaultFormErrors] on it (129-133): with an
      inline literal each render would carry a new object, and a
      [resetForm] would commit new identities and render again.  No
      theorem here depends on a reset committing identity [0] except
      through this assumption.
    - Caller hooks are observed: their calls and payloads are recorded
      in the trace.  The gate and submit hooks also say how their
      promise settles.  Suspended [_onSubmit]s resume in any order; a
      resumption after unmount drops its state updates.

    ** Not modelled

    - Every line of [src/lib/index.tsx] that is code is modelled; the
      React runtime and the yup library it calls are modelled only as
      far as the hook relies on them (the [Lifecycle] commit loop and
      the [Schema] class), hence their status [partly].
    - Rendering, the DOM event beyond [target.value] /
      [target.checked], and [preventDefault] beyond recording the call.
    - Caller hooks that call back into the form API, and caller hooks
      that throw synchronously ([submitDidCatch], [formDidFinally],
      [fieldDidChange], [formWillMount], ...): they are modelled as
      returning.
    - [handleSubmit] called without an event (the [TypeError] of
      [e.preventDefault()]); [setAllFields] with a non-object argument
      other than [undefined] and [null]; [setAllErrors] with a falsy
      argument other than [null] and [undefined]; a [yupError] that is
      [null] or not an object, and non-string [path]s: the argument
      types ([jsarg], [yup_error]) do not represent them.
    - Promises that never settle: a hook's promise is modelled by how it
      settles, so [pending_tasks_drain] is liveness on the form's side
      only (a caller's [formDidSubmit] that never settles is outside it).
    - React StrictMode and concurrent rendering.
    - The commented-out [fieldWillRegister] code, the lint and
      [@ts-nocheck] directives and the [react] import (lines 1-3).
    - The type parameter [T] beyond string keys: [keyof T] is not
      checked at run time, so the model keys objects by any string and
      [Keys] states the key set as an invariant.
    - The behaviour of the yup library itself: it is the [Schema]
      interface.
*)

From stdpp Require Import base list strings decidable.

Declare Scope form_scope.
Delimit Scope form_scope with form.
Open Scope form_scope.

Create HintDb form discriminated.
Create Rewrite HintDb form_rw.

(** ** A state monad for event handlers *)

Definition St (S A : Type) : Type := S -> A * S.

Definition st_ret {S A} (a : A) : St S A := fun s => (a, s).
Definition st_bind {S A B} (m : St S A) (k : A -> St S B) : St S B :=
  fun s => let '(a, s') := m s in k a s'.
Definition st_get {S} : St S S := fun s => (s, s).
Definition st_modify {S} (f : S -> S) : St S unit := fun s => (tt, f s).

Notation "x <- m ;; k" := (st_bind m (fun x => k))
  (at level 100, m at next level, right associativity) : form_scope.
Notation "m ;; k" := (st_bind m (fun _ => k))
  (at level 100, right associativity) : form_scope.

(** [for (const x of l) body], and [for (const k in o) body] once the
    keys are listed. *)
Fixpoint for_each {S X} (l : list X) (body : X -> St S unit) : St S unit :=
  match l with
  | [] => st_ret tt
  | x :: l' => body x ;; for_each l' body
  end.

(** Running a handler for its final state. *)
Definition exec {S A} (m : St S A) (s : S) : S := snd (m s).

Lemma exec_bind {S A B} (m : St S A) (k : A -> St S B) s :
  exec (st_bind m k) s = exec (k (fst (m s))) (snd (m s)).
Proof. unfold exec, st_bind. by destruct (m s). Qed.

Lemma exec_seq {S A B} (m : St S A) (k : St S B) s :
  exec (st_bind m (fun _ => k)) s = exec k (exec m s).
Proof. apply exec_bind. Qed.

Lemma exec_ret {S A} (a : A) (s : S) : exec (st_ret a) s = s.
Proof. done. Qed.

Lemma exec_modify {S} (f : S -> S) s : exec (st_modify f) s = f s.
Proof. done. Qed.

#[export] Hint Rewrite @exec_seq @exec_ret @exec_modify : form_rw.

(** ** Invariants of handlers

    [preserves I m]: running [m] from a state satisfying [I] ends in a
    state satisfying [I].  Handlers are built from [st_get], [st_modify],
    [st_ret], binds, loops and branches, so a preservation proof reduces
    to one obligation per [st_modify]; the tactic [preserve] below does
    that reduction. *)

Definition preserves {S A} (I : S -> Prop) (m : St S A) : Prop :=
  forall s, I s -> I (snd (m s)).

Lemma preserves_ret {S A} (I : S -> Prop) (a : A) : preserves I (st_ret a).
Proof. by intros s. Qed.

Lemma preserves_get {S} (I : S -> Prop) : preserves I st_get.
Proof. by intros s. Qed.

Lemma preserves_modify {S} (I : S -> Prop) (f : S -> S) :
  (forall s, I s -> I (f s)) -> preserves I (st_modify f).
Proof. intros H s. apply H. Qed.

Lemma preserves_bind {S A B} (I : S -> Prop) (m : St S A) (k : A -> St S B) :
  preserves I m -> (forall a, preserves I (k a)) -> preserves I (st_bind m k).
Proof.
  intros Hm Hk s Hs. unfold st_bind. specialize (Hm s Hs).
  destruct (m s) as [a s']. by apply Hk.
Qed.

Lemma preserves_for_each {S X} (I : S -> Prop) (l : list X) (body : X -> St S unit) :
  (forall x, preserves I (body x)) -> preserves I (for_each l body).
Proof.
  intros Hb. induction l as [|x l IH]; simpl.
  - apply preserves_ret.
  - apply preserves_bind; [apply Hb|]. intros _. exact IH.
Qed.

(** A loop whose body preserves [I] for the elements it is run on. *)
Lemma preserves_for_each_in {S X} (I : S -> Prop) (l : list X) (body : X -> St S unit) :
  (forall x, x ∈ l -> preserves I (body x)) -> preserves I (for_each l body).
Proof.
  intros Hb. induction l as [|x l IH]; simpl; [apply preserves_ret|].
  apply preserves_bind; [apply Hb; left|intros _; apply IH; intros y Hy; apply Hb; by right].
Qed.

Lemma preserves_exec {S A} (I : S -> Prop) (m : St S A) s :
  preserves I m -> I s -> I (exec m s).
Proof. intros H Hs. by apply H. Qed.

(** ** Shared tactics *)

Ltac head_of t := match t with ?f _ => head_of f | _ => t end.

(** One step of a preservation proof: split a bind or a loop, case on a
    branch, or unfold the handler at the head of the computation. *)
Ltac preserve_step :=
  match goal with
  | H : forall _, preserves _ _ |- preserves _ _ => solve [apply H]
  | |- preserves _ (st_bind _ _) => apply preserves_bind; [|intros ?]
  | |- preserves _ (for_each _ _) => apply preserves_for_each; intros ?
  | |- preserves _ (st_ret _) => apply preserves_ret
  | |- preserves _ st_get => apply preserves_get
  | |- preserves _ (st_modify _) => apply preserves_modify
  | |- preserves _ (if ?b then _ else _) => destruct b
  | |- preserves _ (match ?x with _ => _ end) => destruct x
  | |- preserves _ ?m => let h := head_of m in progress unfold h
  end.

(** Reduce a preservation goal to its [st_modify] obligations
    [forall s, I s -> I (f s)] and close them with [tac]. *)
Tactic Notation "preserve_with" tactic3(tac) := repeat preserve_step; try tac.

(** The same, closing first by the lemmas of hint database [db] the
    sub-computations whose preservation is proved once and for all. *)
Tactic Notation "preserve_using" ident(db) tactic3(tac) :=
  repeat (first [solve [eauto with db] | preserve_step]); try tac.

(** Unfold the monad plumbing of a handler applied to a state. *)
Ltac st_simpl :=
  unfold exec, st_bind, st_ret, st_get, st_modify in *; simpl in *.

(** Case on every boolean decision in the goal and close trivial cases. *)
Ltac decide_cases :=
  repeat (case_bool_decide || case_decide); simplify_eq; try done.

(** Discharge a hypothesis of a theorem at a concrete input: compute it,
    then close an equation by reflexivity or a decidable proposition by
    its decision procedure. *)
Ltac concrete :=
  first [apply (bool_decide_unpack _); vm_compute; reflexivity | vm_compute; reflexivity].
