(* ===== verification/JsValue.v ===== *)
(** * JavaScript values as [src/lib/index.tsx] observes them

    Field values, error messages, raw events and hook results are all
    JavaScript values.  The hook compares them with [===] / [!==]
    (lines 140, 144, 148, 240), React compares effect dependencies with
    [Object.is], and control flow tests truthiness ([if(!errors)],
    [if(fieldChanged)], [if(!isFormSubmittable)]) and nullishness ([??]).
    Numbers are IEEE binary64 values in Stdlib's [spec_float] form, so
    that [NaN !== NaN] and [+0 === -0] hold as in JavaScript. *)

From stdpp Require Import base list strings decidable.
From Stdlib Require Import SpecFloat.
From S2P Require Import Prelude.

(** Heap locations of objects (events, arrays, records). *)
Definition loc := positive.

Inductive jsval :=
| JUndefined
| JNull
| JBool (b : bool)
| JNumber (n : spec_float)
| JString (s : string)
| JObject (l : loc).

#[export] Instance spec_float_eq_dec : EqDecision spec_float.
Proof. intros x y. unfold Decision. repeat decide equality. Defined.

#[export] Instance jsval_eq_dec : EqDecision jsval.
Proof. intros x y. unfold Decision. decide equality; apply (decide (_ = _)). Defined.

(** Binary64 parameters and a few constants used by the examples. *)
Definition NaN : spec_float := S754_nan.
Definition pos_zero : spec_float := S754_zero false.
Definition neg_zero : spec_float := S754_zero true.
(** [num n] is the double of a small non-negative integer ([n] < 2^53). *)
Definition num (n : N) : spec_float :=
  match n with
  | N0 => S754_zero false
  | Npos p => binary_normalize 53 1024 (Zpos p) 0 false
  end.

(** [a === b]: IEEE equality on numbers, by value on other primitives, by
    reference on objects. *)
Definition strict_eq (a b : jsval) : bool :=
  match a, b with
  | JUndefined, JUndefined => true
  | JNull, JNull => true
  | JBool x, JBool y => Bool.eqb x y
  | JNumber x, JNumber y => SFeqb x y
  | JString x, JString y => bool_decide (x = y)
  | JObject x, JObject y => bool_decide (x = y)
  | _, _ => false
  end.

(** [Object.is(a, b)]: the SameValue algorithm, which is equality of the
    representations ([NaN] is itself, [+0] and [-0] differ). *)
Definition same_value (a b : jsval) : bool := bool_decide (a = b).

(** Nullish: what [?.] short-circuits on and [??] replaces. *)
Definition nullish (v : jsval) : bool :=
  match v with JUndefined | JNull => true | _ => false end.

(** [a ?? b] *)
Definition coalesce (a b : jsval) : jsval := if nullish a then b else a.

(** ToBoolean. *)
Definition truthy (v : jsval) : bool :=
  match v with
  | JUndefined | JNull => false
  | JBool b => b
  | JNumber (S754_zero _) | JNumber S754_nan => false
  | JNumber _ => true
  | JString s => bool_decide (s ≠ "")
  | JObject _ => true
  end.

(** The values on which [===] is reflexive: everything but [NaN]. *)
Definition self_equal (v : jsval) : bool := strict_eq v v.

(** ** Lemmas *)

Lemma SFeqb_refl_not_nan (x : spec_float) : x ≠ S754_nan -> SFeqb x x = true.
Proof.
  intros Hx. unfold SFeqb, SFcompare.
  destruct x as [s|s| |s m e]; try congruence; try by destruct s.
  destruct s; rewrite Z.compare_refl, Pos.compare_cont_refl; done.
Qed.

Lemma self_equal_iff (v : jsval) : self_equal v = true <-> v ≠ JNumber NaN.
Proof.
  unfold self_equal. split.
  - intros H ->. done.
  - intros H. destruct v as [| |b|n|s|l]; simpl; try done.
    + by destruct b.
    + apply SFeqb_refl_not_nan. intros ->. by apply H.
    + by apply bool_decide_eq_true.
    + by apply bool_decide_eq_true.
Qed.

Lemma strict_eq_nan_l v : strict_eq (JNumber NaN) v = false.
Proof. by destruct v. Qed.

Lemma strict_eq_zeros : strict_eq (JNumber pos_zero) (JNumber neg_zero) = true.
Proof. reflexivity. Qed.

Lemma same_value_refl v : same_value v v = true.
Proof. by apply bool_decide_eq_true. Qed.

Lemma same_value_spec a b : same_value a b = true <-> a = b.
Proof. apply bool_decide_eq_true. Qed.

Lemma nullish_not_truthy v : nullish v = true -> truthy v = false.
Proof. by destruct v. Qed.

Lemma coalesce_nullish a b : nullish a = true -> coalesce a b = b.
Proof. unfold coalesce. by intros ->. Qed.

Lemma coalesce_not_nullish a b : nullish a = false -> coalesce a b = a.
Proof. unfold coalesce. by intros ->. Qed.

#[export] Hint Rewrite same_value_refl strict_eq_nan_l : form_rw.
#[export] Hint Resolve same_value_refl : form.
