(* ===== verification/JsObject.v ===== *)
(** * Plain JavaScript objects used as records and maps

    [formValues], [formErrors], the partial maps given to [setAllErrors] and
    [setAllFields], and the result of [yupToFormErrors] are plain objects:
    insertion-ordered maps from string keys to values.  This file models
    them as association lists with the operations the source uses:
    [o[k]], [{...o, [k]: v}], object spread, [Object.keys] and
    [for ... in], and the property reads of a raw event
    ([val?.target?.value]) over an explicit heap of event objects.  It
    closes with the Value Store contract of the spec (section 4.1): the
    class [FieldStoreLaws], its finite-map instance, and the abstraction
    [to_map] of an object to that map, and the setoid of objects up to
    their bindings ([obj_equiv]) with its [Proper] instances. *)

From stdpp Require Import base list strings decidable sets gmap.
From Stdlib Require Import DecimalString.
From S2P Require Import Prelude JsValue.

Definition obj := list (string * jsval).

(** [Object.keys(o)] and the order of [for (k in o)]. *)
Definition obj_keys (o : obj) : list string := map fst o.

Fixpoint obj_lookup (o : obj) (k : string) : option jsval :=
  match o with
  | [] => None
  | (k', v) :: o' => if decide (k = k') then Some v else obj_lookup o' k
  end.

(** [o[k]]: [undefined] for a missing key. *)
Definition obj_get (o : obj) (k : string) : jsval :=
  match obj_lookup o k with Some v => v | None => JUndefined end.

(** ** Property order ([OrdinaryOwnPropertyKeys])

    [Object.keys], [for ... in] and spread list an object's array-index
    keys first, by ascending value, then its other string keys in the
    order they were created.  An array index is the canonical decimal
    rendering of a number below [2^32 - 1]. *)
Definition string_of_N (n : N) : string := NilEmpty.string_of_uint (N.to_uint n).

Definition array_index (k : string) : option N :=
  match NilEmpty.uint_of_string k with
  | Some u =>
      let n := N.of_uint u in
      if bool_decide (string_of_N n = k) && bool_decide (n < 4294967295)%N then Some n else None
  | None => None
  end.

(** Key [k] may be listed before key [k']. *)
Definition may_precede (k k' : string) : bool :=
  match array_index k' with
  | None => true
  | Some m => match array_index k with Some n => bool_decide (n < m)%N | None => false end
  end.

(** The keys of a JavaScript object are listed in property order. *)
Fixpoint js_ordered (ks : list string) : bool :=
  match ks with
  | [] => true
  | k :: ks' => forallb (may_precede k) ks' && js_ordered ks'
  end.

(** Assigning an existing property keeps its position. *)
Fixpoint obj_replace (o : obj) (k : string) (v : jsval) : obj :=
  match o with
  | [] => []
  | (k', v') :: o' => if decide (k = k') then (k, v) :: o' else (k', v') :: obj_replace o' k v
  end.

(** Creating a property: it goes where the property order puts it (after
    every key it may follow), so a new non-index key goes last. *)
Fixpoint obj_add (o : obj) (k : string) (v : jsval) : obj :=
  match o with
  | [] => [(k, v)]
  | (k', v') :: o' => if may_precede k' k then (k', v') :: obj_add o' k v else (k, v) :: o
  end.

(** Defining a property ([o[k] = v], [{...o, [k]: v}]). *)
Definition obj_set (o : obj) (k : string) (v : jsval) : obj :=
  if bool_decide (k ∈ obj_keys o) then obj_replace o k v else obj_add o k v.

(** [{...target, ...src}]: the properties of [src] defined in order. *)
Definition obj_spread (target src : obj) : obj :=
  fold_left (fun acc kv => obj_set acc kv.1 kv.2) src target.

(** [Object.keys(o).every(k => p(k))] and [.some(...)]. *)
Definition obj_every (o : obj) (p : string -> bool) : bool := forallb p (obj_keys o).
Definition obj_some (o : obj) (p : string -> bool) : bool := existsb p (obj_keys o).

(** A list that is a JavaScript object: it repeats no key and lists its
    keys in property order. *)
Definition obj_wf (o : obj) : Prop := NoDup (obj_keys o) /\ js_ordered (obj_keys o) = true.

(** ** Raw events: objects on a heap *)

Definition heap := list (loc * obj).

Fixpoint heap_obj (h : heap) (l : loc) : obj :=
  match h with
  | [] => []
  | (l', o) :: h' => if decide (l = l') then o else heap_obj h' l
  end.

(** [v.p]: own properties of objects; primitives have none of the
    properties the bindings read. *)
Definition get_prop (h : heap) (v : jsval) (p : string) : jsval :=
  match v with
  | JObject l => obj_get (heap_obj h l) p
  | _ => JUndefined
  end.

(** [v?.p] *)
Definition opt_get (h : heap) (v : jsval) (p : string) : jsval :=
  if nullish v then JUndefined else get_prop h v p.

(** [val?.target?.value ?? val] (lines 206, 212, 221, 236). *)
Definition event_value (h : heap) (val : jsval) : jsval :=
  coalesce (opt_get h (opt_get h val "target") "value") val.

(** [val?.target?.checked ?? val] (line 227). *)
Definition event_checked (h : heap) (val : jsval) : jsval :=
  coalesce (opt_get h (opt_get h val "target") "checked") val.

(** ** Lookup laws *)

(** ** The property order *)

Lemma array_index_inj a b n : array_index a = Some n -> array_index b = Some n -> a = b.
Proof.
  unfold array_index.
  destruct (NilEmpty.uint_of_string a), (NilEmpty.uint_of_string b); try done.
  do 2 (case_bool_decide; [|done]). simpl. do 2 (case_bool_decide; [|done]).
  intros [= <-] [= Hn]. congruence.
Qed.

(** Of two distinct keys, one may precede the other. *)
Lemma may_precede_flip k k' : k ≠ k' -> may_precede k' k = false -> may_precede k k' = true.
Proof.
  unfold may_precede. intros Hne.
  destruct (array_index k) as [m|] eqn:Hk; [|done].
  destruct (array_index k') as [n|] eqn:Hk'; [|done].
  intros Hf. apply bool_decide_eq_false in Hf. apply bool_decide_eq_true.
  destruct (decide (n = m)) as [->|]; [by destruct Hne; eapply array_index_inj|lia].
Qed.

Lemma may_precede_trans k1 k2 k3 :
  may_precede k1 k2 = true -> may_precede k2 k3 = true -> may_precede k1 k3 = true.
Proof.
  unfold may_precede.
  destruct (array_index k3) as [p|]; [|done]. destruct (array_index k2) as [m|]; [|done].
  destruct (array_index k1) as [n|]; [|done]. rewrite !bool_decide_eq_true. lia.
Qed.

Lemma may_precede_non_index k k' : array_index k' = None -> may_precede k k' = true.
Proof. unfold may_precede. by intros ->. Qed.

Lemma js_ordered_cons k ks :
  js_ordered (k :: ks) = true <-> (forall k', k' ∈ ks -> may_precede k k' = true) /\ js_ordered ks = true.
Proof.
  simpl. rewrite andb_true_iff, forallb_forall. setoid_rewrite list_elem_of_In. done.
Qed.

Lemma js_ordered_app l1 l2 :
  js_ordered (l1 ++ l2) = true ->
  js_ordered l1 = true /\ js_ordered l2 = true /\ forall a b, a ∈ l1 -> b ∈ l2 -> may_precede a b = true.
Proof.
  induction l1 as [|k l1 IH]; intros H; [repeat split; [done|set_solver]|].
  simpl in H. apply js_ordered_cons in H as [Hk (H1 & H2 & H3)%IH].
  split; [apply js_ordered_cons; split; [intros x Hx; apply Hk; set_solver|done]|].
  split; [done|]. intros a b [->|Ha]%elem_of_cons Hb; [apply Hk; set_solver|by apply H3].
Qed.

Section ObjLaws.
Implicit Types (o : obj) (k : string) (v : jsval).

Lemma obj_lookup_replace_eq o k v : k ∈ obj_keys o -> obj_lookup (obj_replace o k v) k = Some v.
Proof.
  induction o as [|[k' v'] o IH]; simpl; [set_solver|]. rewrite elem_of_cons.
  intros Hk. case_decide; simpl; [by rewrite decide_True|]. rewrite decide_False by done. naive_solver.
Qed.

Lemma obj_lookup_replace_ne o k k' v : k ≠ k' -> obj_lookup (obj_replace o k v) k' = obj_lookup o k'.
Proof.
  intros Hne. induction o as [|[k1 v1] o IH]; simpl; [done|].
  case_decide; subst; simpl; [by rewrite !decide_False|]. case_decide; [done|exact IH].
Qed.

Lemma obj_keys_replace o k v : obj_keys (obj_replace o k v) = obj_keys o.
Proof. induction o as [|[k' v'] o IH]; simpl; [done|]. case_decide; simpl; [by subst|by f_equal]. Qed.

Lemma obj_lookup_add_eq o k v : k ∉ obj_keys o -> obj_lookup (obj_add o k v) k = Some v.
Proof.
  induction o as [|[k' v'] o IH]; simpl; [by rewrite decide_True|]. rewrite elem_of_cons.
  intros Hk. destruct (may_precede k' k); simpl; [rewrite decide_False by naive_solver; naive_solver|].
  by rewrite decide_True.
Qed.

Lemma obj_lookup_add_ne o k k' v : k ≠ k' -> obj_lookup (obj_add o k v) k' = obj_lookup o k'.
Proof.
  intros Hne. induction o as [|[k1 v1] o IH]; simpl; [by rewrite decide_False|].
  destruct (may_precede k1 k); simpl; [by case_decide|]. by rewrite decide_False.
Qed.

Lemma obj_keys_add_perm o k v : obj_keys (obj_add o k v) ≡ₚ obj_keys o ++ [k].
Proof.
  induction o as [|[k' v'] o IH]; simpl; [done|].
  destruct (may_precede k' k); simpl; [by apply perm_skip|]. solve_Permutation.
Qed.

(** A key every present key may precede goes last. *)
Lemma obj_add_last o k v :
  (forall k', k' ∈ obj_keys o -> may_precede k' k = true) -> obj_add o k v = o ++ [(k, v)].
Proof.
  induction o as [|[k' v'] o IH]; simpl; [done|]. intros H.
  rewrite (H k') by (by left). f_equal. apply IH. intros x Hx. apply H. by right.
Qed.

Lemma js_ordered_add o k v :
  k ∉ obj_keys o -> js_ordered (obj_keys o) = true -> js_ordered (obj_keys (obj_add o k v)) = true.
Proof.
  induction o as [|[k' v'] o IH]; simpl; [done|]. rewrite elem_of_cons.
  intros Hk [Hk' Ho]%js_ordered_cons. destruct (may_precede k' k) eqn:Hp; simpl obj_keys.
  - apply js_ordered_cons. split; [|apply IH; naive_solver].
    intros x Hx. rewrite (obj_keys_add_perm o k v), elem_of_app, list_elem_of_singleton in Hx.
    destruct Hx as [Hx| ->]; [by apply Hk'|done].
  - pose proof (may_precede_flip k k' ltac:(naive_solver) Hp) as Hkk'.
    apply js_ordered_cons. split; [|by apply js_ordered_cons].
    intros x [->|Hx]%elem_of_cons; [done|]. by eapply may_precede_trans, Hk'.
Qed.

Lemma obj_lookup_set_eq o k v : obj_lookup (obj_set o k v) k = Some v.
Proof.
  unfold obj_set. case_bool_decide; [by apply obj_lookup_replace_eq|by apply obj_lookup_add_eq].
Qed.

Lemma obj_lookup_set_ne o k k' v :
  k ≠ k' -> obj_lookup (obj_set o k v) k' = obj_lookup o k'.
Proof.
  intros Hne. unfold obj_set. case_bool_decide; [by apply obj_lookup_replace_ne|by apply obj_lookup_add_ne].
Qed.

Lemma obj_get_set_eq o k v : obj_get (obj_set o k v) k = v.
Proof. unfold obj_get. by rewrite obj_lookup_set_eq. Qed.

Lemma obj_get_set_ne o k k' v : k ≠ k' -> obj_get (obj_set o k v) k' = obj_get o k'.
Proof. intros. unfold obj_get. by rewrite obj_lookup_set_ne. Qed.

Lemma obj_lookup_Some_in o k v : obj_lookup o k = Some v -> k ∈ obj_keys o.
Proof.
  induction o as [|[k' v'] o IH]; simpl; [done|].
  intros Hl. case_decide; [subst; by left|]. right. by apply IH.
Qed.

Lemma obj_lookup_None o k : k ∉ obj_keys o -> obj_lookup o k = None.
Proof.
  induction o as [|[k' v'] o IH]; simpl; [done|].
  rewrite elem_of_cons. intros Hn. rewrite decide_False by naive_solver.
  apply IH. naive_solver.
Qed.

Lemma obj_set_in o k v : k ∈ obj_keys o -> obj_set o k v = obj_replace o k v.
Proof. intros Hk. unfold obj_set. by rewrite bool_decide_eq_true_2. Qed.

Lemma obj_keys_set_in o k v : k ∈ obj_keys o -> obj_keys (obj_set o k v) = obj_keys o.
Proof. intros Hk. by rewrite obj_set_in, obj_keys_replace. Qed.

(** A new key is added to the keys, at its place in property order. *)
Lemma obj_keys_set_notin o k v :
  k ∉ obj_keys o -> obj_keys (obj_set o k v) ≡ₚ obj_keys o ++ [k].
Proof. intros Hk. unfold obj_set. rewrite bool_decide_eq_false_2 by done. apply obj_keys_add_perm. Qed.

(** A new key that is not an array index goes last. *)
Lemma obj_keys_set_notin_last o k v :
  k ∉ obj_keys o -> array_index k = None -> obj_keys (obj_set o k v) = obj_keys o ++ [k].
Proof.
  intros Hk Hi. unfold obj_set. rewrite bool_decide_eq_false_2 by done.
  rewrite obj_add_last; [unfold obj_keys; by rewrite map_app|]. intros. by apply may_precede_non_index.
Qed.

Lemma obj_keys_set_elem o k v k' :
  k' ∈ obj_keys (obj_set o k v) <-> k' = k \/ k' ∈ obj_keys o.
Proof.
  destruct (decide (k ∈ obj_keys o)).
  - rewrite obj_keys_set_in by done. naive_solver.
  - rewrite (obj_keys_set_notin o k v) by done. rewrite elem_of_app, list_elem_of_singleton.
    naive_solver.
Qed.

Lemma obj_wf_nil : obj_wf [].
Proof. split; [constructor|done]. Qed.

Lemma obj_wf_singleton k v : obj_wf [(k, v)].
Proof. split; [apply NoDup_singleton|done]. Qed.

Lemma obj_wf_set o k v : obj_wf o -> obj_wf (obj_set o k v).
Proof.
  intros [Hnd Hord]. destruct (decide (k ∈ obj_keys o)).
  - unfold obj_wf. by rewrite obj_keys_set_in.
  - split.
    + rewrite (obj_keys_set_notin o k v) by done. apply list.NoDup_app. split; [done|].
      split; [|apply NoDup_singleton]. intros x Hx ->%list_elem_of_singleton. done.
    + unfold obj_set. rewrite bool_decide_eq_false_2 by done. by apply js_ordered_add.
Qed.

(** Spreading the rest of a well-formed object onto a prefix of it
    rebuilds it: each key is new and may follow the ones before it. *)
Lemma obj_spread_nil_app o1 o2 :
  obj_wf (o1 ++ o2) -> obj_spread o1 o2 = o1 ++ o2.
Proof.
  revert o1. induction o2 as [|[k v] o2 IH]; intros o1 Hwf; simpl.
  - by rewrite app_nil_r.
  - assert (obj_set o1 k v = o1 ++ [(k, v)]) as ->.
    { destruct Hwf as [Hnd Hord]. unfold obj_keys in Hnd, Hord. rewrite map_app in Hnd, Hord.
      apply list.NoDup_app in Hnd as (_ & Hdis & _).
      apply js_ordered_app in Hord as (_ & _ & Hpre).
      unfold obj_set. rewrite bool_decide_eq_false_2 by (intros Hk; by apply (Hdis k); [|left]).
      apply obj_add_last. intros k' Hk'. apply Hpre; [done|by left]. }
    replace (o1 ++ (k, v) :: o2) with ((o1 ++ [(k, v)]) ++ o2)
      by (by rewrite <- app_assoc).
    apply IH. by rewrite <- app_assoc.
Qed.

Lemma obj_spread_copy o : obj_wf o -> obj_spread [] o = o.
Proof. intros H. by apply (obj_spread_nil_app [] o). Qed.

Lemma obj_lookup_spread t s k :
  obj_lookup (obj_spread t s) k
  = match obj_lookup (rev s) k with Some v => Some v | None => obj_lookup t k end.
Proof.
  revert t. induction s as [|[k' v'] s IH]; intros t; simpl; [done|].
  rewrite IH. clear IH.
  induction (rev s) as [|[k2 v2] r IHr]; simpl.
  - destruct (decide (k = k')) as [->|].
    + rewrite obj_lookup_set_eq. simpl. repeat case_decide; done.
    + rewrite obj_lookup_set_ne by done. simpl. repeat case_decide; done.
  - case_decide; [done|]. exact IHr.
Qed.
Lemma obj_get_spread_copy o k : obj_wf o -> obj_get (obj_spread [] o) k = obj_get o k.
Proof. intros H. by rewrite obj_spread_copy. Qed.

(** A loop of [{...acc, [k]: f(k)}] over keys [ks] writes exactly [ks]. *)
Lemma obj_get_fold_spread_set (ks : list string) (f : string -> jsval) o k :
  obj_wf o ->
  obj_get (fold_left (fun acc k' => obj_set (obj_spread [] acc) k' (f k')) ks o) k
  = if decide (k ∈ ks) then f k else obj_get o k.
Proof.
  revert o. induction ks as [|k' ks IH]; intros o Ho; simpl.
  - repeat case_decide; try set_solver; done.
  - rewrite obj_spread_copy by done. rewrite IH by (by apply obj_wf_set).
    destruct (decide (k = k')) as [->|Hne].
    + rewrite obj_get_set_eq. repeat case_decide; try set_solver; done.
    + rewrite obj_get_set_ne by done. repeat case_decide; try set_solver; done.
Qed.

Lemma obj_wf_spread t s : obj_wf t -> obj_wf (obj_spread t s).
Proof.
  revert t. induction s as [|[k v] s IH]; intros t Ht; [done|].
  apply IH. by apply obj_wf_set.
Qed.
End ObjLaws.

#[export] Hint Rewrite obj_get_set_eq obj_lookup_set_eq : form_rw.
#[export] Hint Resolve obj_wf_nil obj_wf_singleton obj_wf_set obj_wf_spread : form.

(** ** The Value Store contract (spec 4.1)

    [read] and [write], where a write replaces exactly one entry and
    preserves all others, on the stores satisfying [ok].  The abstract
    store is a finite map, read as [undefined] off its domain; [Stores]
    gives the instance of the hook's objects and its refinement. *)
Class FieldStore (M : Type) := {
  fs_read : M -> string -> jsval;
  fs_write : string -> jsval -> M -> M
}.

Class FieldStoreLaws (M : Type) `{FieldStore M} (ok : M -> Prop) : Prop := {
  fs_read_write_eq k v m : ok m -> fs_read (fs_write k v m) k = v;
  fs_read_write_ne k k' v m : ok m -> k ≠ k' -> fs_read (fs_write k v m) k' = fs_read m k';
  fs_write_ok k v m : ok m -> ok (fs_write k v m)
}.

#[export] Instance gmap_field_store : FieldStore (gmap string jsval) := {
  fs_read m k := default JUndefined (m !! k);
  fs_write k v m := <[k:=v]> m
}.

#[export] Instance gmap_field_store_laws : FieldStoreLaws (gmap string jsval) (fun _ => True).
Proof.
  split; intros; simpl; [by rewrite lookup_insert_eq|by rewrite lookup_insert_ne|done].
Qed.

(** The abstraction of an object: its first binding of each key. *)
Definition to_map (o : obj) : gmap string jsval := list_to_map o.

Lemma to_map_lookup o k : to_map o !! k = obj_lookup o k.
Proof.
  unfold to_map. induction o as [|[k' v] o IH]; simpl; [apply lookup_empty|].
  rewrite lookup_insert. by repeat case_decide; subst.
Qed.

Lemma obj_get_to_map o k : obj_get o k = fs_read (to_map o) k.
Proof. simpl. by rewrite to_map_lookup. Qed.

(** ** Objects up to their bindings

    Two objects are equivalent when every key reads the same binding:
    the order of insertion and shadowed duplicates are invisible to
    [o[k]].  [to_map] identifies exactly the equivalent objects, and
    reading, defining a property and spreading into a target respect the
    equivalence, so a goal about lookups can be rewritten with [≡]. *)
#[export] Instance obj_equiv : Equiv obj := fun a b => forall k, obj_lookup a k = obj_lookup b k.

#[export] Instance obj_equivalence : Equivalence (≡@{obj}).
Proof.
  split; [by intros a k|by intros a b H k|]. intros a b c H1 H2 k. by rewrite H1, H2.
Qed.

Lemma obj_equiv_to_map a b : a ≡ b <-> to_map a = to_map b.
Proof.
  split; [intros H; apply map_eq; intros k; by rewrite !to_map_lookup|].
  intros H k. by rewrite <- !to_map_lookup, H.
Qed.

#[export] Instance to_map_proper : Proper ((≡) ==> (=)) to_map.
Proof. intros a b H. by apply obj_equiv_to_map. Qed.

#[export] Instance obj_lookup_proper : Proper ((≡) ==> (=) ==> (=)) obj_lookup.
Proof. intros a b H k _ <-. apply H. Qed.

#[export] Instance obj_get_proper : Proper ((≡) ==> (=) ==> (=)) obj_get.
Proof. intros a b H k _ <-. unfold obj_get. by rewrite (H k). Qed.

Lemma obj_lookup_set o k v k' :
  obj_lookup (obj_set o k v) k' = if decide (k' = k) then Some v else obj_lookup o k'.
Proof. case_decide as Hk; [subst; apply obj_lookup_set_eq|apply obj_lookup_set_ne; congruence]. Qed.

#[export] Instance obj_set_proper : Proper ((≡) ==> (=) ==> (=) ==> (≡)) obj_set.
Proof. intros a b H k _ <- v _ <- k'. rewrite !obj_lookup_set. by case_decide. Qed.

#[export] Instance obj_spread_proper : Proper ((≡) ==> (=) ==> (≡)) obj_spread.
Proof. intros a b H s _ <- k. rewrite !obj_lookup_spread. by rewrite (H k). Qed.
