(* ===== verification/Stores.v ===== *)
(** * Value Store, Error Store and Dirty Calculator (spec 4.1-4.3)

    The pure parts of [useForm] that compute on the two object-valued
    state cells: the memoised [defaultFormErrors] (lines 129-133), the
    derived booleans [hasErrors], [isDirty], [isSemiDirty] (139-149), and
    the functional updaters that [setForm] and [setError] hand to React
    (151-163).  The handlers that enqueue these updaters are in
    [Pipeline]; this file proves what the updaters and derivations
    compute. *)

From stdpp Require Import base list strings decidable sets gmap.
From S2P Require Import Prelude JsValue JsObject.

Module ValueStore.

(** The updater of [setForm(fieldName, value)] (lines 151-156):
    [formValues => ({...formValues, [fieldName]: value})]. *)
Definition setForm_upd (fieldName : string) (value : jsval) (formValues : obj) : obj :=
  obj_set (obj_spread [] formValues) fieldName value.

Lemma setForm_upd_wf k v o : obj_wf o -> setForm_upd k v o = obj_set o k v.
Proof. intros H. unfold setForm_upd. by rewrite obj_spread_copy. Qed.

Lemma obj_get_setForm_upd k v o : obj_get (setForm_upd k v o) k = v.
Proof. apply obj_get_set_eq. Qed.

Lemma obj_get_setForm_upd_ne k k' v o :
  k ≠ k' -> obj_get (setForm_upd k v o) k' = obj_get (obj_spread [] o) k'.
Proof. apply obj_get_set_ne. Qed.

(** The hook's objects, written through [setForm], are a field store. *)
#[export] Instance obj_field_store : FieldStore obj := {
  fs_read := obj_get;
  fs_write := setForm_upd
}.

#[export] Instance obj_field_store_laws : FieldStoreLaws obj obj_wf.
Proof.
  split; intros k; simpl.
  - intros v m _. apply obj_get_setForm_upd.
  - intros k' v m Hm Hne. rewrite obj_get_setForm_upd_ne by done. by apply obj_get_spread_copy.
  - intros v m Hm. rewrite setForm_upd_wf by done. auto with form.
Qed.

(** C24: Refinement of the Value Store contract (spec 4.1): on a well-formed
    object, the updater of [setForm(k, v)] is, through the abstraction
    [to_map], the finite-map insertion [<[k:=v]>], and reading a field is
    reading the map ([undefined] off its domain). *)
Theorem setForm_upd_refines (o : obj) k v :
  obj_wf o ->
  to_map (setForm_upd k v o) = <[k:=v]> (to_map o) /\
  forall k', obj_get (setForm_upd k v o) k' = default JUndefined (<[k:=v]> (to_map o) !! k').
Proof.
  intros Hwf.
  assert (Hm : to_map (setForm_upd k v o) = <[k:=v]> (to_map o)).
  { apply map_eq. intros k'. rewrite to_map_lookup, lookup_insert, setForm_upd_wf by done.
    destruct (decide (k = k')) as [->|Hne]; [apply obj_lookup_set_eq|].
    rewrite obj_lookup_set_ne by done. by rewrite to_map_lookup. }
  split; [done|]. intros k'. by rewrite obj_get_to_map, Hm.
Qed.

Lemma setForm_upd_refines_witness :
  let o := [("a", JNumber (num 1)); ("b", JNumber (num 2))] in
  to_map (setForm_upd "a" (JNumber (num 9)) o) = <["a":=JNumber (num 9)]> (to_map o).
Proof.
  apply (setForm_upd_refines [("a", JNumber (num 1)); ("b", JNumber (num 2))] "a" (JNumber (num 9))).
  unfold obj_wf. concrete.
Defined.

End ValueStore.

Module ErrorStore.

(** [defaultFormErrors] (lines 129-133): every key of the default values
    mapped to [null], folding from the default values themselves. *)
Definition defaultFormErrors (defaultValues : obj) : obj :=
  fold_left (fun acc curr => obj_set (obj_spread [] acc) curr JNull)
    (obj_keys defaultValues) defaultValues.

(** [hasErrors] (lines 139-141). *)
Definition hasErrors (formErrors : obj) : bool :=
  obj_some formErrors (fun field => negb (strict_eq (obj_get formErrors field) JNull)).

(** The updater of [setError(fieldName, value)] (lines 158-163). *)
Definition setError_upd (fieldName : string) (value : jsval) (formError : obj) : obj :=
  obj_set (obj_spread [] formError) fieldName value.

(** The errors after a sequence of [setError] updaters, one per key of
    [m] in key order, each writing [m[k]] (the loop of [setAllErrors]). *)
Definition apply_errors (m : obj) (e : obj) : obj :=
  fold_left (fun acc k => setError_upd k (obj_get m k) acc) (obj_keys m) e.

Lemma obj_get_setError_upd k v e : obj_get (setError_upd k v e) k = v.
Proof. apply obj_get_set_eq. Qed.

(** Every key mapped to [null]. *)
Definition all_null (e : obj) : obj := map (fun kv => (kv.1, JNull)) e.

Lemma strict_eq_null v : strict_eq v JNull = true <-> v = JNull.
Proof. destruct v; simpl; naive_solver. Qed.

Lemma obj_keys_all_null e : obj_keys (all_null e) = obj_keys e.
Proof. unfold obj_keys, all_null. by rewrite map_map. Qed.

Lemma obj_wf_all_null e : obj_wf e -> obj_wf (all_null e).
Proof. unfold obj_wf. by rewrite obj_keys_all_null. Qed.

Lemma setError_upd_wf k v e : obj_wf e -> setError_upd k v e = obj_set e k v.
Proof. intros H. unfold setError_upd. by rewrite obj_spread_copy. Qed.

(** Setting every key of a well-formed object to [null], in key order,
    from a prefix already nulled. *)
Lemma fold_null_app (pre post : obj) :
  obj_wf (pre ++ post) ->
  fold_left (fun acc curr => obj_set (obj_spread [] acc) curr JNull)
    (obj_keys post) (all_null pre ++ post) = all_null (pre ++ post).
Proof.
  revert pre. induction post as [|[k v] post IH]; intros pre Hwf.
  - by rewrite !app_nil_r.
  - assert (Hk : forall pre' post', obj_keys (all_null pre' ++ post') = obj_keys (pre' ++ post')).
    { intros pre' post'. unfold obj_keys, all_null. by rewrite !map_app, map_map. }
    simpl. rewrite obj_spread_copy by (unfold obj_wf in *; by rewrite Hk).
    assert (obj_set (all_null pre ++ (k, v) :: post) k JNull
            = all_null (pre ++ [(k, v)]) ++ post) as ->.
    { rewrite obj_set_in by (unfold obj_keys; rewrite map_app; simpl; set_solver).
      destruct Hwf as [Hwf _]. unfold obj_keys in Hwf. rewrite map_app, list.NoDup_app in Hwf.
      destruct Hwf as (_ & Hdis & _). unfold all_null. rewrite map_app.
      simpl. rewrite <- app_assoc. simpl.
      induction pre as [|[k1 v1] pre IHp]; simpl; [by rewrite decide_True|].
      rewrite decide_False.
      - f_equal. apply IHp. intros x Hx1 Hx2. apply (Hdis x); [by right|done].
      - intros ->. apply (Hdis k1); [by left|by left]. }
    rewrite IH.
    + by rewrite <- app_assoc.
    + by rewrite <- app_assoc.
Qed.

(** The memoised default error map is the default values with every
    value replaced by [null]. *)
Lemma defaultFormErrors_all_null d : obj_wf d -> defaultFormErrors d = all_null d.
Proof. intros H. apply (fold_null_app [] d). exact H. Qed.

Lemma hasErrors_false_iff e :
  hasErrors e = false <-> forall k, k ∈ obj_keys e -> obj_get e k = JNull.
Proof.
  unfold hasErrors, obj_some. rewrite <- not_true_iff_false, existsb_exists.
  setoid_rewrite <- strict_eq_null. setoid_rewrite list_elem_of_In.
  split.
  - intros H k Hk. destruct (strict_eq (obj_get e k) JNull) eqn:E; [done|].
    exfalso. apply H. exists k. by rewrite E.
  - intros H [k [Hk Hn]]. rewrite H in Hn by done. done.
Qed.

Lemma obj_get_all_null e k : k ∈ obj_keys e -> obj_get (all_null e) k = JNull.
Proof.
  induction e as [|[k' v'] e IH]; simpl; [by rewrite elem_of_nil|].
  rewrite elem_of_cons. unfold obj_get. simpl. case_decide; [done|].
  intros [->|Hk]; [done|]. by apply IH.
Qed.

Lemma hasErrors_all_null e : hasErrors (all_null e) = false.
Proof.
  apply hasErrors_false_iff. intros k Hk. rewrite obj_keys_all_null in Hk.
  by apply obj_get_all_null.
Qed.

(** Nulling every key of a well-formed error map in key order (the loop
    of [clearAllErrors]) leaves no error. *)
Lemma hasErrors_clear e :
  obj_wf e ->
  hasErrors (fold_left (fun acc k => setError_upd k JNull acc) (obj_keys e) e) = false.
Proof.
  intros Hwf. apply hasErrors_false_iff. intros k Hk.
  unfold setError_upd. rewrite (obj_get_fold_spread_set _ (fun _ => JNull)) by done.
  case_decide as Hin; [done|]. exfalso.
  assert (Hsub : forall ks o, obj_wf o -> k ∈ obj_keys (fold_left (fun acc k' =>
            obj_set (obj_spread [] acc) k' JNull) ks o) -> k ∈ ks \/ k ∈ obj_keys o).
  { induction ks as [|k' ks IH]; intros o Ho Hko; simpl in *; [by right|].
    rewrite obj_spread_copy in Hko by done.
    destruct (IH _ (obj_wf_set _ _ _ Ho) Hko) as [H|H]; [left; by right|].
    apply obj_keys_set_elem in H as [->|H]; [left; by left|by right]. }
  destruct (Hsub (obj_keys e) e Hwf Hk); by apply Hin.
Qed.

(** Clearing one error keeps a form without errors without errors. *)
Lemma hasErrors_setError_null k e :
  obj_wf e -> hasErrors e = false -> hasErrors (setError_upd k JNull e) = false.
Proof.
  intros Hwf He. apply hasErrors_false_iff. intros k' Hk.
  rewrite setError_upd_wf in * by done.
  apply obj_keys_set_elem in Hk as [->|Hk]; [by rewrite obj_get_set_eq|].
  destruct (decide (k = k')) as [->|Hne]; [by rewrite obj_get_set_eq|].
  rewrite obj_get_set_ne by done. by apply hasErrors_false_iff.
Qed.

(** Writing errors for keys the map already has keeps its key list. *)
Lemma obj_keys_fold_setError ks (f : string -> jsval) e :
  obj_wf e -> (forall k, k ∈ ks -> k ∈ obj_keys e) ->
  obj_keys (fold_left (fun acc k => setError_upd k (f k) acc) ks e) = obj_keys e.
Proof.
  revert e. induction ks as [|k ks IH]; intros e Hwf Hin; [done|]. simpl.
  rewrite setError_upd_wf by done.
  assert (Hk : obj_keys (obj_set e k (f k)) = obj_keys e) by (apply obj_keys_set_in; set_solver).
  rewrite IH; [done| |]; [auto with form|]. intros k' Hk'. rewrite Hk. set_solver.
Qed.

(** A non-[null] error makes [hasErrors] true. *)
Lemma hasErrors_setError k v e :
  obj_wf e -> strict_eq v JNull = false -> hasErrors (setError_upd k v e) = true.
Proof.
  intros Hwf Hv. unfold hasErrors, obj_some. apply existsb_exists. exists k. split.
  - apply list_elem_of_In. rewrite setError_upd_wf by done. apply obj_keys_set_elem. by left.
  - by rewrite obj_get_setError_upd, Hv.
Qed.

(** [apply_errors] writes exactly the keys of [m], each with [m]'s
    first binding. *)
Lemma obj_lookup_fold_setError ks (f : string -> jsval) e k :
  obj_wf e ->
  obj_lookup (fold_left (fun acc k => setError_upd k (f k) acc) ks e) k
  = if decide (k ∈ ks) then Some (f k) else obj_lookup e k.
Proof.
  revert e. induction ks as [|k' ks IH] using rev_ind; intros e He.
  - cbn [fold_left]. case_decide; [set_solver|done].
  - rewrite fold_left_app. simpl. rewrite setError_upd_wf.
    2:{ clear IH. revert e He. induction ks as [|k2 ks IH2]; intros e He; [done|].
        simpl. apply IH2. rewrite setError_upd_wf by done. auto with form. }
    destruct (decide (k' = k)) as [->|Hne].
    + rewrite obj_lookup_set_eq. rewrite decide_True; [done|]. set_solver.
    + rewrite obj_lookup_set_ne by done. rewrite IH by done.
      repeat case_decide; set_solver.
Qed.

Lemma obj_lookup_keys o k : k ∈ obj_keys o -> obj_lookup o k = Some (obj_get o k).
Proof.
  induction o as [|[k' v] o IH]; simpl; [set_solver|].
  intros Hk. unfold obj_get. simpl. case_decide; [done|].
  fold (obj_get o k). apply IH. set_solver.
Qed.

Lemma obj_lookup_apply_errors m e k :
  obj_wf e ->
  obj_lookup (apply_errors m e) k = if decide (k ∈ obj_keys m) then obj_lookup m k else obj_lookup e k.
Proof.
  intros He. unfold apply_errors. rewrite obj_lookup_fold_setError by done.
  case_decide as Hk; [|done]. by rewrite obj_lookup_keys.
Qed.

Lemma obj_get_apply_errors m e k :
  obj_wf e ->
  obj_get (apply_errors m e) k = if decide (k ∈ obj_keys m) then obj_get m k else obj_get e k.
Proof.
  intros He. unfold obj_get at 1. rewrite obj_lookup_apply_errors by done.
  by case_decide.
Qed.

End ErrorStore.

Module Dirty.

(** One field differs from its default: [formValues[field] !==
    defaultValues[field]]. *)
Definition field_differs (formValues defaultValues : obj) (field : string) : bool :=
  negb (strict_eq (obj_get formValues field) (obj_get defaultValues field)).

(** [isDirty] (lines 143-145): every field differs. *)
Definition isDirty (formValues defaultValues : obj) : bool :=
  obj_every formValues (field_differs formValues defaultValues).

(** [isSemiDirty] (lines 147-149): some field differs. *)
Definition isSemiDirty (formValues defaultValues : obj) : bool :=
  obj_some formValues (field_differs formValues defaultValues).

Lemma isDirty_iff v d :
  isDirty v d = true <-> forall k, k ∈ obj_keys v -> field_differs v d k = true.
Proof.
  unfold isDirty, obj_every. rewrite forallb_forall.
  by setoid_rewrite list_elem_of_In.
Qed.

Lemma isSemiDirty_iff v d :
  isSemiDirty v d = true <-> exists k, k ∈ obj_keys v /\ field_differs v d k = true.
Proof.
  unfold isSemiDirty, obj_some. rewrite existsb_exists.
  by setoid_rewrite list_elem_of_In.
Qed.

(** A duplicate-free key list whose every key is [k], and which holds
    [k], is [[k]]. *)
Lemma NoDup_all_eq (l : list string) k :
  NoDup l -> (forall x, x ∈ l -> x = k) -> k ∈ l -> l = [k].
Proof.
  intros Hnd Hall Hk. destruct l as [|x l]; [set_solver|].
  rewrite (Hall x) in * by set_solver. apply list.NoDup_cons in Hnd as [Hnk _].
  destruct l as [|y l]; [done|]. exfalso. apply Hnk. rewrite <- (Hall y) by set_solver. set_solver.
Qed.

(** C23: The dirty laws of spec 8, for any defaults without [NaN]: after one
    field [k] is changed to a value not [===] to its default, the form is
    semi-dirty, and it is dirty exactly when [k] is its only field. *)
Theorem dirty_after_change d k v :
  obj_wf d -> (forall k', k' ∈ obj_keys d -> self_equal (obj_get d k') = true) ->
  k ∈ obj_keys d -> strict_eq v (obj_get d k) = false ->
  isSemiDirty (ValueStore.setForm_upd k v d) d = true /\
  (isDirty (ValueStore.setForm_upd k v d) d = true <-> obj_keys d = [k]).
Proof.
  intros Hwf Hself Hk Hv. rewrite ValueStore.setForm_upd_wf by done.
  split.
  - apply isSemiDirty_iff. exists k. rewrite obj_keys_set_in by done.
    unfold field_differs. autorewrite with form_rw. by rewrite Hv.
  - rewrite isDirty_iff, obj_keys_set_in by done. unfold field_differs. split.
    + intros Hall. apply NoDup_all_eq; [apply Hwf| |done]. intros k' Hk'.
      destruct (decide (k' = k)) as [|Hne]; [done|]. exfalso.
      specialize (Hall k' Hk'). rewrite obj_get_set_ne in Hall by done.
      unfold self_equal in Hself. by rewrite Hself in Hall.
    + intros Hks k' Hk'. rewrite Hks in Hk'. apply list_elem_of_singleton in Hk' as ->.
      autorewrite with form_rw. by rewrite Hv.
Qed.

(** The laws of spec 8: defaults [{a: 1, b: 2}], [a] changed to 9. *)
Lemma dirty_after_change_witness :
  let d := [("a", JNumber (num 1)); ("b", JNumber (num 2))] in
  isSemiDirty (ValueStore.setForm_upd "a" (JNumber (num 9)) d) d = true /\
  isDirty (ValueStore.setForm_upd "a" (JNumber (num 9)) d) d = false.
Proof.
  cbv zeta. destruct (dirty_after_change [("a", JNumber (num 1)); ("b", JNumber (num 2))] "a"
                         (JNumber (num 9))) as [Hs Hd].
  - unfold obj_wf. concrete.
  - intros k' Hk'. apply list_elem_of_In in Hk'. simpl in Hk'. destruct Hk' as [<-|[<-|[]]]; concrete.
  - concrete.
  - concrete.
  - split; [exact Hs|]. apply not_true_iff_false. rewrite Hd. concrete.
Defined.

End Dirty.
