(* ===== verification/Hooks.v ===== *)
(** * The state of one [useForm] instance and what its caller observes

    - [config]: the argument of [useForm] (lines 84-104, destructured at
      108-123): the default values and which optional hooks are present.
      The two hooks whose results steer control flow, [shouldFormSubmit]
      and [formDidSubmit], are functions of the snapshot they receive to
      the way their result settles ([settle]).
    - [cells]: the four [useState] cells (127, 135-137), with the identity
      of the two object-valued ones.
    - [snapshot]: the data fields of [formSelf] (313-328) that every hook
      receives.
    - [call]: one invocation of a caller hook (or of [console.error],
      [preventDefault], or an unhandled promise rejection), with its
      payload; the trace of calls is what the caller observes.
    - [world]: cells, the ref [formSelfRef] (125), the pending [await]
      continuations of [_onSubmit], the trace, and an allocator of object
      identities.  Every handler is a computation of [FM := St world]. *)

From stdpp Require Import base list strings decidable.
From S2P Require Import Prelude JsValue JsObject Stores.
Import ErrorStore Dirty.

(** How a hook's result settles: a returned value or a promise that
    fulfils with it, a promise that rejects, or a synchronous throw. *)
Inductive settle :=
| Fulfilled (v : jsval)
| Rejected (e : jsval)
| Thrown (e : jsval).

(** The data fields of [formSelf] / [formPrivateSelf]. *)
Record snapshot := mkSnapshot {
  s_formValues : obj;
  s_formErrors : obj;
  s_hasErrors : bool;
  s_isDirty : bool;
  s_isSemiDirty : bool;
  s_submitting : bool
}.

Record config := mkConfig {
  defaultValues : obj;
  fieldOnChange : bool;
  fieldDidChange : bool;
  fieldOnBlur : bool;
  fieldDidRegister : bool;
  formWillMount : bool;
  formDidMount : bool;
  formWillUnmount : bool;
  formOnSubmit : bool;
  submitDidCatch : bool;
  formDidFinally : bool;
  shouldFormSubmit : option (snapshot -> settle);
  formDidSubmit : option (snapshot -> settle)
}.

(** The descriptor a binding factory returns, without its two handlers
    (they are the functions of [Pipeline]). *)
Inductive props :=
| PValue (name : string) (value : jsval)
| PChecked (name : string) (checked : jsval).

Inductive call :=
| CFormWillMount (s : snapshot)
| CFieldDidRegister (fieldName : string) (p : props) (value : jsval) (s : snapshot)
| CFormDidMount (s : snapshot)
| CFieldOnChange (s : snapshot) (fieldName : string) (value : jsval)
| CFieldDidChange (ref : option snapshot) (fieldName : string) (value : jsval)
| CFieldOnBlur (s : snapshot) (fieldName : string) (value : jsval)
| CPreventDefault
| CFormOnSubmit (s : snapshot)
| CShouldFormSubmit (s : snapshot)
| CFormDidSubmit (s : snapshot)
| CSubmitDidCatch (s : snapshot) (catchError : jsval)
| CConsoleError (e : jsval)
| CFormDidFinally (s : snapshot)
| CFormWillUnmount (s : snapshot)
| CUnhandledRejection (e : jsval).

(** The [useState] cells.  [fieldChanged] is [null] ([None]) or a key. *)
Record cells := mkCells {
  formValues : obj;
  values_id : nat;
  formErrors : obj;
  errors_id : nat;
  submitting : bool;
  fieldChanged : option string
}.

(** A suspended [_onSubmit]: the render whose closure it runs in, and how
    the awaited promise settles. *)
Inductive task :=
| TGate (r : cells) (o : settle)
| TSubmit (r : cells) (o : settle).

Record world := mkWorld {
  w_cells : cells;
  w_ref : option snapshot;
  w_tasks : list task;
  w_trace : list call;
  w_next : nat;
  w_mounted : bool
}.

Definition FM := St world.

Section Hooks.
Context (cfg : config).

(** The render in which the hook is first called: [useState] initial
    values; identity 0 is the [defaultValues] object and the memoised
    [defaultFormErrors].  The caller is assumed to pass the same
    [defaultValues] object on every render (see the header), so both
    keep identity 0 for the form's lifetime. *)
Definition cells0 : cells :=
  mkCells (defaultValues cfg) 0 (defaultFormErrors (defaultValues cfg)) 0 false None.

(** [formSelf]'s data in render [r]. *)
Definition snapshot_of (r : cells) : snapshot :=
  mkSnapshot (formValues r) (formErrors r) (hasErrors (formErrors r))
    (isDirty (formValues r) (defaultValues cfg))
    (isSemiDirty (formValues r) (defaultValues cfg)) (submitting r).
End Hooks.

(** [{ ...formSelf, submitting: true }] *)
Definition with_submitting (s : snapshot) (b : bool) : snapshot :=
  mkSnapshot (s_formValues s) (s_formErrors s) (s_hasErrors s) (s_isDirty s)
    (s_isSemiDirty s) b.

(** ** World updates *)

Definition set_cells (c : cells) (w : world) : world :=
  mkWorld c (w_ref w) (w_tasks w) (w_trace w) (w_next w) (w_mounted w).
Definition set_ref (s : option snapshot) (w : world) : world :=
  mkWorld (w_cells w) s (w_tasks w) (w_trace w) (w_next w) (w_mounted w).
Definition set_tasks (ts : list task) (w : world) : world :=
  mkWorld (w_cells w) (w_ref w) ts (w_trace w) (w_next w) (w_mounted w).
Definition set_trace (tr : list call) (w : world) : world :=
  mkWorld (w_cells w) (w_ref w) (w_tasks w) tr (w_next w) (w_mounted w).
Definition set_next (n : nat) (w : world) : world :=
  mkWorld (w_cells w) (w_ref w) (w_tasks w) (w_trace w) n (w_mounted w).
Definition set_mounted (b : bool) (w : world) : world :=
  mkWorld (w_cells w) (w_ref w) (w_tasks w) (w_trace w) (w_next w) b.

(** ** Primitive effects of the handlers *)

(** A hook (or [console.error], ...) is called. *)
Definition emit (c : call) : FM unit :=
  st_modify (fun w => set_trace (w_trace w ++ [c]) w).

(** An [await] suspends [_onSubmit]. *)
Definition spawn (t : task) : FM unit :=
  st_modify (fun w => set_tasks (w_tasks w ++ [t]) w).

Definition modify_cells (f : cells -> cells) : FM unit :=
  st_modify (fun w => set_cells (f (w_cells w)) w).

(** A fresh object identity. *)
Definition fresh_id : FM nat :=
  w <- st_get ;;
  st_modify (set_next (S (w_next w))) ;;
  st_ret (w_next w).

(** [setFormState(f)] with a functional updater: a new object. *)
Definition update_values (f : obj -> obj) : FM unit :=
  i <- fresh_id ;;
  modify_cells (fun c => mkCells (f (formValues c)) i (formErrors c) (errors_id c)
                           (submitting c) (fieldChanged c)).

(** [setFormState(o)] with an existing object of identity [i]. *)
Definition replace_values (o : obj) (i : nat) : FM unit :=
  modify_cells (fun c => mkCells o i (formErrors c) (errors_id c) (submitting c) (fieldChanged c)).

Definition update_errors (f : obj -> obj) : FM unit :=
  i <- fresh_id ;;
  modify_cells (fun c => mkCells (formValues c) (values_id c) (f (formErrors c)) i
                           (submitting c) (fieldChanged c)).

Definition replace_errors (o : obj) (i : nat) : FM unit :=
  modify_cells (fun c => mkCells (formValues c) (values_id c) o i (submitting c) (fieldChanged c)).

(** [setSubmitting(b)] *)
Definition set_submitting (b : bool) : FM unit :=
  modify_cells (fun c => mkCells (formValues c) (values_id c) (formErrors c) (errors_id c)
                           b (fieldChanged c)).

(** [setFieldChanged(k)] *)
Definition set_fieldChanged (fc : option string) : FM unit :=
  modify_cells (fun c => mkCells (formValues c) (values_id c) (formErrors c) (errors_id c)
                           (submitting c) fc).

(** A conditional hook call [hook?.(payload)]. *)
Definition emit_if (present : bool) (c : call) : FM unit :=
  if present then emit c else st_ret tt.

(** ** Equality of cells, as React compares state ([Object.is] per cell,
    identity for the two objects). *)
Definition cells_same (a b : cells) : bool :=
  bool_decide (values_id a = values_id b) && bool_decide (errors_id a = errors_id b)
  && Bool.eqb (submitting a) (submitting b)
  && bool_decide (fieldChanged a = fieldChanged b).

Lemma cells_same_refl c : cells_same c c = true.
Proof.
  unfold cells_same. rewrite !bool_decide_eq_true_2 by done.
  by destruct (submitting c).
Qed.

(** The calls a handler appends to the trace. *)
Definition calls_of (m : FM unit) (w : world) : list call :=
  drop (length (w_trace w)) (w_trace (exec m w)).
