(* ===== verification/Pipeline.v ===== *)
(** * Change pipeline, binding factories and the store handlers (spec 4.4, 4.5)

    Every handler is a closure over the render [r : cells] it was created
    in, as in the source: [_changeValue] (lines 345-351) and its default
    reducer [onFieldChangingDefault] (299-303), the three binding
    factories and their [onChange] / [onBlur] handlers (203-291),
    [setFormField] (295-297) and [setAllFields] (305-309), which are
    [useCallback(..., [])] and therefore always close over the first
    render [cells0], and the Error Store handlers [setError],
    [setAllErrors], [clearAllErrors] (158-176) and [resetForm] (185-189).
    Handlers enqueue updates on [w_cells]; [Lifecycle] commits them. *)

From stdpp Require Import base list strings decidable sets.
From S2P Require Import Prelude JsValue JsObject Stores Hooks.
Import ValueStore ErrorStore.

(** An argument that may be omitted or [null]: [setAllFields(args?)] and
    [setAllErrors(errors)]. *)
Inductive jsarg :=
| AUndefined
| ANull
| AObj (o : obj).

Section Pipeline.
Context (cfg : config).

(** [onFieldChangingDefault] (lines 299-303): the default reducer. *)
Definition onFieldChangingDefault (fieldName : string) (value : jsval) : FM unit :=
  update_values (setForm_upd fieldName value) ;;
  update_errors (setError_upd fieldName JNull) ;;
  set_fieldChanged (Some fieldName).

(** [_changeValue] (lines 345-351), in the closure of render [r]. *)
Definition _changeValue (r : cells) (fieldName : string) (value : jsval) : FM unit :=
  if fieldOnChange cfg
  then emit (CFieldOnChange (snapshot_of cfg r) fieldName value)
  else onFieldChangingDefault fieldName value.

(** The [onBlur] handler shared by the three factories (lines 205-208,
    220-223, 235-238). *)
Definition binding_onBlur (r : cells) (h : heap) (fieldName : string) (val : jsval) : FM unit :=
  emit_if (fieldOnBlur cfg) (CFieldOnBlur (snapshot_of cfg r) fieldName (event_value h val)).

(** [registerFieldDefault] (lines 203-216): descriptor and [onChange]. *)
Definition registerFieldDefault (r : cells) (fieldName : string) : props :=
  PValue fieldName (obj_get (formValues r) fieldName).

Definition registerFieldDefault_onChange (r : cells) (h : heap) (fieldName : string)
    (val : jsval) : FM unit :=
  _changeValue r fieldName (event_value h val).

(** [registerCheckBoxDefault] (lines 218-231). *)
Definition registerCheckBoxDefault (r : cells) (fieldName : string) : props :=
  PChecked fieldName (obj_get (formValues r) fieldName).

Definition registerCheckBoxDefault_onChange (r : cells) (h : heap) (fieldName : string)
    (val : jsval) : FM unit :=
  _changeValue r fieldName (event_checked h val).

(** [registerRadioDefault] (lines 233-246): [checked] compares with
    [===]; [onChange] ignores its event and pushes the option's value. *)
Definition registerRadioDefault (r : cells) (fieldName : string) (radioValue : jsval) : props :=
  PChecked fieldName (JBool (strict_eq radioValue (obj_get (formValues r) fieldName))).

Definition registerRadioDefault_onChange (r : cells) (fieldName : string) (radioValue : jsval)
    (val : jsval) : FM unit :=
  _changeValue r fieldName radioValue.

(** [registerField] (lines 249-261): the default descriptor. *)
Definition registerField (r : cells) (name : string) : props :=
  registerFieldDefault r name.

(** [registerCheckBoxField] (lines 264-276) and [registerRadioField]
    (279-291): the default checkbox and radio descriptors (the
    [fieldWillRegister] branch is commented out). *)
Definition registerCheckBoxField (r : cells) (name : string) : props :=
  registerCheckBoxDefault r name.

Definition registerRadioField (r : cells) (name : string) (radioValue : jsval) : props :=
  registerRadioDefault r name radioValue.

(** [setFormField] (lines 295-297): a [useCallback] with no
    dependencies, so its [_changeValue] is the first render's. *)
Definition setFormField (fieldName : string) (value : jsval) : FM unit :=
  _changeValue (cells0 cfg) fieldName value.

(** [setAllFields] (lines 305-309): also a [useCallback] with no
    dependencies; the default argument [formValues] is the first
    render's value. *)
Definition setAllFields (args : jsarg) : FM unit :=
  let o := match args with
           | AUndefined => formValues (cells0 cfg)
           | ANull => []
           | AObj o => o
           end in
  for_each (obj_keys o) (fun fieldName => _changeValue (cells0 cfg) fieldName (obj_get o fieldName)).

(** [setError] (lines 158-163). *)
Definition setError (fieldName : string) (value : jsval) : FM unit :=
  update_errors (setError_upd fieldName value).

(** [setAllErrors] (lines 165-170): [if(!errors) return]. *)
Definition setAllErrors (errors : jsarg) : FM unit :=
  match errors with
  | AObj m => for_each (obj_keys m) (fun fieldName => setError fieldName (obj_get m fieldName))
  | _ => st_ret tt
  end.

(** [clearAllErrors] (lines 172-176), over the keys of render [r]. *)
Definition clearAllErrors (r : cells) : FM unit :=
  for_each (obj_keys (formErrors r)) (fun fieldName => setError fieldName JNull).

(** [resetForm] (lines 185-189): the current render's [defaultFormErrors]
    and [defaultValues], which are the objects of identity 0 under the
    stable-defaults assumption of [cells0]. *)
Definition resetForm : FM unit :=
  replace_errors (defaultFormErrors (defaultValues cfg)) 0 ;;
  replace_values (defaultValues cfg) 0 ;;
  set_submitting false.

End Pipeline.
