(* ===== verification/Submission.v ===== *)
(** * Submission state machine (spec 4.6)

    [handleSubmit] (lines 192-201) and the async [_onSubmit] (374-398)
    that the submission effect starts.  [_onSubmit] is cut at its [await]s:
    [_onSubmit] runs up to the first suspension and records the rest as a
    [task]; [resume_task] runs a continuation once the awaited promise has
    settled.  Every continuation keeps the closure of the render in which
    the effect fired, so the snapshots it passes to [formDidSubmit],
    [submitDidCatch] and [formDidFinally] are that render's.  The default
    gate is not awaited (the conditional expression awaits only the
    caller's gate), so without [shouldFormSubmit] the prefix runs through
    to [formDidSubmit] synchronously. *)

From stdpp Require Import base list strings decidable.
From S2P Require Import Prelude JsValue JsObject Stores Hooks Pipeline.
Import ErrorStore.

(** The [TypeError] raised by [await formDidSubmit(formSelf)] when no
    [formDidSubmit] hook is configured. *)
Definition not_a_function_error : jsval :=
  JString "TypeError: formDidSubmit is not a function".

Section Submission.
Context (cfg : config).

(** [catch] and [finally] (lines 387-397); [err] is [None] when the
    [try] block completed. *)
Definition submit_catch_finally (r : cells) (err : option jsval) : FM unit :=
  (match err with
   | Some catchError =>
       if submitDidCatch cfg
       then emit (CSubmitDidCatch (snapshot_of cfg r) catchError)
       else emit (CConsoleError catchError)
   | None => st_ret tt
   end) ;;
  set_submitting false ;;
  emit_if (formDidFinally cfg) (CFormDidFinally (snapshot_of cfg r)).

(** The [try] block (lines 384-386): call [formDidSubmit] and await it. *)
Definition submit_try (r : cells) : FM unit :=
  match formDidSubmit cfg with
  | None => submit_catch_finally r (Some not_a_function_error)
  | Some f =>
      emit (CFormDidSubmit (snapshot_of cfg r)) ;;
      match f (snapshot_of cfg r) with
      | Thrown e => submit_catch_finally r (Some e)
      | o => spawn (TSubmit r o)
      end
  end.

(** Lines 379-398, once the gate's value is known. *)
Definition submit_after_gate (r : cells) (isFormSubmittable : jsval) : FM unit :=
  if negb (truthy isFormSubmittable) then set_submitting false else submit_try r.

(** [shouldFormSubmitDefault] (lines 178-180): [!hasErrors] of the render. *)
Definition shouldFormSubmitDefault (r : cells) : jsval :=
  JBool (negb (hasErrors (formErrors r))).

(** [_onSubmit] up to its first suspension (lines 374-377).  A gate that
    throws makes the async function reject: nothing catches it. *)
Definition _onSubmit (r : cells) : FM unit :=
  match shouldFormSubmit cfg with
  | Some g =>
      emit (CShouldFormSubmit (snapshot_of cfg r)) ;;
      match g (snapshot_of cfg r) with
      | Thrown e => emit (CUnhandledRejection e)
      | o => spawn (TGate r o)
      end
  | None => submit_after_gate r (shouldFormSubmitDefault r)
  end.

(** The continuation of a suspended [_onSubmit]. *)
Definition resume_task (t : task) : FM unit :=
  match t with
  | TGate r (Fulfilled v) => submit_after_gate r v
  | TGate _ (Rejected e) | TGate _ (Thrown e) => emit (CUnhandledRejection e)
  | TSubmit r (Fulfilled _) => submit_catch_finally r None
  | TSubmit r (Rejected e) | TSubmit r (Thrown e) => submit_catch_finally r (Some e)
  end.

(** [handleSubmit] (lines 192-201). *)
Definition handleSubmit (r : cells) : FM unit :=
  emit CPreventDefault ;;
  set_submitting true ;;
  if formOnSubmit cfg
  then emit (CFormOnSubmit (with_submitting (snapshot_of cfg r) true))
  else clearAllErrors r.

End Submission.
