(* ===== verification/Api.v ===== *)
(** * The typed surface of the hook (lines 5-45, 47-64, 313-328, 405-411)

    The type declarations at the top of the source, with [T]'s fields as
    string keys and [T[keyof T]] as [jsval] (the file is [@ts-nocheck],
    so [keyof T] constrains nothing at run time; [Keys] states the key
    set as an invariant instead).  A function type [(...) => void]
    becomes a handler of the model, [FM unit], and a closure that reads
    a render takes that render explicitly.  [FormOps] is the record of
    operations of [FormSelf<T>] and [form_api] the one the hook returns
    from a render: its fields are the handlers of [Pipeline] and
    [Submission]. *)

From stdpp Require Import base list strings decidable.
From S2P Require Import Prelude JsValue JsObject Stores Hooks Pipeline Submission.

Module Api.

(** [Field<T>] (lines 42-45). *)
Record Field := mkField { fieldName : string; value : jsval }.

(** [FieldRegister<T>] (lines 38-40): a field with its binding props. *)
Record FieldRegister := mkFieldRegister { fr_props : props; fr_field : Field }.

(** The function types of lines 5-11. *)
Definition SetErrorFunction : Type := string -> jsval -> FM unit.
Definition SetFormFunction : Type := string -> jsval -> FM unit.
Definition SetAllFieldsFn : Type := jsarg -> FM unit.
Definition SetAllErrorsFn : Type := jsarg -> FM unit.
(** Declared [=> void], the default gate returns [!hasErrors]. *)
Definition ShouldFormSubmitDefault : Type := cells -> jsval.
Definition ResetForm : Type := FM unit.
Definition ClearAllErrorsFn : Type := FM unit.

(** The function types of lines 28-32. *)
Definition InternalChangeValueFn : Type := Field -> FM unit.
Definition SetFormField : Type := Field -> FM unit.
Definition RegisterFieldDefaultFn : Type := string -> props.
Definition RegisterCheckBoxDefaultFn : Type := string -> props.
Definition RegisterRadioDefaultFn : Type := string -> jsval -> props.

(** The operations of [FormSelf<T>] (lines 47-64) and of the object the
    hook returns (lines 405-411); [handleSubmit] ignores its event but
    for [preventDefault]. *)
Record FormOps := mkFormOps {
  setAllFields : SetAllFieldsFn;
  clearAllErrors : ClearAllErrorsFn;
  setAllErrors : SetAllErrorsFn;
  registerField : RegisterFieldDefaultFn;
  registerCheckBoxField : RegisterCheckBoxDefaultFn;
  registerRadioField : RegisterRadioDefaultFn;
  handleSubmit : FM unit;
  setFormField : SetFormField;
  resetForm : ResetForm;
  setError : SetErrorFunction
}.

(** [setForm] (lines 151-156): the functional update of the values. *)
Definition setForm : SetFormFunction := fun fieldName value =>
  update_values (ValueStore.setForm_upd fieldName value).

Section Surface.
Context (cfg : config).

(** [_changeValue] at its declared type, for the render [r]. *)
Definition changeValue_fn (r : cells) : InternalChangeValueFn := fun args =>
  _changeValue cfg r (fieldName args) (value args).

(** [shouldFormSubmitDefault] at its declared type. *)
Definition shouldFormSubmitDefault_fn : ShouldFormSubmitDefault := shouldFormSubmitDefault.

(** The API of render [r]: the [formSelf] literal (lines 313-328) and
    the three registration functions spread beside it (405-411). *)
Definition form_api (r : cells) : FormOps := {|
  setAllFields := Pipeline.setAllFields cfg;
  clearAllErrors := Pipeline.clearAllErrors r;
  setAllErrors := Pipeline.setAllErrors;
  registerField := Pipeline.registerField r;
  registerCheckBoxField := Pipeline.registerCheckBoxField r;
  registerRadioField := Pipeline.registerRadioField r;
  handleSubmit := Submission.handleSubmit cfg r;
  setFormField := fun args => Pipeline.setFormField cfg (fieldName args) (value args);
  resetForm := Pipeline.resetForm cfg;
  setError := Pipeline.setError
|}.

End Surface.
End Api.
