(* ===== verification/Lifecycle.v ===== *)
(** * React runtime, effects and lifecycle (spec 4.5 deferred notification, 4.7)

    What the hook relies on from React, modelled as it behaves:
    - a render happens when a committed cell differs from the last
      render ([cells_same]); each render calls [formWillMount] (line 335,
      in the body of the hook, not in an effect);
    - after a render the three effects run in declaration order, each
      when its dependency array changed ([Object.is] per entry), all
      three at mount: the "did change" effect (338-343), the mount effect
      (356-371, dependencies [[]]) and the submission effect (400-404);
    - updates enqueued by effects cause another render; [flush] repeats
      this with fuel [commit_fuel];
    - the cleanup of the mount effect runs [formWillUnmount] in the mount
      render's closure.
    The form is then a transition system: external events (a binding's
    handler or an API call, run in the latest render's closure and
    followed by [flush]), the resumption of any suspended [_onSubmit]
    (promises settle in any order), and unmount. *)

From stdpp Require Import base list strings decidable.
From S2P Require Import Prelude JsValue JsObject Stores Hooks Pipeline Submission.
Import ErrorStore.

(** [formValues[fieldChanged]] with [fieldChanged = null] reads key "null". *)
Definition fc_key (fc : option string) : string :=
  match fc with Some k => k | None => "null" end.

(** Rounds of render-and-effects after one task.  Three always suffice
    ([flush_fuel_enough] below); the fuel is kept larger. *)
Definition commit_fuel : nat := 4.

Section Lifecycle.
Context (cfg : config).

(** The "did change" effect body (lines 339-342): [if(fieldChanged)]
    is a truthiness test, and the payload spreads the ref last. *)
Definition effect_fieldDidChange (r : cells) : FM unit :=
  match fieldChanged r with
  | Some k =>
      if bool_decide (k ≠ "") then
        w <- st_get ;;
        emit_if (fieldDidChange cfg) (CFieldDidChange (w_ref w) k (obj_get (formValues r) k)) ;;
        set_fieldChanged None
      else st_ret tt
  | None => st_ret tt
  end.

(** Its dependency array [[fieldChanged, formValues[fieldChanged]]]. *)
Definition deps_fieldDidChange_same (a b : cells) : bool :=
  bool_decide (fieldChanged a = fieldChanged b)
  && same_value (obj_get (formValues a) (fc_key (fieldChanged a)))
                (obj_get (formValues b) (fc_key (fieldChanged b))).

(** The mount effect (lines 357-366) in the first render [r]. *)
Definition effect_mount (r : cells) : FM unit :=
  st_modify (set_ref (Some (snapshot_of cfg r))) ;;
  (if fieldDidRegister cfg
   then for_each (obj_keys (formValues r)) (fun fieldName =>
          emit (CFieldDidRegister fieldName (registerField r fieldName)
                  (obj_get (formValues r) fieldName) (snapshot_of cfg r)))
   else st_ret tt) ;;
  emit_if (formDidMount cfg) (CFormDidMount (snapshot_of cfg r)).

(** The submission effect (lines 400-404). *)
Definition effect_submit (r : cells) : FM unit :=
  if submitting r then _onSubmit cfg r else st_ret tt.

(** Its dependency array [[submitting, formErrors]]. *)
Definition deps_submit_same (a b : cells) : bool :=
  Bool.eqb (submitting a) (submitting b) && bool_decide (errors_id a = errors_id b).

(** One render of the committed cells and its effects; [prev] is the
    previous render ([None] at mount). *)
Definition render_commit (prev : option cells) : FM unit :=
  w <- st_get ;;
  let r := w_cells w in
  emit_if (formWillMount cfg) (CFormWillMount (snapshot_of cfg r)) ;;
  (match prev with
   | Some p => if deps_fieldDidChange_same p r then st_ret tt else effect_fieldDidChange r
   | None => effect_fieldDidChange r
   end) ;;
  (match prev with None => effect_mount r | Some _ => st_ret tt end) ;;
  (match prev with
   | Some p => if deps_submit_same p r then st_ret tt else effect_submit r
   | None => effect_submit r
   end).

(** Render again while the committed state differs from the last render. *)
Fixpoint flush (fuel : nat) (prev : cells) : FM unit :=
  match fuel with
  | 0 => st_ret tt
  | S n =>
      w <- st_get ;;
      if cells_same prev (w_cells w) then st_ret tt
      else render_commit (Some prev) ;; flush n (w_cells w)
  end.

Definition world0 : world := mkWorld (cells0 cfg) None [] [] 1 false.

(** The first render, its effects and the renders they cause. *)
Definition mount : FM unit :=
  render_commit None ;;
  st_modify (set_mounted true) ;;
  flush commit_fuel (cells0 cfg).

(** The cleanup of the mount effect (lines 368-370): the mount render's
    [formSelf]. *)
Definition unmount : FM unit :=
  emit_if (formWillUnmount cfg) (CFormWillUnmount (snapshot_of cfg (cells0 cfg))) ;;
  st_modify (set_mounted false).

(** A handler run in the closure of the latest render, then committed. *)
Definition run_handler (h : cells -> FM unit) : FM unit :=
  w <- st_get ;;
  let r := w_cells w in
  h r ;;
  flush commit_fuel r.

(** Resuming the [i]-th suspended [_onSubmit]; after unmount its state
    updates are dropped. *)
Definition resume (i : nat) : FM unit :=
  w <- st_get ;;
  match w_tasks w !! i with
  | Some t =>
      st_modify (set_tasks (delete i (w_tasks w))) ;;
      resume_task cfg t ;;
      if w_mounted w then flush commit_fuel (w_cells w)
      else st_modify (set_cells (w_cells w))
  | None => st_ret tt
  end.
End Lifecycle.

(** What the caller or the UI can do with a mounted form. *)
Inductive event :=
| EvFieldChange (fieldName : string) (h : heap) (val : jsval)
| EvCheckBoxChange (fieldName : string) (h : heap) (val : jsval)
| EvRadioChange (fieldName : string) (radioValue : jsval) (val : jsval)
| EvBlur (fieldName : string) (h : heap) (val : jsval)
| EvSetFormField (fieldName : string) (value : jsval)
| EvSetAllFields (args : jsarg)
| EvSetError (fieldName : string) (value : jsval)
| EvSetAllErrors (errors : jsarg)
| EvClearAllErrors
| EvResetForm
| EvSubmit.

Section Steps.
Context (cfg : config).

Definition handler (e : event) (r : cells) : FM unit :=
  match e with
  | EvFieldChange k h v => registerFieldDefault_onChange cfg r h k v
  | EvCheckBoxChange k h v => registerCheckBoxDefault_onChange cfg r h k v
  | EvRadioChange k rv v => registerRadioDefault_onChange cfg r k rv v
  | EvBlur k h v => binding_onBlur cfg r h k v
  | EvSetFormField k v => setFormField cfg k v
  | EvSetAllFields a => setAllFields cfg a
  | EvSetError k v => setError k v
  | EvSetAllErrors a => setAllErrors a
  | EvClearAllErrors => clearAllErrors r
  | EvResetForm => resetForm cfg
  | EvSubmit => handleSubmit cfg r
  end.

Definition run_event (e : event) : FM unit := run_handler cfg (handler e).

Inductive step : world -> world -> Prop :=
| step_event e w :
    w_mounted w = true -> step w (exec (run_event e) w)
| step_resume i t w :
    w_tasks w !! i = Some t -> step w (exec (resume cfg i) w)
| step_unmount w :
    w_mounted w = true -> step w (exec (unmount cfg) w).

Inductive star : world -> world -> Prop :=
| star_refl w : star w w
| star_step w1 w2 w3 : step w1 w2 -> star w2 w3 -> star w1 w3.

Definition initial : world := exec (mount cfg) (world0 cfg).

Definition reachable (w : world) : Prop := star initial w.
End Steps.

(** ** Effects only clear: the commit loop needs at most three rounds *)

(** [c'] is [c] where the effects may have reset [fieldChanged] to [null]
    and [submitting] to [false]; nothing else of the cells changes. *)
Definition cleared (c c' : cells) : Prop :=
  formValues c' = formValues c /\ values_id c' = values_id c /\
  formErrors c' = formErrors c /\ errors_id c' = errors_id c /\
  (submitting c' = submitting c \/ submitting c' = false) /\
  (fieldChanged c' = fieldChanged c \/ fieldChanged c' = None).

Lemma cleared_refl c : cleared c c.
Proof. unfold cleared. naive_solver. Qed.

(** The calls of one render: [formWillMount] runs in every render. *)
Definition render_calls (cfg : config) (c : cells) : list call :=
  if formWillMount cfg then [CFormWillMount (snapshot_of cfg c)] else [].

(** The calls a caller registers hooks for, without the per-render
    [formWillMount] calls. *)
Definition is_render_call (c : call) : bool :=
  match c with CFormWillMount _ => true | _ => false end.
Definition hook_calls (l : list call) : list call :=
  List.filter (fun c => negb (is_render_call c)) l.

Lemma hook_calls_app l1 l2 : hook_calls (l1 ++ l2) = hook_calls l1 ++ hook_calls l2.
Proof. apply filter_app. Qed.

Lemma hook_calls_render cfg c : hook_calls (render_calls cfg c) = [].
Proof. unfold render_calls. by destruct (formWillMount cfg). Qed.

(** Closes the [st_modify] obligations of a [cleared] preservation goal. *)
Ltac cleared_closer :=
  intros [[] ? ? ? ? ?] H; unfold cleared in *; simpl in *; naive_solver.

Section Flush.
Context (cfg : config).

Lemma render_commit_cleared c0 p :
  preserves (fun w => cleared c0 (w_cells w)) (render_commit cfg (Some p)).
Proof. preserve_with cleared_closer. Qed.

Lemma flush_cleared c0 n p :
  preserves (fun w => cleared c0 (w_cells w)) (flush cfg n p).
Proof.
  revert p. induction n as [|n IH]; intros p; simpl; [apply preserves_ret|].
  preserve_with cleared_closer. all: first [apply render_commit_cleared | apply IH].
Qed.

(** A render whose previous render differs from it only by clearing
    runs no effect that changes anything: it only calls
    [formWillMount]. *)
Lemma render_commit_stable p w :
  cleared p (w_cells w) ->
  exec (render_commit cfg (Some p)) w
  = set_trace (w_trace w ++ render_calls cfg (w_cells w)) w.
Proof.
  destruct w as [c ref ts tr nx mo]. simpl.
  intros (Hv & Hvi & He & Hei & Hs & Hf).
  unfold render_commit, render_calls, exec, st_bind, st_get; simpl.
  assert (Hfc : (if deps_fieldDidChange_same p c then st_ret tt
                 else effect_fieldDidChange cfg c) = st_ret tt).
  { destruct Hf as [Hf|Hf].
    - unfold deps_fieldDidChange_same. rewrite Hf, Hv, bool_decide_eq_true_2 by done.
      by autorewrite with form_rw.
    - unfold effect_fieldDidChange. rewrite Hf. by destruct (deps_fieldDidChange_same p c). }
  assert (Hsb : (if deps_submit_same p c then st_ret tt else effect_submit cfg c) = st_ret tt).
  { destruct Hs as [Hs|Hs].
    - unfold deps_submit_same. rewrite Hs, Hei, bool_decide_eq_true_2 by done.
      by rewrite Bool.eqb_reflx.
    - unfold effect_submit. rewrite Hs. by destruct (deps_submit_same p c). }
  rewrite Hfc, Hsb. unfold emit_if, emit, st_modify, st_ret.
  destruct (formWillMount cfg); simpl; by rewrite ?app_nil_r.
Qed.

Lemma flush_same n p w :
  cells_same p (w_cells w) = true -> exec (flush cfg (S n) p) w = w.
Proof. intros H. unfold exec. cbn [flush]. unfold st_bind, st_get. by rewrite H. Qed.

Lemma flush_round n p w :
  cells_same p (w_cells w) = false ->
  exec (flush cfg (S n) p) w = exec (flush cfg n (w_cells w)) (exec (render_commit cfg (Some p)) w).
Proof.
  intros H. cbn [flush]. unfold exec, st_bind, st_get. cbv beta iota. rewrite H.
  by destruct (render_commit cfg (Some p) w).
Qed.

Lemma render_commit_cleared_exec p w :
  cleared (w_cells w) (w_cells (exec (render_commit cfg (Some p)) w)).
Proof. apply render_commit_cleared, cleared_refl. Qed.

(** After a render, the commit loop does at most one more render, and
    that one changes nothing but the trace. *)
Lemma flush_result n p w :
  cells_same p (w_cells w) = false ->
  let w1 := exec (render_commit cfg (Some p)) w in
  exec (flush cfg (S (S n)) p) w
  = if cells_same (w_cells w) (w_cells w1) then w1
    else set_trace (w_trace w1 ++ render_calls cfg (w_cells w1)) w1.
Proof.
  intros H w1. rewrite flush_round by done. fold w1.
  destruct (cells_same (w_cells w) (w_cells w1)) eqn:E2; [by apply flush_same|].
  rewrite flush_round by done. rewrite render_commit_stable by apply render_commit_cleared_exec.
  destruct n; [done|]. apply flush_same. apply cells_same_refl.
Qed.

(** C22: Termination of the commit loop: three rounds give the result of any
    larger fuel, so [commit_fuel] is enough. *)
Theorem flush_fuel_enough n p w :
  exec (flush cfg (3 + n) p) w = exec (flush cfg 3 p) w.
Proof.
  change (3 + n) with (S (S (S n))).
  destruct (cells_same p (w_cells w)) eqn:E1.
  - by rewrite !flush_same.
  - by rewrite (flush_result (S n) p w E1), (flush_result 1 p w E1).
Qed.

End Flush.

(** ** Running a handler *)

Lemma exec_run_handler cfg h w :
  exec (run_handler cfg h) w = exec (flush cfg commit_fuel (w_cells w)) (exec (h (w_cells w)) w).
Proof. unfold run_handler, exec, st_bind, st_get. simpl. by destruct (h (w_cells w) w). Qed.

Lemma calls_of_app (m : FM unit) w L :
  w_trace (exec m w) = w_trace w ++ L -> calls_of m w = L.
Proof. unfold calls_of. intros ->. by rewrite drop_app_length. Qed.

Lemma flush_trace_prefix cfg tr n p :
  preserves (fun w => tr `prefix_of` w_trace w) (flush cfg n p).
Proof.
  revert p. induction n as [|n IH]; intros p; simpl; [apply preserves_ret|].
  preserve_with (intros [] H; simpl in *; try done; by apply prefix_app_r).
Qed.

(** The commit loop after a handler changes neither values nor errors. *)
Lemma run_handler_cells cfg h w :
  cleared (w_cells (exec (h (w_cells w)) w)) (w_cells (exec (run_handler cfg h) w)).
Proof. rewrite exec_run_handler. apply flush_cleared, cleared_refl. Qed.
