(* ===== verification/Invariants.v ===== *)
(** * Invariants of the reachable states

    Two facts hold of every state the form can reach from its mount, by
    induction on the steps ([Lifecycle.reachable]):
    - identities: the identity of the committed values and error objects
      was allocated before the allocation counter [w_next], so an object
      built later is never [Object.is]-equal to a committed one;
    - the ref: [formSelfRef.current] is written once, by the mount effect
      (line 358), with the first render's [formSelf], and never again.
    Each is proved as preservation by every handler, effect and commit
    ([Prelude.preserves]). *)

From stdpp Require Import base list strings decidable.
From S2P Require Import Prelude JsValue JsObject Stores Hooks Pipeline Submission Lifecycle.
Import ValueStore ErrorStore.

(** Object identities of the committed cells are below the counter,
    and the counter is at least [n]. *)
Definition fresh_ge (n : nat) (w : world) : Prop :=
  values_id (w_cells w) < w_next w /\ errors_id (w_cells w) < w_next w /\ n <= w_next w.

Definition ref_is (s : option snapshot) (w : world) : Prop := w_ref w = s.

Create HintDb fresh discriminated.
Create HintDb ref discriminated.

Lemma update_values_fresh n f : preserves (fresh_ge n) (update_values f).
Proof. intros [[] ? ? ? ? ?] H. unfold fresh_ge in *. simpl in *. lia. Qed.

Lemma update_errors_fresh n f : preserves (fresh_ge n) (update_errors f).
Proof. intros [[] ? ? ? ? ?] H. unfold fresh_ge in *. simpl in *. lia. Qed.

#[export] Hint Resolve update_values_fresh update_errors_fresh : fresh.

(** The [st_modify] obligations left once the allocations are closed. *)
Ltac fresh_closer := intros [[] ? ? ? ? ?] H; unfold fresh_ge in *; simpl in *; lia.
Ltac ref_closer := intros [[] ? ? ? ? ?] H; unfold ref_is in *; simpl in *; done.

Section Preservation.
Context (cfg : config).

Lemma render_commit_fresh n p : preserves (fresh_ge n) (render_commit cfg (Some p)).
Proof. unfold render_commit. cbn beta iota. preserve_using fresh fresh_closer. Qed.

Lemma flush_fresh n k p : preserves (fresh_ge n) (flush cfg k p).
Proof.
  revert p. induction k as [|k IH]; intros p; simpl; [apply preserves_ret|].
  preserve_using fresh fresh_closer. all: first [apply render_commit_fresh | apply IH].
Qed.

Lemma resume_task_fresh n t : preserves (fresh_ge n) (resume_task cfg t).
Proof. preserve_using fresh fresh_closer. Qed.

#[local] Hint Resolve render_commit_fresh flush_fresh resume_task_fresh : fresh.

Lemma run_event_fresh n e : preserves (fresh_ge n) (run_event cfg e).
Proof. unfold run_event, run_handler. preserve_using fresh fresh_closer. Qed.

(** After unmount, [resume] restores the cells it found: their
    identities are still below the counter, which only grew. *)
Lemma resume_fresh n i : preserves (fresh_ge n) (resume cfg i).
Proof.
  intros w Hw. unfold resume, st_bind, st_get. simpl.
  destruct (w_tasks w !! i) as [t|]; [|done]. unfold st_modify. simpl.
  pose proof (resume_task_fresh (w_next w) t (set_tasks (delete i (w_tasks w)) w)) as Ht.
  destruct (resume_task cfg t (set_tasks (delete i (w_tasks w)) w)) as [[] w'] eqn:E.
  simpl in Ht. destruct Ht as (Ht1 & Ht2 & Ht3); [unfold fresh_ge in *; simpl; lia|].
  destruct (w_mounted w).
  - apply (flush_fresh n commit_fuel (w_cells w) w'). unfold fresh_ge in *. lia.
  - unfold fresh_ge in *. simpl. lia.
Qed.

Lemma unmount_fresh n : preserves (fresh_ge n) (unmount cfg).
Proof. preserve_using fresh fresh_closer. Qed.

Lemma mount_fresh : fresh_ge 0 (initial cfg).
Proof.
  unfold initial. apply (preserves_exec (fresh_ge 0)); [|unfold fresh_ge; simpl; lia].
  unfold mount, render_commit. cbn beta iota. preserve_using fresh fresh_closer.
Qed.

Lemma render_commit_ref s p : preserves (ref_is s) (render_commit cfg (Some p)).
Proof. unfold render_commit. cbn beta iota. preserve_with ref_closer. Qed.

Lemma flush_ref s k p : preserves (ref_is s) (flush cfg k p).
Proof.
  revert p. induction k as [|k IH]; intros p; simpl; [apply preserves_ret|].
  preserve_with ref_closer. all: first [apply render_commit_ref | apply IH].
Qed.

#[local] Hint Resolve render_commit_ref flush_ref : ref.

Lemma step_ref s w w' : step cfg w w' -> ref_is s w -> ref_is s w'.
Proof.
  intros [e w0 _|i t w0 _|w0 _]; apply preserves_exec.
  - unfold run_event, run_handler. preserve_using ref ref_closer.
  - unfold resume. preserve_using ref ref_closer.
  - preserve_using ref ref_closer.
Qed.

Lemma step_fresh w w' : step cfg w w' -> fresh_ge 0 w -> fresh_ge 0 w'.
Proof.
  intros [e w0 _|i t w0 _|w0 _]; apply preserves_exec.
  - apply run_event_fresh.
  - apply resume_fresh.
  - apply unmount_fresh.
Qed.

Lemma star_invariant (I : world -> Prop) w w' :
  (forall a b, step cfg a b -> I a -> I b) -> star cfg w w' -> I w -> I w'.
Proof. intros Hs Hst. induction Hst; eauto. Qed.

Lemma effect_submit_ref s r : preserves (ref_is s) (effect_submit cfg r).
Proof. preserve_with ref_closer. Qed.

(** The mount render writes the ref with its own [formSelf]; the renders
    that follow keep it. *)
Lemma mount_ref : w_ref (initial cfg) = Some (snapshot_of cfg (cells0 cfg)).
Proof.
  unfold initial, mount. rewrite !exec_seq.
  apply (preserves_exec (ref_is _)); [apply flush_ref|].
  apply (preserves_exec (ref_is _)); [by intros []|].
  unfold render_commit. rewrite exec_bind. cbn [fst snd st_get]. rewrite !exec_seq.
  apply (preserves_exec (ref_is _)); [apply effect_submit_ref|].
  unfold effect_mount. rewrite !exec_seq.
  apply (preserves_exec (ref_is _)); [preserve_with ref_closer|].
  apply (preserves_exec (ref_is _)); [preserve_with ref_closer|]. done.
Qed.

Lemma reachable_fresh w :
  reachable cfg w -> values_id (w_cells w) < w_next w /\ errors_id (w_cells w) < w_next w.
Proof.
  intros Hr. enough (fresh_ge 0 w) by (unfold fresh_ge in *; tauto).
  eapply star_invariant; [apply step_fresh|exact Hr|apply mount_fresh].
Qed.

Lemma reachable_ref w : reachable cfg w -> w_ref w = Some (snapshot_of cfg (cells0 cfg)).
Proof.
  intros Hr. change (ref_is (Some (snapshot_of cfg (cells0 cfg))) w).
  eapply star_invariant; [apply step_ref|exact Hr|apply mount_ref].
Qed.

Lemma star_snoc w1 w2 w3 : star cfg w1 w2 -> step cfg w2 w3 -> star cfg w1 w3.
Proof. intros H. induction H; intros; econstructor; eauto using star. Qed.

Lemma reachable_initial : reachable cfg (initial cfg).
Proof. constructor. Qed.

Lemma reachable_event e w :
  reachable cfg w -> w_mounted w = true -> reachable cfg (exec (run_event cfg e) w).
Proof. intros Hr Hm. eapply star_snoc; [exact Hr|by constructor]. Qed.

Lemma reachable_resume i t w :
  reachable cfg w -> w_tasks w !! i = Some t -> reachable cfg (exec (resume cfg i) w).
Proof. intros Hr Ht. eapply star_snoc; [exact Hr|by econstructor]. Qed.

End Preservation.

