(* ===== verification/Scenarios.v ===== *)
(** * Concrete forms used to instantiate the theorems

    The form of the spec's examples (section 8): defaults [{a: 1, b: 2}],
    every observer hook configured, and the four hooks that decide the
    submission path chosen per scenario. *)

From stdpp Require Import base list strings decidable.
From S2P Require Import Prelude JsValue JsObject Stores Hooks Pipeline Submission Lifecycle Invariants.

Definition one : jsval := JNumber (num 1).
Definition two : jsval := JNumber (num 2).
Definition nine : jsval := JNumber (num 9).

(** [{a: 1, b: 2}] *)
Definition d_ab : obj := [("a", one); ("b", two)].

(** A form with defaults [d], no [fieldOnChange] override, every observer
    hook present, and the given submission hooks. *)
Definition demo (d : obj) (onSubmit catch : bool)
    (gate submit : option (snapshot -> settle)) : config :=
  mkConfig d false true true true true true true onSubmit catch true gate submit.

(** A submit hook whose promise fulfils, and one whose promise rejects. *)
Definition submit_ok : option (snapshot -> settle) := Some (fun _ => Fulfilled JUndefined).
Definition submit_fails : option (snapshot -> settle) :=
  Some (fun _ => Rejected (JString "network down")).

(** A gate that always answers [false], and one whose promise rejects. *)
Definition gate_false : option (snapshot -> settle) := Some (fun _ => Fulfilled (JBool false)).
Definition gate_rejects : option (snapshot -> settle) := Some (fun _ => Rejected (JString "gate")).

Definition cfg_ok : config := demo d_ab false false None submit_ok.

(** The other submission paths: a failing submit hook, a gate answering
    [false], a gate that rejects, a [formOnSubmit] override. *)
Definition cfg_fails : config := demo d_ab false false None submit_fails.
Definition cfg_gate_false : config := demo d_ab false false gate_false submit_ok.
Definition cfg_gate_rejects : config := demo d_ab false false gate_rejects submit_ok.
Definition cfg_override : config := demo d_ab true false None submit_ok.

(** A form with a [fieldOnChange] override. *)
Definition cfg_onchange : config :=
  mkConfig d_ab true true true true true true true false false true None submit_ok.

(** The form after a submit whose [formDidSubmit] promise is pending. *)
Definition w_submitting : world := exec (run_event cfg_ok EvSubmit) (initial cfg_ok).

(** The form after the user changed [a] to 9. *)
Definition w_edited : world := exec (run_event cfg_ok (EvSetFormField "a" nine)) (initial cfg_ok).

(** The form showing an error on [a]. *)
Definition w_error : world :=
  exec (run_event cfg_ok (EvSetError "a" (JString "required"))) (initial cfg_ok).

(** A raw change event [{target: {value: 9}}] on a heap. *)
Definition ev_heap : heap := [(1%positive, [("target", JObject 2%positive)]); (2%positive, [("value", nine)])].
Definition ev_val : jsval := JObject 1%positive.

(** The form with the [fieldOnChange] override once an error was set. *)
Definition w_onchange_error : world :=
  exec (run_event cfg_onchange (EvSetError "a" (JString "required"))) (initial cfg_onchange).

