(* ===== verification/MountFlow.v ===== *)
(** * Mount and unmount (spec 4.7)

    The first render of the form and its mount effect, computed in full:
    [formWillMount], the registration sweep over the default keys in key
    order, [formDidMount], all in the first render's closure.  Then
    unmount, whose cleanup keeps that closure too. *)

From stdpp Require Import base list strings decidable.
From S2P Require Import Prelude JsValue JsObject Stores Hooks Pipeline Submission Lifecycle Invariants Scenarios.

Lemma exec_for_each_emit {X} (l : list X) (f : X -> call) w :
  exec (for_each l (fun x => emit (f x))) w = set_trace (w_trace w ++ map f l) w.
Proof.
  revert w. induction l as [|x l IH]; intros w; simpl.
  - destruct w. unfold set_trace. simpl. by rewrite app_nil_r.
  - rewrite exec_seq, IH. destruct w. unfold set_trace. simpl. by rewrite <- app_assoc.
Qed.

Section Mount.
Context (cfg : config).

(** The registration sweep (lines 360-365) in the closure of [r]. *)
Definition register_calls (r : cells) : list call :=
  map (fun fieldName => CFieldDidRegister fieldName (registerField r fieldName)
                          (obj_get (formValues r) fieldName) (snapshot_of cfg r))
      (obj_keys (formValues r)).

Lemma render_commit_mount :
  exec (render_commit cfg None) (world0 cfg)
  = mkWorld (cells0 cfg) (Some (snapshot_of cfg (cells0 cfg))) []
      (render_calls cfg (cells0 cfg)
       ++ (if fieldDidRegister cfg then register_calls (cells0 cfg) else [])
       ++ (if formDidMount cfg then [CFormDidMount (snapshot_of cfg (cells0 cfg))] else []))
      1 false.
Proof.
  unfold render_commit. rewrite exec_bind. cbn [fst snd st_get].
  unfold effect_fieldDidChange, effect_submit, effect_mount.
  cbn [world0 w_cells cells0 fieldChanged submitting].
  unfold register_calls, render_calls, emit_if.
  destruct (formWillMount cfg), (fieldDidRegister cfg), (formDidMount cfg);
    autorewrite with form_rw;
    rewrite ?(exec_for_each_emit _ (fun fieldName =>
                CFieldDidRegister fieldName (registerField (cells0 cfg) fieldName)
                  (obj_get (formValues (cells0 cfg)) fieldName) (snapshot_of cfg (cells0 cfg))));
    unfold emit; autorewrite with form_rw; simpl; by rewrite ?app_nil_r, <- ?app_assoc.
Qed.

(** C9: Mount (spec 4.7): the first render calls [formWillMount], the mount
    effect then stores the first render's [formSelf] in the ref, calls
    [fieldDidRegister] once per default key in key order with the
    key's default descriptor and value, and calls [formDidMount]; all
    receive the same snapshot.  No effect changes state, so nothing else
    runs: the form is mounted, settled and idle. *)
Theorem mount_sequence :
  initial cfg
  = mkWorld (cells0 cfg) (Some (snapshot_of cfg (cells0 cfg))) []
      (render_calls cfg (cells0 cfg)
       ++ (if fieldDidRegister cfg then register_calls (cells0 cfg) else [])
       ++ (if formDidMount cfg then [CFormDidMount (snapshot_of cfg (cells0 cfg))] else []))
      1 true.
Proof.
  unfold initial, mount. rewrite !exec_seq, render_commit_mount, exec_modify.
  unfold commit_fuel. apply flush_same. apply cells_same_refl.
Qed.

End Mount.

(** The form of [Scenarios] registers [a] then [b] between its two
    mount hooks. *)
Lemma mount_sequence_witness :
  w_trace (initial cfg_ok)
  = [CFormWillMount (snapshot_of cfg_ok (cells0 cfg_ok));
     CFieldDidRegister "a" (PValue "a" one) one (snapshot_of cfg_ok (cells0 cfg_ok));
     CFieldDidRegister "b" (PValue "b" two) two (snapshot_of cfg_ok (cells0 cfg_ok));
     CFormDidMount (snapshot_of cfg_ok (cells0 cfg_ok))].
Proof. rewrite (mount_sequence cfg_ok). reflexivity. Defined.
