(* ===== verification/ChangeFlow.v ===== *)
(** * The change pipeline end to end (spec 4.5, 8)

    Theorems about a change event run as React runs it: the handler in the
    latest render's closure, then the commit loop with its renders and the
    deferred "did change" effect.  They state the whole resulting world:
    cells, trace and pending tasks. *)

From stdpp Require Import base list strings decidable sets.
From S2P Require Import Prelude JsValue JsObject Stores Hooks Pipeline Submission Lifecycle Invariants Scenarios.
Import ValueStore ErrorStore.

(** [c] with [fieldChanged] replaced. *)
Definition with_fc (c : cells) (fc : option string) : cells :=
  mkCells (formValues c) (values_id c) (formErrors c) (errors_id c) (submitting c) fc.

Lemma cells_same_fc_ne a b : fieldChanged a ≠ fieldChanged b -> cells_same a b = false.
Proof.
  intros H. unfold cells_same. rewrite (bool_decide_eq_false_2 (fieldChanged a = fieldChanged b)) by done.
  by rewrite andb_false_r.
Qed.

Lemma deps_fieldDidChange_fc_ne a b :
  fieldChanged a ≠ fieldChanged b -> deps_fieldDidChange_same a b = false.
Proof. intros H. unfold deps_fieldDidChange_same. by rewrite bool_decide_eq_false_2. Qed.

Section Change.
Context (cfg : config).

(** What the default reducer enqueues: two fresh objects and the
    pending-change marker. *)
Definition after_default (w : world) (k : string) (v : jsval) : world :=
  let c := w_cells w in
  set_next (S (S (w_next w)))
    (set_cells (mkCells (setForm_upd k v (formValues c)) (w_next w)
                  (setError_upd k JNull (formErrors c)) (S (w_next w))
                  (submitting c) (Some k)) w).

Lemma exec_onFieldChangingDefault k v w :
  exec (onFieldChangingDefault k v) w = after_default w k v.
Proof. by destruct w as [[] ? ? ? ? ?]. Qed.

(** The render that follows a default change with no submission in
    flight runs the "did change" effect once and clears the marker. *)
Lemma render_commit_after_change p w k :
  fieldChanged p = None -> fieldChanged (w_cells w) = Some k -> k ≠ "" ->
  submitting (w_cells w) = false ->
  exec (render_commit cfg (Some p)) w
  = set_cells (with_fc (w_cells w) None)
      (set_trace (w_trace w ++ render_calls cfg (w_cells w)
                  ++ (if fieldDidChange cfg
                      then [CFieldDidChange (w_ref w) k (obj_get (formValues (w_cells w)) k)]
                      else [])) w).
Proof.
  intros Hp Hc Hk Hs. destruct w as [c ref ts tr nx mo]; simpl in *.
  unfold render_commit, exec, st_bind, st_get; simpl.
  rewrite deps_fieldDidChange_fc_ne by congruence.
  unfold effect_fieldDidChange. rewrite Hc, bool_decide_eq_true_2 by done.
  unfold render_calls, emit_if, emit, set_fieldChanged, modify_cells, st_modify, st_ret.
  destruct (formWillMount cfg), (fieldDidChange cfg); simpl;
    destruct (deps_submit_same p c); unfold effect_submit; rewrite ?Hs; simpl;
    unfold with_fc, set_cells, set_trace; simpl; rewrite ?Hs; f_equal;
    by rewrite <- ?app_assoc, ?app_nil_r.
Qed.

(** The commit of a pending change marker, with no submission in
    flight: the "did change" effect fires once, for the marked key. *)
Lemma commit_after_marker p w1 k :
  fieldChanged p = None -> fieldChanged (w_cells w1) = Some k -> k ≠ "" ->
  submitting (w_cells w1) = false ->
  exec (flush cfg commit_fuel p) w1
  = set_cells (with_fc (w_cells w1) None)
      (set_trace (w_trace w1 ++ render_calls cfg (w_cells w1)
         ++ (if fieldDidChange cfg
             then [CFieldDidChange (w_ref w1) k (obj_get (formValues (w_cells w1)) k)] else [])
         ++ render_calls cfg (with_fc (w_cells w1) None)) w1).
Proof.
  intros Hp Hc Hk Hs. unfold commit_fuel.
  rewrite flush_result by (apply cells_same_fc_ne; congruence).
  rewrite render_commit_after_change with (k := k) by done.
  simpl. rewrite cells_same_fc_ne by (simpl; congruence).
  destruct w1 as [c1 ref ts tr nx mo]. unfold set_cells, set_trace. simpl.
  f_equal. by rewrite <- !app_assoc.
Qed.

Lemma _changeValue_default r k v :
  fieldOnChange cfg = false -> _changeValue cfg r k v = onFieldChangingDefault k v.
Proof. intros H. unfold _changeValue. by rewrite H. Qed.

(** A change through the default reducer, in any closure, from a
    settled form with no submission in flight: one render with the new
    value and cleared error, the "did change" effect, one more render. *)
Lemma change_default_world (r : cells) k v w :
  fieldOnChange cfg = false -> k ≠ "" ->
  submitting (w_cells w) = false -> fieldChanged (w_cells w) = None ->
  let c := w_cells w in
  let c1 := mkCells (setForm_upd k v (formValues c)) (w_next w)
              (setError_upd k JNull (formErrors c)) (S (w_next w)) false (Some k) in
  exec (run_handler cfg (fun _ => _changeValue cfg r k v)) w
  = mkWorld (with_fc c1 None) (w_ref w) (w_tasks w)
      (w_trace w ++ render_calls cfg c1
         ++ (if fieldDidChange cfg then [CFieldDidChange (w_ref w) k v] else [])
         ++ render_calls cfg (with_fc c1 None))
      (S (S (w_next w))) (w_mounted w).
Proof.
  intros Hoc Hk Hs Hfc c c1. rewrite exec_run_handler, _changeValue_default by done.
  rewrite exec_onFieldChangingDefault.
  assert (Hc1 : w_cells (after_default w k v) = c1)
    by (unfold c1, c, after_default; simpl; by rewrite Hs).
  rewrite commit_after_marker with (k := k); rewrite ?Hc1; try done.
  unfold c1. simpl. rewrite obj_get_setForm_upd. by destruct w.
Qed.

(** The render after a change of the key [""]: the "did change" effect
    tests [if(fieldChanged)], which is false for [""], so the marker is
    never cleared and no hook is called. *)
Lemma render_commit_empty_marker p w :
  fieldChanged p = None -> fieldChanged (w_cells w) = Some "" -> submitting (w_cells w) = false ->
  exec (render_commit cfg (Some p)) w = set_trace (w_trace w ++ render_calls cfg (w_cells w)) w.
Proof.
  intros Hp Hc Hs. destruct w as [c ref ts tr nx mo]; simpl in *.
  unfold render_commit, exec, st_bind, st_get; simpl.
  rewrite deps_fieldDidChange_fc_ne by congruence.
  unfold effect_fieldDidChange. rewrite Hc, bool_decide_eq_false_2 by tauto.
  unfold render_calls, emit_if, emit, st_modify, st_ret.
  destruct (formWillMount cfg); simpl;
    destruct (deps_submit_same p c); unfold effect_submit; rewrite ?Hs; simpl;
    by rewrite ?app_nil_r.
Qed.

(** [for] loop of default changes, one [after_default] per key. *)
Definition after_defaults (w : world) (ks : list string) (f : string -> jsval) : world :=
  fold_left (fun w' k => after_default w' k (f k)) ks w.

Lemma for_each_ext {X} (l : list X) (b1 b2 : X -> FM unit) :
  (forall x, b1 x = b2 x) -> for_each l b1 = for_each l b2.
Proof. intros H. induction l as [|x l IH]; simpl; [done|]. by rewrite H, IH. Qed.

Lemma exec_for_each_default ks f w :
  exec (for_each ks (fun k => onFieldChangingDefault k (f k))) w = after_defaults w ks f.
Proof.
  revert w. induction ks as [|k ks IH]; intros w; [done|].
  cbn [for_each]. rewrite exec_bind.
  change (snd (onFieldChangingDefault k (f k) w)) with (exec (onFieldChangingDefault k (f k)) w).
  rewrite exec_onFieldChangingDefault. apply IH.
Qed.

Lemma after_defaults_cells ks f w :
  let w' := after_defaults w ks f in
  formValues (w_cells w') = fold_left (fun acc k => setForm_upd k (f k) acc) ks (formValues (w_cells w)) /\
  formErrors (w_cells w') = fold_left (fun acc k => setError_upd k JNull acc) ks (formErrors (w_cells w)) /\
  submitting (w_cells w') = submitting (w_cells w) /\
  fieldChanged (w_cells w') = (match last ks with Some k => Some k | None => fieldChanged (w_cells w) end) /\
  w_ref w' = w_ref w /\ w_tasks w' = w_tasks w /\ w_trace w' = w_trace w /\ w_mounted w' = w_mounted w.
Proof.
  revert w. induction ks as [|k ks IH]; intros w; simpl; [done|].
  destruct (IH (after_default w k (f k))) as (H1 & H2 & H3 & H4 & H5 & H6 & H7 & H8).
  unfold after_defaults in *. simpl. rewrite H1, H2, H3, H4, H5, H6, H7, H8. simpl.
  repeat split; try done. destruct ks as [|s ks]; simpl; [done|].
  destruct (last (s :: ks)) eqn:E; [done|]. by apply last_None in E.
Qed.

(** A loop of default changes over the keys of [o] (the body of
    [setAllFields]), committed: one render, one "did change" effect for the
    last key only, one more render. *)
Lemma change_loop_world (r : cells) (o : obj) w kl :
  fieldOnChange cfg = false -> submitting (w_cells w) = false ->
  fieldChanged (w_cells w) = None -> last (obj_keys o) = Some kl -> kl ≠ "" ->
  let w1 := after_defaults w (obj_keys o) (obj_get o) in
  exec (run_handler cfg (fun _ => for_each (obj_keys o) (fun k => _changeValue cfg r k (obj_get o k)))) w
  = set_cells (with_fc (w_cells w1) None)
      (set_trace (w_trace w ++ render_calls cfg (w_cells w1)
         ++ (if fieldDidChange cfg
             then [CFieldDidChange (w_ref w) kl (obj_get (formValues (w_cells w1)) kl)] else [])
         ++ render_calls cfg (with_fc (w_cells w1) None)) w1).
Proof.
  intros Hoc Hs Hfc Hl Hk w1. rewrite exec_run_handler.
  rewrite (for_each_ext _ _ (fun k => onFieldChangingDefault k (obj_get o k)))
    by (intros x; by apply _changeValue_default).
  rewrite exec_for_each_default. fold w1.
  destruct (after_defaults_cells (obj_keys o) (obj_get o) w) as (_ & _ & H3 & H4 & H5 & _ & H7 & _).
  fold w1 in H3, H4, H5, H7. rewrite Hl in H4.
  rewrite commit_after_marker with (k := kl); try congruence. by rewrite H5, H7.
Qed.

(** The values after the loop: the keys of [o] hold [o]'s values. *)
Lemma after_defaults_values (o : obj) w k :
  obj_wf (formValues (w_cells w)) ->
  obj_get (formValues (w_cells (after_defaults w (obj_keys o) (obj_get o)))) k
  = if decide (k ∈ obj_keys o) then obj_get o k else obj_get (formValues (w_cells w)) k.
Proof.
  intros Hwf. destruct (after_defaults_cells (obj_keys o) (obj_get o) w) as (H1 & _).
  rewrite H1. unfold setForm_upd. by apply obj_get_fold_spread_set.
Qed.

End Change.

Section ChangeClaims.
Context (cfg : config).

(** C10: [setFormField(k, v)] through the default reducer, from a settled
    form with no submission in flight: afterwards [formValues[k]] is
    [v], [formErrors[k]] is [null], no change is pending, and the only
    hook called is one [fieldDidChange] for [k] carrying [v] (spec 8,
    first property). *)
Theorem setFormField_commits k v w :
  fieldOnChange cfg = false -> k ≠ "" ->
  submitting (w_cells w) = false -> fieldChanged (w_cells w) = None ->
  let w' := exec (run_event cfg (EvSetFormField k v)) w in
  obj_get (formValues (w_cells w')) k = v /\
  obj_get (formErrors (w_cells w')) k = JNull /\
  fieldChanged (w_cells w') = None /\ submitting (w_cells w') = false /\
  hook_calls (calls_of (run_event cfg (EvSetFormField k v)) w)
  = (if fieldDidChange cfg then [CFieldDidChange (w_ref w) k v] else []).
Proof.
  intros Hoc Hk Hs Hfc w'. unfold w'.
  unfold run_event, handler, setFormField.
  rewrite (calls_of_app _ _ _ (f_equal w_trace (change_default_world cfg _ k v w Hoc Hk Hs Hfc))).
  rewrite (change_default_world cfg _ k v w Hoc Hk Hs Hfc). simpl.
  rewrite obj_get_setForm_upd, obj_get_setError_upd.
  rewrite !hook_calls_app, !hook_calls_render. simpl.
  repeat split; try done. by destruct (fieldDidChange cfg).
Qed.

(** C13: [setAllFields()] with no argument re-applies the values of the first
    render, which are the default values, whatever the current values
    are: the default argument [formValues] is captured by a [useCallback]
    with no dependencies (spec 6 says it re-applies the current values). *)
Theorem setAllFields_reapplies_defaults w kl :
  fieldOnChange cfg = false -> submitting (w_cells w) = false ->
  fieldChanged (w_cells w) = None -> obj_wf (formValues (w_cells w)) ->
  last (obj_keys (defaultValues cfg)) = Some kl -> kl ≠ "" ->
  forall k, k ∈ obj_keys (defaultValues cfg) ->
  obj_get (formValues (w_cells (exec (run_event cfg (EvSetAllFields AUndefined)) w))) k
  = obj_get (defaultValues cfg) k.
Proof.
  intros Hoc Hs Hfc Hwf Hl Hk k Hin.
  unfold run_event, handler, setAllFields. simpl.
  rewrite change_loop_world with (kl := kl) by done. simpl.
  rewrite after_defaults_values by done. by rewrite decide_True.
Qed.

(** C12: [setAllFields(o)] changes every key of [o] but notifies
    [fieldDidChange] once, for the last key only: the pending-change
    marker of each earlier key is overwritten before the effect runs
    (spec 3 requires a pending change to be serviced before another is
    set). *)
Theorem setAllFields_single_notification (o : obj) w kl :
  fieldOnChange cfg = false -> submitting (w_cells w) = false ->
  fieldChanged (w_cells w) = None -> obj_wf (formValues (w_cells w)) ->
  last (obj_keys o) = Some kl -> kl ≠ "" ->
  hook_calls (calls_of (run_event cfg (EvSetAllFields (AObj o))) w)
  = (if fieldDidChange cfg then [CFieldDidChange (w_ref w) kl (obj_get o kl)] else []).
Proof.
  intros Hoc Hs Hfc Hwf Hl Hk. unfold run_event, handler, setAllFields.
  erewrite calls_of_app.
  2:{ rewrite change_loop_world with (kl := kl) by done. reflexivity. }
  rewrite !hook_calls_app, !hook_calls_render.
  rewrite after_defaults_values, decide_True by (done || by apply last_Some_elem_of).
  by destruct (fieldDidChange cfg).
Qed.

(** C11: The "did change" payload spreads [formSelfRef.current], which only
    the mount effect writes: in every reachable state, [fieldDidChange]
    receives the first render's [formSelf] (default values, default
    errors, [submitting = false]) next to the new value, not the
    post-commit state spec 4.5 promises ("current form state plus the
    changed field/value"). *)
Theorem fieldDidChange_sees_mount_snapshot k v w :
  reachable cfg w -> fieldOnChange cfg = false -> fieldDidChange cfg = true -> k ≠ "" ->
  submitting (w_cells w) = false -> fieldChanged (w_cells w) = None ->
  hook_calls (calls_of (run_event cfg (EvSetFormField k v)) w)
  = [CFieldDidChange (Some (snapshot_of cfg (cells0 cfg))) k v].
Proof.
  intros Hr Hoc Hdc Hk Hs Hfc. unfold run_event, handler, setFormField.
  rewrite (calls_of_app _ _ _ (f_equal w_trace (change_default_world cfg _ k v w Hoc Hk Hs Hfc))).
  rewrite !hook_calls_app, !hook_calls_render, Hdc, (reachable_ref cfg w Hr). done.
Qed.

(** C17: [formWillMount] is called in the body of the hook, so on every
    render, not once per form (spec 4.7 lists it among the hooks "fired
    exactly once per form instance"): a single [setFormField] calls it
    twice, once in the render of the new value and once in the render
    that clears the pending change. *)
Theorem formWillMount_every_render k v w :
  formWillMount cfg = true -> fieldOnChange cfg = false -> k ≠ "" ->
  submitting (w_cells w) = false -> fieldChanged (w_cells w) = None ->
  exists s1 s2, List.filter is_render_call (calls_of (run_event cfg (EvSetFormField k v)) w)
                = [CFormWillMount s1; CFormWillMount s2].
Proof.
  intros Hwm Hoc Hk Hs Hfc. unfold run_event, handler, setFormField.
  rewrite (calls_of_app _ _ _ (f_equal w_trace (change_default_world cfg _ k v w Hoc Hk Hs Hfc))).
  rewrite !List.filter_app. unfold render_calls. rewrite Hwm.
  destruct (fieldDidChange cfg); simpl; eauto.
Qed.

(** C14: With a [fieldOnChange] override, [setFormField] hands it the first
    render's [formSelf] (a [useCallback] with no dependencies), while a
    binding created in the latest render hands it the current state
    (spec 4.5: the override receives the current form state).  Neither
    changes the state. *)
Theorem setFormField_override_mount_state k v h val w :
  fieldOnChange cfg = true ->
  calls_of (run_event cfg (EvSetFormField k v)) w
  = [CFieldOnChange (snapshot_of cfg (cells0 cfg)) k v] /\
  calls_of (run_event cfg (EvFieldChange k h val)) w
  = [CFieldOnChange (snapshot_of cfg (w_cells w)) k (event_value h val)].
Proof.
  intros Hoc. split; apply calls_of_app; unfold run_event; rewrite exec_run_handler;
    cbn [handler]; unfold setFormField, registerFieldDefault_onChange, _changeValue;
    rewrite Hoc; unfold commit_fuel; rewrite flush_same; try done;
    destruct w; apply cells_same_refl.
Qed.

(** C16: A field named [""] is written but never notified: [if(fieldChanged)]
    is false for the empty string, so the pending change stays set and is
    never serviced (spec 4.5: a pending change is serviced exactly
    once). *)
Theorem empty_field_never_notified v w :
  fieldOnChange cfg = false -> submitting (w_cells w) = false -> fieldChanged (w_cells w) = None ->
  let w' := exec (run_event cfg (EvSetFormField "" v)) w in
  hook_calls (calls_of (run_event cfg (EvSetFormField "" v)) w) = [] /\
  fieldChanged (w_cells w') = Some "" /\ obj_get (formValues (w_cells w')) "" = v.
Proof.
  intros Hoc Hs Hfc w'.
  assert (Hw' : w' = set_trace (w_trace (after_default w "" v)
                       ++ render_calls cfg (w_cells (after_default w "" v))) (after_default w "" v)).
  { unfold w', run_event. rewrite exec_run_handler. cbn [handler]. unfold setFormField.
    rewrite _changeValue_default, exec_onFieldChangingDefault by done. unfold commit_fuel.
    rewrite flush_result by (apply cells_same_fc_ne; unfold after_default; simpl; congruence).
    rewrite render_commit_empty_marker by (done || unfold after_default; simpl; congruence).
    simpl. by rewrite cells_same_refl. }
  split; [|split].
  - erewrite calls_of_app by (fold w'; rewrite Hw'; unfold after_default; simpl; reflexivity).
    apply hook_calls_render.
  - by rewrite Hw'.
  - rewrite Hw'. apply obj_get_setForm_upd.
Qed.

(** Blur (spec 4.4): a binding's [onBlur] calls [fieldOnBlur], if
    configured, with the current state and the value read from the
    event, and changes nothing else: no state, no render. *)
Theorem blur_is_pure k h val w :
  exec (run_event cfg (EvBlur k h val)) w
  = set_trace (w_trace w ++ (if fieldOnBlur cfg
                             then [CFieldOnBlur (snapshot_of cfg (w_cells w)) k (event_value h val)]
                             else [])) w.
Proof.
  unfold run_event. rewrite exec_run_handler. cbn [handler]. unfold binding_onBlur, emit_if, commit_fuel.
  destruct w; destruct (fieldOnBlur cfg); (rewrite flush_same; [|apply cells_same_refl]);
    unfold set_trace; simpl; by rewrite ?app_nil_r.
Qed.

(** C15: Radio (spec 4.4): after a radio option is chosen, the descriptor of
    any option [rv'] of that field is checked exactly when [rv' === rv]:
    the chosen option is checked unless its value is [NaN], and an
    option whose value differs is unchecked. *)
Theorem radio_checks_chosen_option k rv val w rv' :
  fieldOnChange cfg = false -> k ≠ "" ->
  submitting (w_cells w) = false -> fieldChanged (w_cells w) = None ->
  registerRadioDefault (w_cells (exec (run_event cfg (EvRadioChange k rv val)) w)) k rv'
  = PChecked k (JBool (strict_eq rv' rv)).
Proof.
  intros Hoc Hk Hs Hfc.
  assert (E : exec (run_event cfg (EvRadioChange k rv val)) w
              = exec (run_handler cfg (fun _ => _changeValue cfg (w_cells w) k rv)) w)
    by (unfold run_event; by rewrite !exec_run_handler).
  rewrite E, (change_default_world cfg _ k rv w Hoc Hk Hs Hfc).
  unfold registerRadioDefault. cbn [w_cells with_fc formValues].
  by rewrite obj_get_setForm_upd.
Qed.

End ChangeClaims.

Lemma setFormField_commits_witness :
  (fieldOnChange cfg_ok = false /\ "a" ≠ "" /\
   submitting (w_cells (initial cfg_ok)) = false /\ fieldChanged (w_cells (initial cfg_ok)) = None) /\
  let w' := exec (run_event cfg_ok (EvSetFormField "a" nine)) (initial cfg_ok) in
  obj_get (formValues (w_cells w')) "a" = nine /\
  obj_get (formErrors (w_cells w')) "a" = JNull /\
  fieldChanged (w_cells w') = None /\ submitting (w_cells w') = false /\
  hook_calls (calls_of (run_event cfg_ok (EvSetFormField "a" nine)) (initial cfg_ok))
  = (if fieldDidChange cfg_ok then [CFieldDidChange (w_ref (initial cfg_ok)) "a" nine] else []).
Proof.
  split; [repeat split; concrete|].
  apply setFormField_commits; concrete.
Defined.

(** After [a] was changed to 9, [setAllFields()] puts back 1. *)
Lemma setAllFields_reapplies_defaults_witness :
  let w := exec (run_event cfg_ok (EvSetFormField "a" nine)) (initial cfg_ok) in
  obj_get (formValues (w_cells w)) "a" = nine /\
  obj_get (formValues (w_cells (exec (run_event cfg_ok (EvSetAllFields AUndefined)) w))) "a"
  = obj_get (defaultValues cfg_ok) "a".
Proof.
  split; [concrete|].
  apply (setAllFields_reapplies_defaults cfg_ok _ "b"); concrete.
Defined.

(** [setAllFields({a: 1, b: 2})] changes two fields and notifies once. *)
Lemma setAllFields_single_notification_witness :
  hook_calls (calls_of (run_event cfg_ok (EvSetAllFields (AObj d_ab))) (initial cfg_ok))
  = [CFieldDidChange (w_ref (initial cfg_ok)) "b" two].
Proof.
  apply (setAllFields_single_notification cfg_ok d_ab (initial cfg_ok) "b"); concrete.
Defined.

(** After [a] was changed to 9, changing [b] notifies with the mount
    state, in which [a] is still 1. *)
Lemma fieldDidChange_sees_mount_snapshot_witness :
  obj_get (formValues (w_cells w_edited)) "a" = nine /\
  obj_get (s_formValues (snapshot_of cfg_ok (cells0 cfg_ok))) "a" = one /\
  hook_calls (calls_of (run_event cfg_ok (EvSetFormField "b" nine)) w_edited)
  = [CFieldDidChange (Some (snapshot_of cfg_ok (cells0 cfg_ok))) "b" nine].
Proof.
  split; [concrete|]. split; [concrete|].
  apply fieldDidChange_sees_mount_snapshot; try concrete.
  apply reachable_event; [apply reachable_initial|concrete].
Defined.

Lemma formWillMount_every_render_witness :
  exists s1 s2, List.filter is_render_call (calls_of (run_event cfg_ok (EvSetFormField "a" nine)) (initial cfg_ok))
                = [CFormWillMount s1; CFormWillMount s2].
Proof. apply formWillMount_every_render; concrete. Defined.

(** With [fieldOnChange], once an error is shown on [a], a binding
    reports it and [setFormField] does not. *)
Lemma setFormField_override_mount_state_witness :
  s_hasErrors (snapshot_of cfg_onchange (w_cells w_onchange_error)) = true /\
  calls_of (run_event cfg_onchange (EvSetFormField "a" nine)) w_onchange_error
  = [CFieldOnChange (snapshot_of cfg_onchange (cells0 cfg_onchange)) "a" nine] /\
  calls_of (run_event cfg_onchange (EvFieldChange "a" ev_heap ev_val)) w_onchange_error
  = [CFieldOnChange (snapshot_of cfg_onchange (w_cells w_onchange_error)) "a"
       (event_value ev_heap ev_val)].
Proof. split; [concrete|]. apply setFormField_override_mount_state. concrete. Defined.

Lemma empty_field_never_notified_witness :
  let w' := exec (run_event cfg_ok (EvSetFormField "" nine)) (initial cfg_ok) in
  hook_calls (calls_of (run_event cfg_ok (EvSetFormField "" nine)) (initial cfg_ok)) = [] /\
  fieldChanged (w_cells w') = Some "" /\ obj_get (formValues (w_cells w')) "" = nine.
Proof. apply empty_field_never_notified; concrete. Defined.

(** Choosing the option of value 2 checks it and unchecks the option 1;
    an option of value [NaN] is never shown checked, even once chosen. *)
Lemma radio_checks_chosen_option_witness :
  registerRadioDefault (w_cells (exec (run_event cfg_ok (EvRadioChange "a" two ev_val)) (initial cfg_ok))) "a" two
  = PChecked "a" (JBool true) /\
  registerRadioDefault (w_cells (exec (run_event cfg_ok (EvRadioChange "a" two ev_val)) (initial cfg_ok))) "a" one
  = PChecked "a" (JBool false) /\
  registerRadioDefault (w_cells (exec (run_event cfg_ok (EvRadioChange "a" (JNumber NaN) ev_val))
                                   (initial cfg_ok))) "a" (JNumber NaN)
  = PChecked "a" (JBool false).
Proof.
  split; [|split].
  - rewrite (radio_checks_chosen_option cfg_ok "a" two ev_val (initial cfg_ok) two) by concrete. concrete.
  - rewrite (radio_checks_chosen_option cfg_ok "a" two ev_val (initial cfg_ok) one) by concrete. concrete.
  - rewrite (radio_checks_chosen_option cfg_ok "a" (JNumber NaN) ev_val (initial cfg_ok) (JNumber NaN))
      by concrete. concrete.
Defined.
