(* ===== verification/Keys.v ===== *)
(** * The field-key set (spec 3, 4.1; the type [FormErrors<T>])

    The types of the source key both [formValues] ([T]) and [formErrors]
    ([FormErrors<T> = {[P in keyof T]?: string | null}]) by the fields of
    the defaults, and spec 3 says the defaults fix the key set for the
    form's lifetime.  The code does not check field names ([// @ts-nocheck]
    on line 2): the key set stays fixed only as long as every event names
    fields of the defaults.  This file states that as an invariant of the
    runs whose events are typed ([typed_reachable]), and shows what an
    untyped [setFormField] does: it adds a new field. *)

From stdpp Require Import base list strings decidable sets.
From S2P Require Import Prelude JsValue JsObject Stores Hooks Pipeline Submission Lifecycle Invariants Scenarios ChangeFlow.
Import ValueStore ErrorStore.

Section Keys.
Context (cfg : config).

Local Notation K := (obj_keys (defaultValues cfg)).

(** Both objects are JavaScript objects (no key repeated, keys in
    property order) and list exactly the default keys. *)
Definition keys_inv (w : world) : Prop :=
  obj_wf (formValues (w_cells w)) /\ obj_keys (formValues (w_cells w)) = K /\
  obj_wf (formErrors (w_cells w)) /\ obj_keys (formErrors (w_cells w)) = K.

(** The field names an event writes. *)
Definition event_fields (e : event) : list string :=
  match e with
  | EvFieldChange k _ _ | EvCheckBoxChange k _ _ | EvRadioChange k _ _
  | EvSetFormField k _ | EvSetError k _ => [k]
  | EvSetAllFields AUndefined => K
  | EvSetAllFields (AObj o) | EvSetAllErrors (AObj o) => obj_keys o
  | _ => []
  end.

(** The runs in which every event names fields of the defaults. *)
Inductive typed_reachable : world -> Prop :=
| typed_initial : typed_reachable (initial cfg)
| typed_event e w :
    typed_reachable w -> w_mounted w = true -> (forall k, k ∈ event_fields e -> k ∈ K) ->
    typed_reachable (exec (run_event cfg e) w)
| typed_resume i t w :
    typed_reachable w -> w_tasks w !! i = Some t -> typed_reachable (exec (resume cfg i) w)
| typed_unmount w :
    typed_reachable w -> w_mounted w = true -> typed_reachable (exec (unmount cfg) w).

Lemma typed_reachable_reachable w : typed_reachable w -> reachable cfg w.
Proof.
  induction 1; [apply reachable_initial|by apply reachable_event|by eapply reachable_resume|].
  eapply star_snoc; [exact IHtyped_reachable|by constructor].
Qed.

Lemma setForm_upd_keys k v o :
  obj_wf o -> k ∈ obj_keys o -> obj_wf (setForm_upd k v o) /\ obj_keys (setForm_upd k v o) = obj_keys o.
Proof. intros Hwf Hk. rewrite setForm_upd_wf by done. split; [auto with form|by apply obj_keys_set_in]. Qed.

Lemma setError_upd_keys k v o :
  obj_wf o -> k ∈ obj_keys o -> obj_wf (setError_upd k v o) /\ obj_keys (setError_upd k v o) = obj_keys o.
Proof. intros Hwf Hk. rewrite setError_upd_wf by done. split; [auto with form|by apply obj_keys_set_in]. Qed.

Lemma update_values_keys k v : k ∈ K -> preserves keys_inv (update_values (setForm_upd k v)).
Proof.
  intros Hk [[fv vi fe ei sb fc] ? ? ? ? ?] (H1 & H2 & H3 & H4). unfold keys_inv in *; simpl in *.
  destruct (setForm_upd_keys k v fv) as [? ->]; [done|by rewrite H2|done].
Qed.

Lemma update_errors_keys k v : k ∈ K -> preserves keys_inv (update_errors (setError_upd k v)).
Proof.
  intros Hk [[fv vi fe ei sb fc] ? ? ? ? ?] (H1 & H2 & H3 & H4). unfold keys_inv in *; simpl in *.
  destruct (setError_upd_keys k v fe) as [? ->]; [done|by rewrite H4|done].
Qed.

Create HintDb keys discriminated.
#[local] Hint Resolve update_values_keys update_errors_keys : keys.

(** The [st_modify] obligations of a key-set preservation goal. *)
Ltac keys_closer :=
  intros [[] ? ? ? ? ?] ?; unfold keys_inv in *; simpl in *;
  rewrite ?defaultFormErrors_all_null, ?obj_keys_all_null by done;
  intuition (eauto using obj_wf_all_null).

Lemma changeValue_keys r k v : k ∈ K -> preserves keys_inv (_changeValue cfg r k v).
Proof. intros Hk. preserve_using keys keys_closer. Qed.

#[local] Hint Resolve changeValue_keys : keys.

Lemma clearAllErrors_keys r :
  (forall k, k ∈ obj_keys (formErrors r) -> k ∈ K) -> preserves keys_inv (clearAllErrors r).
Proof.
  intros Hr. unfold clearAllErrors. apply preserves_for_each_in. intros k Hk.
  apply update_errors_keys, Hr, Hk.
Qed.

Lemma render_commit_keys p : preserves keys_inv (render_commit cfg (Some p)).
Proof. unfold render_commit. cbn beta iota. preserve_with keys_closer. Qed.

Lemma flush_keys n p : preserves keys_inv (flush cfg n p).
Proof.
  revert p. induction n as [|n IH]; intros p; simpl; [apply preserves_ret|].
  preserve_with keys_closer. all: first [apply render_commit_keys | apply IH].
Qed.

(** From here on the defaults are a well-formed object. *)
Hypothesis Hd : obj_wf (defaultValues cfg).

Lemma resetForm_keys : preserves keys_inv (resetForm cfg).
Proof. preserve_with keys_closer. Qed.

#[local] Hint Resolve clearAllErrors_keys resetForm_keys render_commit_keys flush_keys : keys.

Lemma handler_keys e r :
  (forall k, k ∈ event_fields e -> k ∈ K) -> (forall k, k ∈ obj_keys (formErrors r) -> k ∈ K) ->
  preserves keys_inv (handler cfg e r).
Proof.
  intros He Hr. destruct e as [k h v|k h v|k rv v|k h v|k v|[| |o]|k v|[| |o]| | |];
    cbn [handler event_fields] in *.
  - apply changeValue_keys, He. by left.
  - apply changeValue_keys, He. by left.
  - apply changeValue_keys, He. by left.
  - preserve_with keys_closer.
  - apply changeValue_keys, He. by left.
  - apply preserves_for_each_in. intros k Hk. apply changeValue_keys, He, Hk.
  - apply preserves_ret.
  - apply preserves_for_each_in. intros k Hk. apply changeValue_keys, He, Hk.
  - apply update_errors_keys, He. by left.
  - apply preserves_ret.
  - apply preserves_ret.
  - apply preserves_for_each_in. intros k Hk. apply update_errors_keys, He, Hk.
  - by apply clearAllErrors_keys.
  - apply resetForm_keys.
  - preserve_using keys keys_closer.
Qed.

Lemma run_event_keys e :
  (forall k, k ∈ event_fields e -> k ∈ K) -> preserves keys_inv (run_event cfg e).
Proof.
  intros He w Hw. change (keys_inv (exec (run_event cfg e) w)).
  unfold run_event. rewrite exec_run_handler.
  apply flush_keys, handler_keys; [done| |done].
  destruct Hw as (_ & _ & _ & ->). done.
Qed.

Lemma resume_keys i : preserves keys_inv (resume cfg i).
Proof.
  intros w Hw. unfold resume, st_bind, st_get. simpl.
  destruct (w_tasks w !! i) as [t|]; [|done]. unfold st_modify. simpl.
  assert (Ht : preserves keys_inv (resume_task cfg t)) by preserve_with keys_closer.
  specialize (Ht (set_tasks (delete i (w_tasks w)) w) ltac:(by destruct w)).
  destruct (resume_task cfg t (set_tasks (delete i (w_tasks w)) w)) as [[] w'].
  destruct (w_mounted w); [exact (flush_keys commit_fuel (w_cells w) w' Ht)|by destruct w].
Qed.

Lemma initial_keys : keys_inv (initial cfg).
Proof.
  unfold initial. apply preserves_exec.
  - unfold mount, render_commit. cbn beta iota. preserve_using keys keys_closer.
  - unfold keys_inv. simpl. rewrite defaultFormErrors_all_null, obj_keys_all_null by done.
    eauto using obj_wf_all_null.
Qed.

(** C30: The field-key set is the type's (spec 3: the defaults fix it for
    the form's lifetime; [FormErrors<T>] is keyed by [keyof T]): along a
    run whose events only name fields of the defaults, the committed
    values and errors list exactly the default keys, in their order, and
    repeat none. *)
Theorem typed_keys_invariant w :
  typed_reachable w ->
  obj_keys (formValues (w_cells w)) = obj_keys (defaultValues cfg) /\
  obj_keys (formErrors (w_cells w)) = obj_keys (defaultValues cfg).
Proof.
  intros Hr. enough (keys_inv w) by (unfold keys_inv in *; tauto).
  induction Hr.
  - apply initial_keys.
  - by apply run_event_keys.
  - by apply resume_keys.
  - revert IHHr. apply preserves_exec. preserve_with keys_closer.
Qed.

End Keys.

(** C31: An untyped field name is not rejected (spec 3 fixes the key set by
    the defaults; the code does not check it): [setFormField] with a key
    the form does not have adds it to the values, with a [null] error
    added to the errors.  Each object gains exactly that key, stays a
    JavaScript object in property order, and the key goes last unless it
    is an array index, which JavaScript lists first by value. *)
Theorem setFormField_adds_unknown_key cfg k v w :
  fieldOnChange cfg = false -> k ≠ "" ->
  submitting (w_cells w) = false -> fieldChanged (w_cells w) = None ->
  obj_wf (formValues (w_cells w)) -> obj_wf (formErrors (w_cells w)) ->
  k ∉ obj_keys (formValues (w_cells w)) -> k ∉ obj_keys (formErrors (w_cells w)) ->
  let c := w_cells (exec (run_event cfg (EvSetFormField k v)) w) in
  obj_keys (formValues c) ≡ₚ obj_keys (formValues (w_cells w)) ++ [k] /\
  obj_keys (formErrors c) ≡ₚ obj_keys (formErrors (w_cells w)) ++ [k] /\
  obj_wf (formValues c) /\ obj_wf (formErrors c) /\
  (array_index k = None ->
   obj_keys (formValues c) = obj_keys (formValues (w_cells w)) ++ [k] /\
   obj_keys (formErrors c) = obj_keys (formErrors (w_cells w)) ++ [k]) /\
  obj_get (formErrors c) k = JNull.
Proof.
  intros Hoc Hk Hs Hfc Hv He Hkv Hke c. unfold c, run_event, handler, setFormField.
  rewrite (change_default_world cfg _ k v w Hoc Hk Hs Hfc). cbn [w_cells with_fc formValues formErrors].
  rewrite setForm_upd_wf, setError_upd_wf by done.
  split; [by apply obj_keys_set_notin|]. split; [by apply obj_keys_set_notin|].
  split; [by apply obj_wf_set|]. split; [by apply obj_wf_set|].
  split; [intros Hi; by rewrite !obj_keys_set_notin_last|]. apply obj_get_set_eq.
Qed.

(** After [a] is changed and the errors are set for [b], the form still
    has exactly the fields [a] and [b]. *)
Lemma typed_keys_invariant_witness :
  let w := exec (run_event cfg_ok (EvSetAllErrors (AObj [("b", JString "too big")]))) w_edited in
  obj_keys (formValues (w_cells w)) = ["a"; "b"] /\ obj_keys (formErrors (w_cells w)) = ["a"; "b"].
Proof.
  apply (typed_keys_invariant cfg_ok); [unfold obj_wf; concrete|].
  apply typed_event; [|concrete|intros k Hk; apply list_elem_of_singleton in Hk as ->; concrete].
  apply typed_event; [apply typed_initial|concrete|].
  intros k Hk. apply list_elem_of_singleton in Hk as ->. concrete.
Defined.

(** [setFormField({fieldName: 'c', value: 9})] adds a field [c] last;
    [setFormField({fieldName: '0', value: 9})] adds [0] first. *)
Lemma setFormField_adds_unknown_key_witness :
  let c := w_cells (exec (run_event cfg_ok (EvSetFormField "c" nine)) (initial cfg_ok)) in
  let c0 := w_cells (exec (run_event cfg_ok (EvSetFormField "0" nine)) (initial cfg_ok)) in
  obj_keys (formValues c) = ["a"; "b"; "c"] /\ obj_keys (formErrors c) = ["a"; "b"; "c"] /\
  obj_get (formErrors c) "c" = JNull /\
  obj_keys (formValues c0) ≡ₚ ["a"; "b"; "0"] /\ obj_wf (formValues c0) /\
  obj_keys (formValues c0) = ["0"; "a"; "b"].
Proof.
  pose proof (setFormField_adds_unknown_key cfg_ok "c" nine (initial cfg_ok)
    ltac:(concrete) ltac:(concrete) ltac:(concrete) ltac:(concrete)
    ltac:(unfold obj_wf; concrete) ltac:(unfold obj_wf; concrete) ltac:(concrete) ltac:(concrete))
    as (_ & _ & _ & _ & Hlast & Hnull).
  pose proof (setFormField_adds_unknown_key cfg_ok "0" nine (initial cfg_ok)
    ltac:(concrete) ltac:(concrete) ltac:(concrete) ltac:(concrete)
    ltac:(unfold obj_wf; concrete) ltac:(unfold obj_wf; concrete) ltac:(concrete) ltac:(concrete))
    as (Hp & _ & Hwf & _).
  destruct (Hlast ltac:(concrete)) as [H1 H2]. cbv zeta.
  split; [exact H1|]. split; [exact H2|]. split; [exact Hnull|].
  split; [exact Hp|]. split; [exact Hwf|]. concrete.
Defined.
