(* ===== verification/StoreFlow.v ===== *)
(** * The Error Store and reset handlers end to end (spec 4.2, 6, 8)

    [setAllErrors] as a round trip through the committed error map,
    [setError], [clearAllErrors], and [resetForm]: the state it restores,
    each run as a React event followed by the commit loop. *)

From stdpp Require Import base list strings decidable sets gmap.
From S2P Require Import Prelude JsValue JsObject Stores Hooks Pipeline Submission Lifecycle Scenarios.
Import ValueStore ErrorStore.

(** A loop of [setError] calls only replaces the error map. *)
Lemma for_each_setError_cells ks (f : string -> jsval) w :
  let w' := exec (for_each ks (fun k => setError k (f k))) w in
  formErrors (w_cells w') = fold_left (fun acc k => setError_upd k (f k) acc) ks (formErrors (w_cells w)) /\
  formValues (w_cells w') = formValues (w_cells w) /\ values_id (w_cells w') = values_id (w_cells w) /\
  submitting (w_cells w') = submitting (w_cells w) /\ fieldChanged (w_cells w') = fieldChanged (w_cells w) /\
  w_trace w' = w_trace w /\ w_tasks w' = w_tasks w /\ w_ref w' = w_ref w /\ w_mounted w' = w_mounted w.
Proof.
  revert w. induction ks as [|k ks IH]; intros w; [done|].
  cbn [for_each]. rewrite exec_bind.
  destruct (IH (snd (setError k (f k) w))) as (H1 & H2 & H3 & H4 & H5 & H6 & H7 & H8 & H9).
  change (exec (for_each ks (fun k0 => setError k0 (f k0))) (snd (setError k (f k) w)))
    with (exec (for_each ks (fun k0 => setError k0 (f k0))) (snd (setError k (f k) w))) in *.
  simpl in *. rewrite H1, H2, H3, H4, H5, H6, H7, H8, H9. by destruct w.
Qed.

Lemma exec_setError_ids k v w :
  w_next (exec (setError k v) w) = S (w_next w) /\ errors_id (w_cells (exec (setError k v) w)) = w_next w.
Proof. by destruct w as [[] ? ? ? ? ?]. Qed.

(** Each [setError] allocates a fresh error object. *)
Lemma for_each_setError_ids ks (f : string -> jsval) w :
  let w' := exec (for_each ks (fun k => setError k (f k))) w in
  w_next w' = w_next w + length ks /\
  (ks ≠ [] -> errors_id (w_cells w') = w_next w + length ks - 1).
Proof.
  revert w. induction ks as [|k ks IH]; intros w; [unfold exec; simpl; split; [lia|done]|].
  cbn [for_each]. rewrite exec_bind.
  change (snd (setError k (f k) w)) with (exec (setError k (f k)) w).
  destruct (exec_setError_ids k (f k) w) as (Hn & Hi).
  destruct (IH (exec (setError k (f k)) w)) as (H1 & H2). cbn zeta in *.
  rewrite H1, Hn. cbn [length]. split; [lia|]. intros _. destruct ks as [|k2 ks].
  - cbn [for_each length]. change (exec (st_ret tt) ?x) with x. rewrite Hi. lia.
  - rewrite H2 by done. rewrite Hn. simpl. lia.
Qed.

Lemma exec_resetForm cfg w :
  exec (resetForm cfg) w
  = set_cells (mkCells (defaultValues cfg) 0 (defaultFormErrors (defaultValues cfg)) 0 false
                 (fieldChanged (w_cells w))) w.
Proof. by destruct w as [[] ? ? ? ? ?]. Qed.

Section StoreClaims.
Context (cfg : config).

(** C18: Round trip (spec 8): after [setAllErrors(m)] the committed error map
    holds [m]'s entries, and every other field keeps its previous error. *)
Theorem setAllErrors_roundtrip (m : obj) w k :
  obj_wf (formErrors (w_cells w)) ->
  obj_get (formErrors (w_cells (exec (run_event cfg (EvSetAllErrors (AObj m))) w))) k
  = if decide (k ∈ obj_keys m) then obj_get m k else obj_get (formErrors (w_cells w)) k.
Proof.
  intros Hwf. unfold run_event.
  destruct (run_handler_cells cfg (handler cfg (EvSetAllErrors (AObj m))) w) as (_ & _ & He & _).
  rewrite He. simpl.
  destruct (for_each_setError_cells (obj_keys m) (obj_get m) w) as (H1 & _).
  rewrite H1. by apply obj_get_apply_errors.
Qed.

(** C19: [resetForm()] commits the default values, every error [null], and
    [submitting = false]. *)
Theorem resetForm_restores w :
  obj_wf (defaultValues cfg) ->
  let c := w_cells (exec (run_event cfg EvResetForm) w) in
  formValues c = defaultValues cfg /\ formErrors c = all_null (defaultValues cfg) /\
  hasErrors (formErrors c) = false /\ submitting c = false.
Proof.
  intros Hwf c. unfold c, run_event.
  destruct (run_handler_cells cfg (handler cfg EvResetForm) w) as (Hv & _ & He & _ & Hs & _).
  cbn [handler] in *. rewrite exec_resetForm in Hv, He, Hs. simpl in *.
  rewrite Hv, He, defaultFormErrors_all_null by done.
  split; [done|]. split; [done|]. split; [apply hasErrors_all_null|]. naive_solver.
Qed.

(** C20: [clearAllErrors()] (spec 4.2): every field's error becomes [null],
    so [hasErrors] is false; the fields keep their keys and the values
    are untouched. *)
Theorem clearAllErrors_clears w :
  obj_wf (formErrors (w_cells w)) ->
  let c := w_cells (exec (run_event cfg EvClearAllErrors) w) in
  hasErrors (formErrors c) = false /\ obj_keys (formErrors c) = obj_keys (formErrors (w_cells w)) /\
  formValues c = formValues (w_cells w).
Proof.
  intros Hwf c. unfold c, run_event.
  destruct (run_handler_cells cfg (handler cfg EvClearAllErrors) w) as (Hv & _ & He & _).
  cbn [handler] in *. unfold clearAllErrors in *.
  destruct (for_each_setError_cells (obj_keys (formErrors (w_cells w))) (fun _ => JNull) w)
    as (H1 & H2 & _). cbv beta in H1, H2.
  rewrite He, Hv, H1, H2. split; [by apply hasErrors_clear|]. split; [|done].
  by apply (obj_keys_fold_setError _ (fun _ => JNull)).
Qed.

(** C21: [setError(k, v)] with [v] not [null] (spec 7: [hasErrors] flips true
    immediately on any per-field error): the committed map holds [v] for
    [k] and [hasErrors] is true. *)
Theorem setError_shows_error k v w :
  obj_wf (formErrors (w_cells w)) -> strict_eq v JNull = false ->
  let c := w_cells (exec (run_event cfg (EvSetError k v)) w) in
  obj_get (formErrors c) k = v /\ hasErrors (formErrors c) = true.
Proof.
  intros Hwf Hv c. unfold c, run_event.
  destruct (run_handler_cells cfg (handler cfg (EvSetError k v)) w) as (_ & _ & He & _).
  rewrite He. cbn [handler].
  replace (formErrors (w_cells (exec (setError k v) w))) with (setError_upd k v (formErrors (w_cells w)))
    by (by destruct w as [[] ? ? ? ? ?]).
  split; [apply obj_get_setError_upd|by apply hasErrors_setError].
Qed.

End StoreClaims.

Lemma setAllErrors_roundtrip_witness :
  obj_get (formErrors (w_cells (exec (run_event cfg_ok (EvSetAllErrors (AObj [("b", JString "too big")])))
                                 w_error))) "a"
  = JString "required".
Proof.
  rewrite (setAllErrors_roundtrip cfg_ok [("b", JString "too big")] w_error "a") by concrete.
  concrete.
Defined.

(** Resetting after [a] was changed to 9 restores [{a: 1, b: 2}]. *)
Lemma resetForm_restores_witness :
  let c := w_cells (exec (run_event cfg_ok EvResetForm) w_edited) in
  formValues c = d_ab /\ formErrors c = all_null d_ab /\
  hasErrors (formErrors c) = false /\ submitting c = false.
Proof. apply (resetForm_restores cfg_ok w_edited). concrete. Defined.

Lemma clearAllErrors_clears_witness :
  hasErrors (formErrors (w_cells w_error)) = true /\
  let c := w_cells (exec (run_event cfg_ok EvClearAllErrors) w_error) in
  hasErrors (formErrors c) = false /\ obj_keys (formErrors c) = obj_keys (formErrors (w_cells w_error)) /\
  formValues c = formValues (w_cells w_error).
Proof. split; [concrete|]. apply clearAllErrors_clears. concrete. Defined.

Lemma setError_shows_error_witness :
  let c := w_cells (exec (run_event cfg_ok (EvSetError "b" (JString "too big"))) (initial cfg_ok)) in
  obj_get (formErrors c) "b" = JString "too big" /\ hasErrors (formErrors c) = true.
Proof. apply setError_shows_error; concrete. Defined.

