(* ===== verification/SubmitFlow.v ===== *)
(** * The submission state machine end to end (spec 4.6, 7, 8)

    [handleSubmit] run as a React event: its updates are committed, the
    submission effect starts [_onSubmit] in the new render, and each
    suspended [_onSubmit] is later resumed.  The theorems follow one
    submission attempt through these steps and state which hooks are
    called, with which snapshot, and what [submitting] becomes. *)

From stdpp Require Import base list strings decidable sets.
From S2P Require Import Prelude JsValue JsObject Stores Hooks Pipeline Submission Lifecycle Invariants Scenarios ChangeFlow StoreFlow.
Import ValueStore ErrorStore.

Lemma deps_fieldDidChange_same_eq a b :
  fieldChanged a = fieldChanged b -> formValues a = formValues b ->
  deps_fieldDidChange_same a b = true.
Proof.
  intros Hf Hv. unfold deps_fieldDidChange_same. rewrite Hf, Hv, bool_decide_eq_true_2 by done.
  apply same_value_refl.
Qed.

Lemma cells_same_submitting_ne a b : submitting a ≠ submitting b -> cells_same a b = false.
Proof.
  intros H. unfold cells_same. destruct (submitting a), (submitting b); try done;
    simpl; rewrite ?andb_false_r; done.
Qed.

Lemma deps_submit_submitting_ne a b : submitting a ≠ submitting b -> deps_submit_same a b = false.
Proof. intros H. unfold deps_submit_same. by destruct (submitting a), (submitting b). Qed.

Lemma deps_submit_errors_ne a b : errors_id a ≠ errors_id b -> deps_submit_same a b = false.
Proof. intros H. unfold deps_submit_same. rewrite bool_decide_eq_false_2 by done. apply andb_false_r. Qed.

Lemma cells_same_errors_ne a b : errors_id a ≠ errors_id b -> cells_same a b = false.
Proof.
  intros H. unfold cells_same. rewrite (bool_decide_eq_false_2 (errors_id a = errors_id b)) by done.
  by rewrite andb_false_r.
Qed.

Section Submit.
Context (cfg : config).

(** A render in which only the submission effect's dependencies changed,
    with [submitting] true, starts [_onSubmit] in that render. *)
Lemma render_commit_submit p w :
  deps_fieldDidChange_same p (w_cells w) = true -> deps_submit_same p (w_cells w) = false ->
  submitting (w_cells w) = true ->
  exec (render_commit cfg (Some p)) w
  = exec (_onSubmit cfg (w_cells w)) (set_trace (w_trace w ++ render_calls cfg (w_cells w)) w).
Proof.
  intros Hf Hs Hsub. destruct w as [c ref ts tr nx mo]; simpl in *.
  unfold render_commit, exec, st_bind, st_get. simpl. rewrite Hf, Hs.
  unfold effect_submit. rewrite Hsub. unfold render_calls, emit_if, emit, st_modify, st_ret.
  destruct (formWillMount cfg); simpl; [|by rewrite app_nil_r].
  by destruct (_onSubmit cfg c _).
Qed.

(** [handleSubmit] without [formOnSubmit]: [preventDefault], then
    [submitting] and a cleared error map are enqueued. *)
Lemma handleSubmit_default w :
  formOnSubmit cfg = false ->
  let w1 := exec (handleSubmit cfg (w_cells w)) w in
  formErrors (w_cells w1)
    = fold_left (fun acc k => setError_upd k JNull acc) (obj_keys (formErrors (w_cells w)))
        (formErrors (w_cells w)) /\
  formValues (w_cells w1) = formValues (w_cells w) /\ submitting (w_cells w1) = true /\
  fieldChanged (w_cells w1) = fieldChanged (w_cells w) /\
  w_trace w1 = w_trace w ++ [CPreventDefault] /\ w_tasks w1 = w_tasks w /\
  w_ref w1 = w_ref w /\ w_mounted w1 = w_mounted w.
Proof.
  intros Hos w1.
  set (w0 := set_cells (mkCells (formValues (w_cells w)) (values_id (w_cells w))
               (formErrors (w_cells w)) (errors_id (w_cells w)) true (fieldChanged (w_cells w)))
               (set_trace (w_trace w ++ [CPreventDefault]) w)).
  assert (Hw1 : w1 = exec (clearAllErrors (w_cells w)) w0).
  { unfold w1, handleSubmit. rewrite Hos. by destruct w as [[] ? ? ? ? ?]. }
  rewrite Hw1. unfold clearAllErrors.
  destruct (for_each_setError_cells (obj_keys (formErrors (w_cells w))) (fun _ => JNull) w0)
    as (H1 & H2 & H3 & H4 & H5 & H6 & H7 & H8 & H9).
  cbv beta in H1, H2, H4, H5, H6, H7, H8, H9.
  rewrite H1, H2, H4, H5, H6, H7, H8, H9. by destruct w as [[] ? ? ? ? ?].
Qed.

(** The default gate passes exactly when the render has no error. *)
Lemma onSubmit_default_gate c w f :
  shouldFormSubmit cfg = None -> formDidSubmit cfg = Some f -> hasErrors (formErrors c) = false ->
  exists rest, w_trace (exec (_onSubmit cfg c) w) = w_trace w ++ CFormDidSubmit (snapshot_of cfg c) :: rest.
Proof.
  intros Hg Hf He. unfold _onSubmit, submit_after_gate, shouldFormSubmitDefault, submit_try.
  rewrite Hg, He, Hf. simpl. destruct (f (snapshot_of cfg c)); simpl.
  - eexists. rewrite <- ?app_assoc. reflexivity.
  - eexists. rewrite <- ?app_assoc. reflexivity.
  - unfold submit_catch_finally, emit_if. destruct (submitDidCatch cfg), (formDidFinally cfg);
      simpl; eexists; rewrite <- ?app_assoc; reflexivity.
Qed.

Lemma elem_of_calls_of_in (m : FM unit) w L x :
  w_trace w ++ L `prefix_of` w_trace (exec m w) -> x ∈ L -> x ∈ calls_of m w.
Proof.
  intros [l Hl] Hx. unfold calls_of. rewrite Hl, <- !app_assoc, drop_app_length. set_solver.
Qed.

Lemma elem_of_calls_of (m : FM unit) w x pre rest :
  w_trace w ++ pre ++ x :: rest `prefix_of` w_trace (exec m w) -> x ∈ calls_of m w.
Proof.
  intros [l Hl]. unfold calls_of. rewrite Hl, <- !app_assoc, drop_app_length.
  set_solver.
Qed.

(** A first commit round in which only the submission effect's
    dependencies changed, with [submitting] true: the effect runs
    [_onSubmit] in the render of the handler's state, and whatever it
    appends to the trace stays in it. *)
Lemma submit_round_prefix p w :
  cells_same p (w_cells w) = false -> deps_fieldDidChange_same p (w_cells w) = true ->
  deps_submit_same p (w_cells w) = false -> submitting (w_cells w) = true ->
  w_trace (exec (_onSubmit cfg (w_cells w)) (set_trace (w_trace w ++ render_calls cfg (w_cells w)) w))
    `prefix_of` w_trace (exec (flush cfg commit_fuel p) w).
Proof.
  intros Hc Hf Hs Hw. unfold commit_fuel.
  rewrite flush_round by done. rewrite render_commit_submit by done.
  apply flush_trace_prefix. done.
Qed.

Lemma submit_commit_prefix p w :
  submitting p = false -> submitting (w_cells w) = true ->
  fieldChanged p = fieldChanged (w_cells w) -> formValues p = formValues (w_cells w) ->
  w_trace (exec (_onSubmit cfg (w_cells w)) (set_trace (w_trace w ++ render_calls cfg (w_cells w)) w))
    `prefix_of` w_trace (exec (flush cfg commit_fuel p) w).
Proof.
  intros Hp Hw Hf Hv. apply submit_round_prefix; try done.
  - apply cells_same_submitting_ne; congruence.
  - by apply deps_fieldDidChange_same_eq.
  - apply deps_submit_submitting_ne; congruence.
Qed.

(** A submit without [formOnSubmit] or a caller gate, whose handler
    changed the submission effect's dependencies (through [submitting]
    or a fresh error map), calls [formDidSubmit] in the handler's render:
    the default gate sees the error map the handler just cleared. *)
Lemma submit_reaches_formDidSubmit w f :
  formOnSubmit cfg = false -> shouldFormSubmit cfg = None -> formDidSubmit cfg = Some f ->
  obj_wf (formErrors (w_cells w)) ->
  let w1 := exec (handleSubmit cfg (w_cells w)) w in
  cells_same (w_cells w) (w_cells w1) = false -> deps_submit_same (w_cells w) (w_cells w1) = false ->
  CFormDidSubmit (snapshot_of cfg (w_cells w1)) ∈ calls_of (run_event cfg EvSubmit) w /\
  s_hasErrors (snapshot_of cfg (w_cells w1)) = false /\ s_submitting (snapshot_of cfg (w_cells w1)) = true.
Proof.
  intros Hos Hg Hfd Hwf w1 Hc Hd.
  destruct (handleSubmit_default w Hos) as (He & Hv & Hs & Hf & Htr & _). fold w1 in He, Hv, Hs, Hf, Htr.
  assert (Hne : hasErrors (formErrors (w_cells w1)) = false) by (rewrite He; by apply hasErrors_clear).
  destruct (onSubmit_default_gate (w_cells w1)
              (set_trace (w_trace w1 ++ render_calls cfg (w_cells w1)) w1) f Hg Hfd Hne) as [rest Hrest].
  split; [|done].
  apply (elem_of_calls_of _ _ _ ([CPreventDefault] ++ render_calls cfg (w_cells w1)) rest).
  unfold run_event. rewrite exec_run_handler. cbn [handler]. fold w1.
  replace (w_trace w ++ ([CPreventDefault] ++ render_calls cfg (w_cells w1))
             ++ CFormDidSubmit (snapshot_of cfg (w_cells w1)) :: rest)
    with (w_trace (exec (_onSubmit cfg (w_cells w1))
                     (set_trace (w_trace w1 ++ render_calls cfg (w_cells w1)) w1)))
    by (rewrite Hrest; simpl; rewrite Htr; by rewrite <- !app_assoc).
  apply submit_round_prefix; try done. by apply deps_fieldDidChange_same_eq.
Qed.

(** The error map [handleSubmit] leaves is a fresh object when the form
    has a field. *)
Lemma handleSubmit_errors_id w :
  formOnSubmit cfg = false -> obj_keys (formErrors (w_cells w)) ≠ [] ->
  w_next w <= errors_id (w_cells (exec (handleSubmit cfg (w_cells w)) w)).
Proof.
  intros Hos Hk. unfold handleSubmit. rewrite Hos.
  rewrite !exec_seq. unfold clearAllErrors.
  destruct (for_each_setError_ids (obj_keys (formErrors (w_cells w))) (fun _ => JNull)
              (exec (set_submitting true) (exec (emit CPreventDefault) w))) as (_ & H).
  cbv zeta in H. rewrite H by done. destruct w as [[] ? ? ? ? ?]. simpl.
  destruct (obj_keys _); [done|simpl; lia].
Qed.

(** The render after a change enqueued while a submission is in
    flight, when the change also replaced the error map: the "did change"
    effect clears the marker, then the submission effect starts
    [_onSubmit] again in that render. *)
Lemma render_commit_fc_submit p w k :
  deps_fieldDidChange_same p (w_cells w) = false -> deps_submit_same p (w_cells w) = false ->
  submitting (w_cells w) = true -> fieldChanged (w_cells w) = Some k -> k ≠ "" ->
  exec (render_commit cfg (Some p)) w
  = exec (_onSubmit cfg (w_cells w))
      (set_cells (with_fc (w_cells w) None)
        (set_trace (w_trace w ++ render_calls cfg (w_cells w)
           ++ (if fieldDidChange cfg
               then [CFieldDidChange (w_ref w) k (obj_get (formValues (w_cells w)) k)] else [])) w)).
Proof.
  intros Hf Hs Hsub Hc Hk. destruct w as [c ref ts tr nx mo]; simpl in *.
  unfold render_commit, exec, st_bind, st_get; simpl. rewrite Hf, Hs.
  unfold effect_fieldDidChange. rewrite Hc, bool_decide_eq_true_2 by done.
  unfold effect_submit. rewrite Hsub.
  unfold render_calls, emit_if, emit, set_fieldChanged, modify_cells, st_modify, st_ret.
  destruct (formWillMount cfg), (fieldDidChange cfg); simpl;
    unfold with_fc, set_cells, set_trace; simpl; rewrite <- ?app_assoc, ?app_nil_r;
    by destruct (_onSubmit cfg c _).
Qed.

(** When the effects after a task only cleared the cells, the commit loop
    renders at most once and changes nothing but the trace. *)
Lemma flush_after_clear p w :
  cleared p (w_cells w) ->
  exec (flush cfg commit_fuel p) w
  = if cells_same p (w_cells w) then w else set_trace (w_trace w ++ render_calls cfg (w_cells w)) w.
Proof.
  intros Hc. unfold commit_fuel. destruct (cells_same p (w_cells w)) eqn:E.
  - by apply flush_same.
  - rewrite flush_round by done. rewrite render_commit_stable by done.
    apply flush_same. apply cells_same_refl.
Qed.

(** A submit from a settled form, without [formOnSubmit], whose
    [_onSubmit] suspends with tasks [ts] after appending [L]: the handler's
    render, then [_onSubmit] in it, and nothing else. *)
Lemma submit_suspends w ts L :
  formOnSubmit cfg = false -> submitting (w_cells w) = false ->
  let w1 := exec (handleSubmit cfg (w_cells w)) w in
  let x := set_trace (w_trace w1 ++ render_calls cfg (w_cells w1)) w1 in
  exec (_onSubmit cfg (w_cells w1)) x = set_tasks (w_tasks x ++ ts) (set_trace (w_trace x ++ L) x) ->
  exec (run_event cfg EvSubmit) w
  = set_tasks (w_tasks w ++ ts)
      (set_trace (w_trace w ++ [CPreventDefault] ++ render_calls cfg (w_cells w1) ++ L) w1).
Proof.
  intros Hos Hsub w1 x Hx.
  destruct (handleSubmit_default w Hos) as (He & Hv & Hs & Hf & Htr & Hts & _).
  fold w1 in He, Hv, Hs, Hf, Htr, Hts.
  unfold run_event. rewrite exec_run_handler. cbn [handler]. fold w1. unfold commit_fuel.
  rewrite flush_result by (apply cells_same_submitting_ne; congruence).
  rewrite render_commit_submit
    by (done || apply deps_fieldDidChange_same_eq || apply deps_submit_submitting_ne; congruence).
  fold x. rewrite Hx. simpl. rewrite cells_same_refl.
  unfold x. destruct w1 as [c1 r1 t1 tr1 n1 m1]. simpl in *. subst. f_equal.
  by rewrite <- !app_assoc.
Qed.

(** Resuming a suspended [_onSubmit] in a mounted form. *)
Lemma exec_resume i t w :
  w_tasks w !! i = Some t -> w_mounted w = true ->
  exec (resume cfg i) w
  = exec (flush cfg commit_fuel (w_cells w)) (exec (resume_task cfg t) (set_tasks (delete i (w_tasks w)) w)).
Proof.
  intros Ht Hm. unfold resume, exec, st_bind, st_get. simpl. rewrite Ht. simpl. rewrite Hm.
  by destruct (resume_task cfg t _).
Qed.

(** The error a settled submit promise carries into [catch]. *)
Definition settle_error (o : settle) : option jsval :=
  match o with Fulfilled _ => None | Rejected e | Thrown e => Some e end.

(** The hooks [catch] and [finally] call, in the closure of [r]. *)
Definition finally_calls (r : cells) (err : option jsval) : list call :=
  (match err with
   | Some e => if submitDidCatch cfg then [CSubmitDidCatch (snapshot_of cfg r) e] else [CConsoleError e]
   | None => []
   end) ++ (if formDidFinally cfg then [CFormDidFinally (snapshot_of cfg r)] else []).

Lemma exec_submit_catch_finally r err w :
  exec (submit_catch_finally cfg r err) w
  = set_cells (mkCells (formValues (w_cells w)) (values_id (w_cells w)) (formErrors (w_cells w))
                 (errors_id (w_cells w)) false (fieldChanged (w_cells w)))
      (set_trace (w_trace w ++ finally_calls r err) w).
Proof.
  unfold submit_catch_finally, finally_calls, emit_if.
  destruct err as [e|], (submitDidCatch cfg), (formDidFinally cfg);
    destruct w as [[] ? ? ? ? ?]; unfold exec, st_bind, emit, st_modify, st_ret; simpl;
    by rewrite <- ?app_assoc, ?app_nil_r.
Qed.

End Submit.

Section SubmitClaims.
Context (cfg : config).

(** C4: The default gate cannot reject after [handleSubmit]: the handler
    clears every error in the same batch as it sets [submitting], so the
    render in which the submission effect evaluates [!hasErrors] has no
    error.  [formDidSubmit] is called whatever errors the form showed when
    the user submitted (spec 4.6a and 9 take the default gate to be "no
    field currently has an error"). *)
Theorem submit_default_gate_passes w f :
  formOnSubmit cfg = false -> shouldFormSubmit cfg = None -> formDidSubmit cfg = Some f ->
  submitting (w_cells w) = false -> obj_wf (formErrors (w_cells w)) ->
  exists s, CFormDidSubmit s ∈ calls_of (run_event cfg EvSubmit) w /\
            s_hasErrors s = false /\ s_submitting s = true.
Proof.
  intros Hos Hg Hfd Hsub Hwf.
  destruct (handleSubmit_default cfg w Hos) as (_ & _ & Hs & _).
  eexists. apply (submit_reaches_formDidSubmit cfg w f); try done.
  - apply cells_same_submitting_ne; congruence.
  - apply deps_submit_submitting_ne; congruence.
Qed.

(** C2: Duplicate submission (spec 4.6, re-entrancy rule): a second submit
    while a submission is in flight, in a form with at least one field,
    runs the built-in sequence again: [handleSubmit] replaces the error
    map by a new object, the submission effect's dependencies change,
    and [formDidSubmit] is called a second time.  Nothing guards on
    [submitting] already being true. *)
Theorem submit_while_submitting_resubmits w f :
  reachable cfg w ->
  formOnSubmit cfg = false -> shouldFormSubmit cfg = None -> formDidSubmit cfg = Some f ->
  submitting (w_cells w) = true ->
  obj_wf (formErrors (w_cells w)) -> obj_keys (formErrors (w_cells w)) ≠ [] ->
  exists s, CFormDidSubmit s ∈ calls_of (run_event cfg EvSubmit) w /\ s_submitting s = true.
Proof.
  intros Hr Hos Hg Hfd Hsub Hwf Hk.
  destruct (reachable_fresh cfg w Hr) as [_ Hfresh].
  pose proof (handleSubmit_errors_id cfg w Hos Hk) as Hid.
  edestruct (submit_reaches_formDidSubmit cfg w f) as (Hin & _ & Hs); try done.
  - apply cells_same_errors_ne; lia.
  - apply deps_submit_errors_ne; lia.
  - eexists. split; [exact Hin|exact Hs].
Qed.

(** C1: Re-entrancy past the gate (spec 4.6): a field edit through the
    default reducer while [formDidSubmit] is pending writes [null] to the
    field's error, a new error map; the submission effect fires again and,
    the form still having no error, calls [formDidSubmit] a second time
    for the same attempt, with the edited value (spec 4.6 requires a guard
    against exactly this). *)
Theorem edit_during_submission_resubmits w k v f :
  reachable cfg w ->
  fieldOnChange cfg = false -> shouldFormSubmit cfg = None -> formDidSubmit cfg = Some f ->
  k ≠ "" -> submitting (w_cells w) = true -> fieldChanged (w_cells w) = None ->
  obj_wf (formErrors (w_cells w)) -> hasErrors (formErrors (w_cells w)) = false ->
  exists s, CFormDidSubmit s ∈ calls_of (run_event cfg (EvSetFormField k v)) w /\
            s_submitting s = true /\ obj_get (s_formValues s) k = v.
Proof.
  intros Hr Hoc Hg Hfd Hk Hsub Hfc Hwf He.
  destruct (reachable_fresh cfg w Hr) as [_ Hfresh].
  set (w1 := after_default w k v).
  assert (Hc1 : fieldChanged (w_cells w1) = Some k /\ submitting (w_cells w1) = true /\
                errors_id (w_cells w1) = S (w_next w) /\
                formErrors (w_cells w1) = setError_upd k JNull (formErrors (w_cells w)))
    by (unfold w1, after_default; simpl; by rewrite Hsub).
  destruct Hc1 as (Hfc1 & Hs1 & Hid1 & He1).
  assert (Hne : hasErrors (formErrors (w_cells w1)) = false)
    by (rewrite He1; by apply hasErrors_setError_null).
  set (x := set_cells (with_fc (w_cells w1) None)
              (set_trace (w_trace w1 ++ render_calls cfg (w_cells w1)
                 ++ (if fieldDidChange cfg
                     then [CFieldDidChange (w_ref w1) k (obj_get (formValues (w_cells w1)) k)]
                     else [])) w1)).
  destruct (onSubmit_default_gate cfg (w_cells w1) x f Hg Hfd Hne) as [rest Hrest].
  exists (snapshot_of cfg (w_cells w1)). split; [|split; [done|]].
  2:{ unfold w1, after_default. simpl. apply obj_get_setForm_upd. }
  apply (elem_of_calls_of _ _ _ (render_calls cfg (w_cells w1) ++
           (if fieldDidChange cfg
            then [CFieldDidChange (w_ref w1) k (obj_get (formValues (w_cells w1)) k)] else [])) rest).
  unfold run_event. rewrite exec_run_handler. cbn [handler]. unfold setFormField.
  rewrite _changeValue_default, exec_onFieldChangingDefault by done. fold w1. unfold commit_fuel.
  rewrite flush_round by (apply cells_same_fc_ne; congruence).
  rewrite render_commit_fc_submit with (k := k); try done;
    [|apply deps_fieldDidChange_fc_ne; congruence|apply deps_submit_errors_ne; lia].
  fold x. eapply (flush_trace_prefix cfg _ 3 (w_cells w1)).
  rewrite Hrest. unfold x. simpl. by rewrite <- !app_assoc.
Qed.

(** C6: [formOnSubmit] does not replace the built-in sequence (spec 4.6: the
    override "is solely responsible for driving the rest of the sequence
    ... the built-in sequence below is skipped"): [handleSubmit] still
    sets [submitting], so the submission effect runs the default gate and,
    in a form without errors, calls [formDidSubmit] after the override. *)
Theorem submit_override_not_exclusive w f :
  formOnSubmit cfg = true -> shouldFormSubmit cfg = None -> formDidSubmit cfg = Some f ->
  submitting (w_cells w) = false -> hasErrors (formErrors (w_cells w)) = false ->
  (exists s, CFormOnSubmit s ∈ calls_of (run_event cfg EvSubmit) w) /\
  (exists s, CFormDidSubmit s ∈ calls_of (run_event cfg EvSubmit) w).
Proof.
  intros Hos Hg Hfd Hsub He.
  set (s0 := with_submitting (snapshot_of cfg (w_cells w)) true).
  set (w1 := exec (handleSubmit cfg (w_cells w)) w).
  assert (Hw1 : w1 = set_cells (mkCells (formValues (w_cells w)) (values_id (w_cells w)) (formErrors (w_cells w))
                                 (errors_id (w_cells w)) true (fieldChanged (w_cells w)))
                       (set_trace ((w_trace w ++ [CPreventDefault]) ++ [CFormOnSubmit s0]) w))
    by (unfold w1, s0, handleSubmit; rewrite Hos; by destruct w as [[] ? ? ? ? ?]).
  assert (Hne : hasErrors (formErrors (w_cells w1)) = false) by (by rewrite Hw1).
  destruct (onSubmit_default_gate cfg (w_cells w1)
              (set_trace (w_trace w1 ++ render_calls cfg (w_cells w1)) w1) f Hg Hfd Hne) as [rest Hrest].
  assert (Hpre : w_trace (exec (_onSubmit cfg (w_cells w1))
                   (set_trace (w_trace w1 ++ render_calls cfg (w_cells w1)) w1))
                 `prefix_of` w_trace (exec (run_event cfg EvSubmit) w)).
  { unfold run_event. rewrite exec_run_handler. cbn [handler]. fold w1.
    apply submit_commit_prefix; try rewrite Hw1; simpl; congruence. }
  rewrite Hrest, Hw1 in Hpre. simpl in Hpre. rewrite <- !app_assoc in Hpre. simpl in Hpre.
  split; eexists; (eapply elem_of_calls_of_in; [exact Hpre|]).
  - apply list_elem_of_further, list_elem_of_here.
  - do 2 apply list_elem_of_further. apply elem_of_app. right. apply list_elem_of_here.
Qed.

(** A submission whose [formDidSubmit] promise settles [o] (not a
    synchronous throw), from a settled form: [_onSubmit] suspends on it. *)
Lemma submit_default_suspends w f o :
  formOnSubmit cfg = false -> shouldFormSubmit cfg = None -> formDidSubmit cfg = Some f ->
  submitting (w_cells w) = false -> obj_wf (formErrors (w_cells w)) ->
  (forall s, f s = o) -> (forall e, o ≠ Thrown e) ->
  let w1 := exec (handleSubmit cfg (w_cells w)) w in
  exec (run_event cfg EvSubmit) w
  = set_tasks (w_tasks w ++ [TSubmit (w_cells w1) o])
      (set_trace (w_trace w ++ [CPreventDefault] ++ render_calls cfg (w_cells w1)
                  ++ [CFormDidSubmit (snapshot_of cfg (w_cells w1))]) w1).
Proof.
  intros Hos Hg Hfd Hsub Hwf Hf Ho w1.
  destruct (handleSubmit_default cfg w Hos) as (He & _). fold w1 in He.
  apply submit_suspends; [done|done|].
  unfold _onSubmit, submit_after_gate, shouldFormSubmitDefault, submit_try.
  rewrite Hg, Hfd, Hf. fold w1. rewrite He, hasErrors_clear by done. simpl.
  clearbody w1. destruct o as [v|e|e]; [| |by destruct (Ho e)]; by destruct w1.
Qed.

(** Resuming the pending [formDidSubmit] of a submission started from a
    settled form: [catch] / [finally] run in the closure of the render
    that started it, [submitting] is reset, and one more render follows. *)
Lemma resume_pending_submit w f o :
  formOnSubmit cfg = false -> shouldFormSubmit cfg = None -> formDidSubmit cfg = Some f ->
  (forall s, f s = o) -> (forall e, o ≠ Thrown e) ->
  submitting (w_cells w) = false -> obj_wf (formErrors (w_cells w)) ->
  w_tasks w = [] -> w_mounted w = true ->
  let w1 := exec (run_event cfg EvSubmit) w in
  let c1 := w_cells (exec (handleSubmit cfg (w_cells w)) w) in
  let c2 := mkCells (formValues c1) (values_id c1) (formErrors c1) (errors_id c1) false (fieldChanged c1) in
  exec (resume cfg 0) w1
  = set_trace (w_trace w1 ++ finally_calls cfg c1 (settle_error o) ++ render_calls cfg c2)
      (set_cells c2 (set_tasks [] w1)).
Proof.
  intros Hos Hg Hfd Hf Ho Hsub Hwf Hts Hm w1 c1 c2.
  destruct (handleSubmit_default cfg w Hos) as (_ & _ & Hs1 & _ & _ & Hts1 & _ & Hm1).
  pose proof (submit_default_suspends w f o Hos Hg Hfd Hsub Hwf Hf Ho) as Hw1.
  cbv zeta in Hw1. fold w1 c1 in Hw1. fold c1 in Hs1, Hts1, Hm1.
  assert (Hc1 : w_cells w1 = c1) by (by rewrite Hw1).
  rewrite exec_resume with (t := TSubmit c1 o); [|by rewrite Hw1, Hts|by rewrite Hw1; simpl; congruence].
  assert (Hin : exec (resume_task cfg (TSubmit c1 o)) (set_tasks (delete 0 (w_tasks w1)) w1)
                = set_cells c2 (set_trace (w_trace w1 ++ finally_calls cfg c1 (settle_error o))
                                  (set_tasks [] w1))).
  { replace (resume_task cfg (TSubmit c1 o)) with (submit_catch_finally cfg c1 (settle_error o))
      by (destruct o as [v|e|e]; [done|done|by destruct (Ho e)]).
    rewrite exec_submit_catch_finally. unfold c2. rewrite Hw1, Hts. reflexivity. }
  rewrite Hin, Hc1, flush_after_clear by (unfold cleared, c2; simpl; naive_solver).
  rewrite cells_same_submitting_ne by (unfold c2; simpl; congruence).
  rewrite Hw1. simpl. by rewrite <- !app_assoc.
Qed.

(** C5: Failure routing (spec 7, 8): a [formDidSubmit] whose promise rejects,
    with no [submitDidCatch], is reported to [console.error] and not
    re-raised, [formDidFinally] is called, and [submitting] ends false.
    But [formDidFinally] receives the snapshot of the render in which the
    submission started, with [submitting = true] (spec 8 expects the
    finally hook to see [submitting == false]). *)
Theorem submit_failure_routed w f e :
  formOnSubmit cfg = false -> shouldFormSubmit cfg = None -> formDidSubmit cfg = Some f ->
  (forall s, f s = Rejected e) -> submitDidCatch cfg = false -> formDidFinally cfg = true ->
  submitting (w_cells w) = false -> obj_wf (formErrors (w_cells w)) ->
  w_tasks w = [] -> w_mounted w = true ->
  let w1 := exec (run_event cfg EvSubmit) w in
  exists s, hook_calls (calls_of (resume cfg 0) w1) = [CConsoleError e; CFormDidFinally s] /\
            s_submitting s = true /\ submitting (w_cells (exec (resume cfg 0) w1)) = false.
Proof.
  intros Hos Hg Hfd Hf Hc Hfin Hsub Hwf Hts Hm w1.
  pose proof (resume_pending_submit w f (Rejected e) Hos Hg Hfd Hf ltac:(congruence) Hsub Hwf Hts Hm)
    as Hw2. cbv zeta in Hw2. fold w1 in Hw2.
  destruct (handleSubmit_default cfg w Hos) as (_ & _ & Hs1 & _).
  eexists. split; [|split; [|by rewrite Hw2]].
  - erewrite calls_of_app by (rewrite Hw2; reflexivity).
    rewrite hook_calls_app, hook_calls_render. unfold finally_calls. simpl.
    rewrite Hc, Hfin. reflexivity.
  - done.
Qed.

(** C8: The success path (spec 4.6 d): a [formDidSubmit] whose promise
    fulfils calls no catch hook and no [console.error]; [formDidFinally]
    is called once and [submitting] ends false. *)
Theorem submit_success_finally w f v :
  formOnSubmit cfg = false -> shouldFormSubmit cfg = None -> formDidSubmit cfg = Some f ->
  (forall s, f s = Fulfilled v) ->
  submitting (w_cells w) = false -> obj_wf (formErrors (w_cells w)) ->
  w_tasks w = [] -> w_mounted w = true ->
  let w1 := exec (run_event cfg EvSubmit) w in
  hook_calls (calls_of (resume cfg 0) w1)
  = (if formDidFinally cfg
     then [CFormDidFinally (snapshot_of cfg (w_cells (exec (handleSubmit cfg (w_cells w)) w)))] else []) /\
  submitting (w_cells (exec (resume cfg 0) w1)) = false /\ w_tasks (exec (resume cfg 0) w1) = [].
Proof.
  intros Hos Hg Hfd Hf Hsub Hwf Hts Hm w1.
  pose proof (resume_pending_submit w f (Fulfilled v) Hos Hg Hfd Hf ltac:(congruence) Hsub Hwf Hts Hm)
    as Hw2. cbv zeta in Hw2. fold w1 in Hw2.
  split; [|by rewrite Hw2].
  erewrite calls_of_app by (rewrite Hw2; reflexivity).
  rewrite hook_calls_app, hook_calls_render, app_nil_r. unfold finally_calls. simpl.
  by destruct (formDidFinally cfg).
Qed.

(** A submission through a caller gate whose promise settles [o]:
    [_onSubmit] calls the gate and suspends on it. *)
Lemma submit_gate_suspends w g o :
  formOnSubmit cfg = false -> shouldFormSubmit cfg = Some g ->
  submitting (w_cells w) = false -> (forall s, g s = o) -> (forall e, o ≠ Thrown e) ->
  let w1 := exec (handleSubmit cfg (w_cells w)) w in
  exec (run_event cfg EvSubmit) w
  = set_tasks (w_tasks w ++ [TGate (w_cells w1) o])
      (set_trace (w_trace w ++ [CPreventDefault] ++ render_calls cfg (w_cells w1)
                  ++ [CShouldFormSubmit (snapshot_of cfg (w_cells w1))]) w1).
Proof.
  intros Hos Hg Hsub Hgo Ho w1. apply submit_suspends; [done|done|].
  unfold _onSubmit. rewrite Hg, Hgo. fold w1. clearbody w1.
  destruct o as [v|e|e]; [| |by destruct (Ho e)]; by destruct w1.
Qed.

(** Resuming the pending gate of a submission started from a settled
    form: the continuation runs in the closure of the handler's render,
    then the commit loop. *)
Lemma resume_pending_gate w g o :
  formOnSubmit cfg = false -> shouldFormSubmit cfg = Some g ->
  (forall s, g s = o) -> (forall e, o ≠ Thrown e) ->
  submitting (w_cells w) = false -> w_tasks w = [] -> w_mounted w = true ->
  let w1 := exec (run_event cfg EvSubmit) w in
  let c1 := w_cells (exec (handleSubmit cfg (w_cells w)) w) in
  w1 = set_tasks [TGate c1 o] (set_trace (w_trace w ++ [CPreventDefault] ++ render_calls cfg c1
                                            ++ [CShouldFormSubmit (snapshot_of cfg c1)])
                                 (exec (handleSubmit cfg (w_cells w)) w)) /\
  submitting c1 = true /\
  exec (resume cfg 0) w1
  = exec (flush cfg commit_fuel c1) (exec (resume_task cfg (TGate c1 o)) (set_tasks [] w1)).
Proof.
  intros Hos Hg Hgo Ho Hsub Hts Hm w1 c1.
  destruct (handleSubmit_default cfg w Hos) as (_ & _ & Hs1 & _ & _ & Hts1 & _ & Hm1).
  pose proof (submit_gate_suspends w g o Hos Hg Hsub Hgo Ho) as Hw1.
  cbv zeta in Hw1. fold w1 c1 in Hw1. rewrite Hts in Hw1. split; [done|]. split; [done|].
  rewrite exec_resume with (t := TGate c1 o); [|by rewrite Hw1|by rewrite Hw1; simpl; congruence].
  f_equal; [by rewrite Hw1|]. f_equal. by rewrite Hw1.
Qed.

(** C7: Gate rejection (spec 8): a gate that answers [false] ends the attempt
    with [submitting = false]; neither [formDidSubmit], [submitDidCatch]
    nor [formDidFinally] is called. *)
Theorem submit_gate_rejects w g v :
  formOnSubmit cfg = false -> shouldFormSubmit cfg = Some g ->
  (forall s, g s = Fulfilled v) -> truthy v = false ->
  submitting (w_cells w) = false -> w_tasks w = [] -> w_mounted w = true ->
  let w1 := exec (run_event cfg EvSubmit) w in
  (exists s, hook_calls (calls_of (run_event cfg EvSubmit) w) = [CPreventDefault; CShouldFormSubmit s]) /\
  hook_calls (calls_of (resume cfg 0) w1) = [] /\
  submitting (w_cells (exec (resume cfg 0) w1)) = false /\ w_tasks (exec (resume cfg 0) w1) = [].
Proof.
  intros Hos Hg Hgo Hv Hsub Hts Hm w1.
  destruct (resume_pending_gate w g (Fulfilled v) Hos Hg Hgo ltac:(congruence) Hsub Hts Hm)
    as (Hw1 & Hs1 & Hr). cbv zeta in Hw1, Hs1, Hr. fold w1 in Hw1, Hr.
  set (c1 := w_cells (exec (handleSubmit cfg (w_cells w)) w)) in *.
  set (c2 := mkCells (formValues c1) (values_id c1) (formErrors c1) (errors_id c1) false (fieldChanged c1)).
  assert (Hw2 : exec (resume cfg 0) w1
                = set_trace (w_trace w1 ++ render_calls cfg c2) (set_cells c2 (set_tasks [] w1))).
  { rewrite Hr. cbn [resume_task]. unfold submit_after_gate. rewrite Hv. cbn [negb].
    replace (exec (set_submitting false) (set_tasks [] w1)) with (set_cells c2 (set_tasks [] w1))
      by (unfold c2, c1; rewrite Hw1; by destruct (exec (handleSubmit cfg (w_cells w)) w)).
    rewrite flush_after_clear by (unfold cleared, c2; simpl; naive_solver).
    rewrite cells_same_submitting_ne by (unfold c2; simpl; congruence). done. }
  split; [|split; [|split]].
  - exists (snapshot_of cfg c1). erewrite calls_of_app by (fold w1; rewrite Hw1; reflexivity).
    unfold render_calls. by destruct (formWillMount cfg).
  - erewrite calls_of_app by (rewrite Hw2; reflexivity). apply hook_calls_render.
  - by rewrite Hw2.
  - by rewrite Hw2.
Qed.

(** C3: A gate whose promise rejects makes [_onSubmit] reject outside its
    [try]: the rejection is unhandled and [submitting] stays [true] with
    nothing left to reset it (spec 7: [submitting] flips back to false on
    every submission outcome). *)
Theorem submit_gate_rejection_sticks w g e :
  formOnSubmit cfg = false -> shouldFormSubmit cfg = Some g ->
  (forall s, g s = Rejected e) ->
  submitting (w_cells w) = false -> w_tasks w = [] -> w_mounted w = true ->
  let w1 := exec (run_event cfg EvSubmit) w in
  hook_calls (calls_of (resume cfg 0) w1) = [CUnhandledRejection e] /\
  submitting (w_cells (exec (resume cfg 0) w1)) = true /\ w_tasks (exec (resume cfg 0) w1) = [].
Proof.
  intros Hos Hg Hgo Hsub Hts Hm w1.
  destruct (resume_pending_gate w g (Rejected e) Hos Hg Hgo ltac:(congruence) Hsub Hts Hm)
    as (Hw1 & Hs1 & Hr). cbv zeta in Hw1, Hs1, Hr. fold w1 in Hw1, Hr.
  assert (Hw2 : exec (resume cfg 0) w1
                = set_trace (w_trace w1 ++ [CUnhandledRejection e]) (set_tasks [] w1)).
  { rewrite Hr. cbn [resume_task]. apply flush_same. rewrite Hw1. apply cells_same_refl. }
  split; [|split].
  - by erewrite calls_of_app by (rewrite Hw2; reflexivity).
  - by rewrite Hw2, Hw1.
  - by rewrite Hw2.
Qed.

End SubmitClaims.

(** ** The theorems at the forms of [Scenarios] *)

(** A second click on submit while [formDidSubmit] is pending. *)
Lemma submit_while_submitting_resubmits_witness :
  exists s, CFormDidSubmit s ∈ calls_of (run_event cfg_ok EvSubmit) w_submitting /\ s_submitting s = true.
Proof.
  apply (submit_while_submitting_resubmits cfg_ok w_submitting (fun _ => Fulfilled JUndefined));
    try concrete.
  apply reachable_event; [apply reachable_initial|concrete].
Defined.

(** Typing in [a] while [formDidSubmit] is pending submits again. *)
Lemma edit_during_submission_resubmits_witness :
  exists s, CFormDidSubmit s ∈ calls_of (run_event cfg_ok (EvSetFormField "a" nine)) w_submitting /\
            s_submitting s = true /\ obj_get (s_formValues s) "a" = nine.
Proof.
  apply (edit_during_submission_resubmits cfg_ok w_submitting "a" nine (fun _ => Fulfilled JUndefined));
    try concrete.
  apply reachable_event; [apply reachable_initial|concrete].
Defined.

(** Submitting a form that shows an error on [a] still calls
    [formDidSubmit]. *)
Lemma submit_default_gate_passes_witness :
  hasErrors (formErrors (w_cells w_error)) = true /\
  exists s, CFormDidSubmit s ∈ calls_of (run_event cfg_ok EvSubmit) w_error /\
            s_hasErrors s = false /\ s_submitting s = true.
Proof.
  split; [concrete|].
  apply (submit_default_gate_passes cfg_ok w_error (fun _ => Fulfilled JUndefined)); concrete.
Defined.

Lemma submit_failure_routed_witness :
  let w1 := exec (run_event cfg_fails EvSubmit) (initial cfg_fails) in
  exists s, hook_calls (calls_of (resume cfg_fails 0) w1)
            = [CConsoleError (JString "network down"); CFormDidFinally s] /\
            s_submitting s = true /\ submitting (w_cells (exec (resume cfg_fails 0) w1)) = false.
Proof.
  apply (submit_failure_routed cfg_fails (initial cfg_fails)
           (fun _ => Rejected (JString "network down"))); concrete.
Defined.

Lemma submit_gate_rejects_witness :
  let w1 := exec (run_event cfg_gate_false EvSubmit) (initial cfg_gate_false) in
  (exists s, hook_calls (calls_of (run_event cfg_gate_false EvSubmit) (initial cfg_gate_false))
             = [CPreventDefault; CShouldFormSubmit s]) /\
  hook_calls (calls_of (resume cfg_gate_false 0) w1) = [] /\
  submitting (w_cells (exec (resume cfg_gate_false 0) w1)) = false /\
  w_tasks (exec (resume cfg_gate_false 0) w1) = [].
Proof.
  apply (submit_gate_rejects cfg_gate_false (initial cfg_gate_false)
           (fun _ => Fulfilled (JBool false)) (JBool false)); concrete.
Defined.

Lemma submit_gate_rejection_sticks_witness :
  let w1 := exec (run_event cfg_gate_rejects EvSubmit) (initial cfg_gate_rejects) in
  hook_calls (calls_of (resume cfg_gate_rejects 0) w1) = [CUnhandledRejection (JString "gate")] /\
  submitting (w_cells (exec (resume cfg_gate_rejects 0) w1)) = true /\
  w_tasks (exec (resume cfg_gate_rejects 0) w1) = [].
Proof.
  apply (submit_gate_rejection_sticks cfg_gate_rejects (initial cfg_gate_rejects)
           (fun _ => Rejected (JString "gate"))); concrete.
Defined.

Lemma submit_override_not_exclusive_witness :
  (exists s, CFormOnSubmit s ∈ calls_of (run_event cfg_override EvSubmit) (initial cfg_override)) /\
  (exists s, CFormDidSubmit s ∈ calls_of (run_event cfg_override EvSubmit) (initial cfg_override)).
Proof.
  apply (submit_override_not_exclusive cfg_override (initial cfg_override)
           (fun _ => Fulfilled JUndefined)); concrete.
Defined.

Lemma submit_success_finally_witness :
  let w1 := exec (run_event cfg_ok EvSubmit) (initial cfg_ok) in
  hook_calls (calls_of (resume cfg_ok 0) w1)
  = [CFormDidFinally (snapshot_of cfg_ok (w_cells (exec (handleSubmit cfg_ok (w_cells (initial cfg_ok)))
                                                    (initial cfg_ok))))] /\
  submitting (w_cells (exec (resume cfg_ok 0) w1)) = false /\ w_tasks (exec (resume cfg_ok 0) w1) = [].
Proof.
  apply (submit_success_finally cfg_ok (initial cfg_ok) (fun _ => Fulfilled JUndefined) JUndefined);
    concrete.
Defined.
