(* ===== verification/Liveness.v ===== *)
(** * Pending submissions always drain (liveness)

    A suspended [_onSubmit] is a [task]: a pending gate ([TGate]) or a
    pending [formDidSubmit] ([TSubmit]).  Resuming a task runs its
    continuation and the commit loop; a gate that lets the submission
    through suspends again on [formDidSubmit], nothing else suspends.
    Weighing a pending gate 2 and a pending submit 1, every resumption
    lowers the total weight, so from any state some sequence of
    resumptions reaches a state with no pending task.  The other side of
    that bound: one event adds at most one task, because only the first
    round of the commit loop can start [_onSubmit]; later rounds only
    see cleared cells.  Last, what a resumption does once the form has
    unmounted. *)

From stdpp Require Import base list strings decidable relations.
From S2P Require Import Prelude JsValue JsObject Stores Hooks Pipeline Submission Lifecycle Scenarios SubmitFlow.

(** The weight of a pending continuation: a gate may still suspend on
    [formDidSubmit]. *)
Definition task_weight (t : task) : nat :=
  match t with TGate _ _ => 2 | TSubmit _ _ => 1 end.

Definition pending (ts : list task) : nat := sum_list_with task_weight ts.

Lemma pending_app ts1 ts2 : pending (ts1 ++ ts2) = pending ts1 + pending ts2.
Proof. apply sum_list_with_app. Qed.

Lemma pending_delete ts i t :
  ts !! i = Some t -> pending ts = pending (delete i ts) + task_weight t.
Proof.
  revert i. induction ts as [|t' ts IH]; intros [|i] Hi; simplify_eq/=; [lia|].
  unfold pending in *. simpl. rewrite (IH i Hi). lia.
Qed.

Section Drain.
Context (cfg : config).

(** A continuation adds at most one task, lighter than itself. *)
Lemma resume_task_spawn t w :
  exists sp, w_tasks (exec (resume_task cfg t) w) = w_tasks w ++ sp /\ pending sp < task_weight t.
Proof.
  destruct t as [r [v|e|e]|r [v|e|e]]; cbn [resume_task task_weight].
  - unfold submit_after_gate. destruct (negb (truthy v)).
    + exists []. split; [|cbv; lia]. destruct w as [[] ? ? ? ? ?]. by rewrite app_nil_r.
    + unfold submit_try. destruct (formDidSubmit cfg) as [f|].
      * rewrite exec_seq. destruct (f (snapshot_of cfg r)) as [o|o|o].
        -- exists [TSubmit r (Fulfilled o)]. split; [|cbv; lia]. by destruct w.
        -- exists [TSubmit r (Rejected o)]. split; [|cbv; lia]. by destruct w.
        -- exists []. split; [|cbv; lia]. rewrite exec_submit_catch_finally, app_nil_r. by destruct w.
      * exists []. split; [|cbv; lia]. rewrite exec_submit_catch_finally, app_nil_r. by destruct w.
  - exists []; split; [|cbv; lia]; rewrite ?exec_submit_catch_finally, app_nil_r; by destruct w.
  - exists []; split; [|cbv; lia]; rewrite ?exec_submit_catch_finally, app_nil_r; by destruct w.
  - exists []; split; [|cbv; lia]; rewrite ?exec_submit_catch_finally, app_nil_r; by destruct w.
  - exists []; split; [|cbv; lia]; rewrite ?exec_submit_catch_finally, app_nil_r; by destruct w.
  - exists []; split; [|cbv; lia]; rewrite ?exec_submit_catch_finally, app_nil_r; by destruct w.
Qed.

(** Continuations only clear the cells, so the commit loop after them
    starts nothing. *)
Lemma resume_task_cleared t w : cleared (w_cells w) (w_cells (exec (resume_task cfg t) w)).
Proof.
  apply (preserves_exec (fun x => cleared (w_cells w) (w_cells x))); [|apply cleared_refl].
  preserve_with cleared_closer.
Qed.

Lemma resume_tasks i t w :
  w_tasks w !! i = Some t ->
  exists sp, w_tasks (exec (resume cfg i) w) = delete i (w_tasks w) ++ sp /\ pending sp < task_weight t.
Proof.
  intros Ht.
  destruct (resume_task_spawn t (set_tasks (delete i (w_tasks w)) w)) as (sp & Hsp & Hlt).
  exists sp. split; [|done].
  destruct (w_mounted w) eqn:Hm.
  - rewrite (exec_resume cfg i t) by done. rewrite flush_after_clear by exact (resume_task_cleared t (set_tasks (delete i (w_tasks w)) w)).
    destruct (cells_same _ _); [|unfold set_trace; cbn [w_tasks]]; by rewrite Hsp.
  - unfold resume, exec, st_bind, st_get. simpl. rewrite Ht. simpl. rewrite Hm.
    pose proof Hsp as Hsp'. unfold exec in Hsp'.
    destruct (resume_task cfg t (set_tasks (delete i (w_tasks w)) w)). simpl in *. by rewrite Hsp'.
Qed.

Lemma resume_decreases i t w :
  w_tasks w !! i = Some t -> pending (w_tasks (exec (resume cfg i) w)) < pending (w_tasks w).
Proof.
  intros Ht. destruct (resume_tasks i t w Ht) as (sp & -> & Hlt).
  rewrite pending_app, (pending_delete (w_tasks w) i t Ht). lia.
Qed.

(** C28: Liveness of the submission machine: from any state, at most
    [pending] resumptions (twice the pending gates plus the pending
    submits) reach a state with no suspended [_onSubmit].  No
    continuation suspends forever on the form's side: each one either
    ends or suspends once more on [formDidSubmit]. *)
Theorem pending_tasks_drain w :
  exists n w', n <= pending (w_tasks w) /\ nsteps (step cfg) n w w' /\ w_tasks w' = [].
Proof.
  remember (pending (w_tasks w)) as m eqn:Em. revert w Em.
  induction m as [m IH] using lt_wf_ind. intros w Em.
  destruct (w_tasks w) as [|t ts] eqn:Hts.
  - exists 0, w. split; [lia|]. split; [constructor|done].
  - assert (Ht : w_tasks w !! 0 = Some t) by (by rewrite Hts).
    pose proof (resume_decreases 0 t w Ht) as Hlt.
    destruct (IH _ ltac:(rewrite Em, <- Hts; exact Hlt) (exec (resume cfg 0) w) eq_refl)
      as (n & w' & Hn & Hsteps & Hw').
    exists (S n), w'. split; [rewrite Hts in Hlt; lia|]. split; [|done].
    econstructor; [by econstructor|exact Hsteps].
Qed.

End Drain.

(** ** One event starts at most one submission *)

Section Spawn.
Context (cfg : config).

(** [m] appends at most [n] tasks to the pending ones. *)
Definition adds_at_most (n : nat) (m : FM unit) : Prop :=
  forall w, exists sp, w_tasks (exec m w) = w_tasks w ++ sp /\ length sp <= n.

Lemma adds_no_spawn m : (forall ts, preserves (fun w => w_tasks w = ts) m) -> adds_at_most 0 m.
Proof. intros H w. exists []. rewrite app_nil_r. split; [by apply H|done]. Qed.

Lemma adds_seq a b m k : adds_at_most a m -> adds_at_most b k -> adds_at_most (a + b) (m ;; k).
Proof.
  intros Hm Hk w. rewrite exec_seq. destruct (Hm w) as (s1 & H1 & L1).
  destruct (Hk (exec m w)) as (s2 & H2 & L2). exists (s1 ++ s2).
  rewrite H2, H1, app_assoc, length_app. split; [done|lia].
Qed.

Lemma adds_get n (k : world -> FM unit) :
  (forall w0, adds_at_most n (k w0)) -> adds_at_most n (w <- st_get ;; k w).
Proof. intros H w. apply H. Qed.

Lemma exec_no_spawn (m : FM unit) w :
  (forall ts, preserves (fun w => w_tasks w = ts) m) -> w_tasks (exec m w) = w_tasks w.
Proof. intros H. by apply H. Qed.

Lemma adds_mono a b m : a <= b -> adds_at_most a m -> adds_at_most b m.
Proof. intros Hab H w. destruct (H w) as (sp & ? & ?). exists sp. split; [done|lia]. Qed.

(** The [st_modify] obligations of a goal "the pending tasks stay [ts]". *)
Ltac tasks_closer := let w := fresh "w" in intros w <-; destruct w; reflexivity.

Lemma length_le_pending ts : length ts <= pending ts.
Proof. induction ts as [|[] ts IH]; unfold pending in *; simpl; lia. Qed.

Lemma onSubmit_adds r : adds_at_most 1 (_onSubmit cfg r).
Proof.
  unfold _onSubmit. destruct (shouldFormSubmit cfg) as [g|].
  - apply (adds_seq 0 1); [apply adds_no_spawn; intros ts; preserve_with tasks_closer|].
    destruct (g (snapshot_of cfg r)).
    1,2: intros w; eexists [_]; split; [by destruct w|done].
    apply (adds_mono 0); [lia|]. apply adds_no_spawn. intros ts. preserve_with tasks_closer.
  - intros w. destruct (resume_task_spawn cfg (TGate r (Fulfilled (shouldFormSubmitDefault r))) w)
      as (sp & Hsp & Hlt).
    exists sp. split; [exact Hsp|]. pose proof (length_le_pending sp). simpl in Hlt. lia.
Qed.

Lemma render_commit_adds p : adds_at_most 1 (render_commit cfg (Some p)).
Proof.
  unfold render_commit. apply adds_get. intros w0. cbn zeta. apply (adds_seq 0 1); [apply adds_no_spawn; intros ts; preserve_with tasks_closer|].
  apply (adds_seq 0 1); [apply adds_no_spawn; intros ts; preserve_with tasks_closer|].
  apply (adds_seq 0 1); [apply adds_no_spawn, (fun ts => preserves_ret _ _)|].
  destruct (deps_submit_same p _); [apply (adds_mono 0); [lia|apply adds_no_spawn, (fun ts => preserves_ret _ _)]|].
  unfold effect_submit. destruct (submitting _); [apply onSubmit_adds|].
  apply (adds_mono 0); [lia|apply adds_no_spawn, (fun ts => preserves_ret _ _)].
Qed.

(** After a render whose cells only cleared the previous ones, the
    submission effect does not start [_onSubmit]: its dependencies can
    only differ by [submitting] turning [false]. *)
Lemma deps_submit_cleared p r : cleared p r -> deps_submit_same p r = false -> submitting r = false.
Proof.
  unfold cleared, deps_submit_same. intros (_ & _ & _ & He & [Hs|Hs] & _) H; [|done].
  by rewrite Hs, He, Bool.eqb_reflx, bool_decide_eq_true_2 in H.
Qed.

Lemma render_commit_no_spawn p w :
  cleared p (w_cells w) -> w_tasks (exec (render_commit cfg (Some p)) w) = w_tasks w.
Proof.
  intros Hc. unfold render_commit. rewrite exec_bind. cbn [fst snd st_get]. cbn zeta.
  rewrite !exec_seq. destruct (deps_submit_same p (w_cells w)) eqn:Hd.
  - rewrite exec_ret. rewrite !exec_no_spawn; [done|..]; intros ts; preserve_with tasks_closer.
  - unfold effect_submit. rewrite (deps_submit_cleared p (w_cells w) Hc Hd), exec_ret.
    rewrite !exec_no_spawn; [done|..]; intros ts; preserve_with tasks_closer.
Qed.

Lemma flush_no_spawn n p w : cleared p (w_cells w) -> w_tasks (exec (flush cfg n p) w) = w_tasks w.
Proof.
  revert p w. induction n as [|n IH]; intros p w Hc; [done|]. cbn [flush].
  rewrite exec_bind. cbn [fst snd st_get]. destruct (cells_same p (w_cells w)); [done|].
  rewrite exec_seq, IH; [by apply render_commit_no_spawn|apply render_commit_cleared_exec].
Qed.

Lemma flush_adds n p : adds_at_most 1 (flush cfg n p).
Proof.
  intros w. destruct n as [|n]; [exists []; rewrite app_nil_r; split; [done|simpl; lia]|]. cbn [flush].
  rewrite exec_bind. cbn [fst snd st_get]. destruct (cells_same p (w_cells w)); [exists []; rewrite app_nil_r; split; [done|simpl; lia]|].
  rewrite exec_seq. destruct (render_commit_adds p w) as (sp & Hsp & L). exists sp.
  rewrite flush_no_spawn; [done|apply render_commit_cleared_exec].
Qed.

(** C29: One event starts at most one submission: the handler suspends
    nothing, and of the commit loop's renders only the first can see the
    submission effect's dependencies change with [submitting] true (the
    later ones compare cells that only cleared the previous ones); so an
    event appends at most one suspended [_onSubmit] after the pending
    ones, however many renders it causes. *)
Theorem event_adds_at_most_one_task e w :
  exists sp, w_tasks (exec (run_event cfg e) w) = w_tasks w ++ sp /\ length sp <= 1.
Proof.
  unfold run_event. rewrite exec_run_handler.
  destruct (flush_adds commit_fuel (w_cells w) (exec (handler cfg e (w_cells w)) w)) as (sp & Hsp & L).
  exists sp. rewrite Hsp, exec_no_spawn; [done|]. intros ts. destruct e; preserve_with tasks_closer.
Qed.

End Spawn.

(** ** A submission pending at unmount *)

(** C32: A submission still pending when the form unmounts finishes without
    it: resuming a [formDidSubmit] that fulfilled still calls
    [formDidFinally], after the unmount hook, with the snapshot of the
    render that started the submission, while the state updates of the
    continuation are dropped (the committed cells are those the resumption
    found) and the task is gone. *)
Theorem resume_after_unmount_calls_hooks cfg i r v w :
  w_mounted w = false -> w_tasks w !! i = Some (TSubmit r (Fulfilled v)) ->
  w_cells (exec (resume cfg i) w) = w_cells w /\
  w_tasks (exec (resume cfg i) w) = delete i (w_tasks w) /\
  calls_of (resume cfg i) w = if formDidFinally cfg then [CFormDidFinally (snapshot_of cfg r)] else [].
Proof.
  intros Hm Ht. unfold calls_of, resume. rewrite exec_bind. cbn [fst snd st_get].
  rewrite Ht, Hm, !exec_seq. cbn [resume_task]. rewrite exec_submit_catch_finally, !exec_modify.
  destruct w. cbn. rewrite drop_app_length. unfold finally_calls. by destruct (formDidFinally cfg).
Qed.

(** The form [{a: 1, b: 2}] with [formDidFinally], unmounted while its
    [formDidSubmit] is pending: the fulfilment calls [formDidFinally]. *)
Definition w_unmounted_pending : world :=
  set_tasks [TSubmit (w_cells (initial cfg_ok)) (Fulfilled JUndefined)]
    (exec (unmount cfg_ok) (initial cfg_ok)).

Lemma resume_after_unmount_calls_hooks_witness :
  w_cells (exec (resume cfg_ok 0) w_unmounted_pending) = w_cells w_unmounted_pending /\
  w_tasks (exec (resume cfg_ok 0) w_unmounted_pending) = [] /\
  calls_of (resume cfg_ok 0) w_unmounted_pending = [CFormDidFinally (snapshot_of cfg_ok (w_cells (initial cfg_ok)))].
Proof.
  apply (resume_after_unmount_calls_hooks cfg_ok 0 (w_cells (initial cfg_ok)) JUndefined w_unmounted_pending);
    concrete.
Defined.
