(* ===== verification/Interleaving.v ===== *)
(** * Two submissions in flight

    Spec 4.6 describes one submission at a time: [Idle -> Submitting],
    then back to [Idle] when the attempt ends.  The code can have several
    [_onSubmit]s suspended at once (a second submit, or an edit, while
    [formDidSubmit] is pending: [SubmitFlow]), and their continuations
    resume in any order.  This file follows one such interleaving as an
    explicit sequence of steps: the first continuation to finish runs its
    [finally] block, which sets [submitting] to [false] while the other
    submission is still pending. *)

From stdpp Require Import base list strings decidable.
From S2P Require Import Prelude JsValue JsObject Stores Hooks Pipeline Submission Lifecycle Scenarios SubmitFlow Liveness.

(** Two clicks on submit with [formDidSubmit] pending: two pending
    submits. *)
Definition w_double_submit : world := exec (run_event cfg_ok EvSubmit) w_submitting.

(** Deleting the [i]-th task keeps every other one. *)
Lemma elem_of_delete_other {A} (l : list A) i j x :
  i ≠ j -> l !! j = Some x -> x ∈ delete i l.
Proof.
  intros Hij Hj. apply list_elem_of_lookup.
  destruct (decide (j < i)) as [Hlt|Hge].
  - exists j. by rewrite list_lookup_delete_lt.
  - exists (pred j). rewrite list_lookup_delete_ge by lia. by replace (S (pred j)) with j by lia.
Qed.

Section Interleave.
Context (cfg : config).

(** The commit loop after a [finally] keeps [submitting] false. *)
Lemma resume_finally_idle i r err w :
  w_mounted w = true -> w_tasks w !! i = Some (TSubmit r err) ->
  submitting (w_cells (exec (resume cfg i) w)) = false.
Proof.
  intros Hm Ht. rewrite (exec_resume cfg i _ w Ht Hm).
  set (w1 := exec (resume_task cfg (TSubmit r err)) _).
  assert (H1 : submitting (w_cells w1) = false).
  { unfold w1. destruct err; cbn [resume_task]; rewrite exec_submit_catch_finally; by destruct w. }
  destruct (preserves_exec _ _ w1 (flush_cleared cfg (w_cells w1) commit_fuel (w_cells w)) (cleared_refl _))
    as (_ & _ & _ & _ & [Hs|Hs] & _); congruence.
Qed.

(** C33: Interleaving of two submissions (spec 4.6: [Submitting] returns to
    [Idle] when the submission attempt ends): when one of two pending
    submissions fulfils first, its [finally] block sets [submitting] to
    [false], and the form reads as idle, while the other submission is
    still pending; [submitting] no longer says whether a submission is in
    flight. *)
Theorem finally_idles_while_submission_pending i j r v t w :
  w_mounted w = true -> i ≠ j ->
  w_tasks w !! i = Some (TSubmit r (Fulfilled v)) -> w_tasks w !! j = Some t ->
  submitting (w_cells (exec (resume cfg i) w)) = false /\ t ∈ w_tasks (exec (resume cfg i) w).
Proof.
  intros Hm Hij Hi Hj. split; [by eapply resume_finally_idle|].
  destruct (resume_tasks cfg i _ w Hi) as (sp & -> & _).
  apply elem_of_app. left. by apply (elem_of_delete_other _ i j).
Qed.

End Interleave.


(** The first submission fulfils: the form reads as idle, the second
    still pends. *)
Lemma finally_idles_while_submission_pending_witness :
  submitting (w_cells (exec (resume cfg_ok 0) w_double_submit)) = false /\
  TSubmit (w_cells w_double_submit) (Fulfilled JUndefined) ∈ w_tasks (exec (resume cfg_ok 0) w_double_submit).
Proof.
  apply (finally_idles_while_submission_pending cfg_ok 0 1 (w_cells w_submitting) JUndefined); concrete.
Defined.

