(* ===== verification/YupAdapter.v ===== *)
(** * Validation Adapter (spec 4.8): [yupToFormErrors], [validateYupError]

    [yupToFormErrors] (lines 416-432) turns the error thrown by a yup
    schema into a flat error map; [validateYupError] (435-444) runs the
    schema with [abortEarly: false] and never throws.  The schema library
    is not part of the repository: it is the interface [Schema] below
    (what [validateSync] returns or throws), and [rules] is one instance
    of it, a list of per-field checks collected like yup's
    [abortEarly: false] run.  The theorems characterise the map the
    adapter builds, its empty result, and its composition with
    [setAllErrors]. *)

From stdpp Require Import base list strings decidable sets.
From S2P Require Import Prelude JsValue JsObject Stores Hooks Pipeline Submission Lifecycle Scenarios StoreFlow.
Import ErrorStore.

(** [String(path)] as a computed key: a missing path is the key
    ["undefined"]. *)
Definition prop_key (path : option string) : string :=
  match path with Some p => p | None => "undefined" end.

(** The two fields the adapter reads of an entry of [inner]. *)
Record yup_entry := mkEntry { en_path : option string; en_message : jsval }.

(** What was thrown: its own [path] and [message], and [inner] when it
    is present (a yup [ValidationError] always has one; anything else
    thrown by [validateSync] may not). *)
Record yup_error := mkYupError {
  ye_path : option string;
  ye_message : jsval;
  ye_inner : option (list yup_entry)
}.

(** [errors = { [path]: message, ...errors }] *)
Definition add_first (errors : obj) (err : yup_entry) : obj :=
  obj_spread [(prop_key (en_path err), en_message err)] errors.

(** [yupToFormErrors] (lines 416-432).  [if (yupError.inner)] is true of
    any array, the empty one included. *)
Definition yupToFormErrors (yupError : yup_error) : obj :=
  match ye_inner yupError with
  | None => []
  | Some [] => [(prop_key (ye_path yupError), ye_message yupError)]
  | Some inner => fold_left add_first inner []
  end.

(** The schema library as the adapter sees it: [validateSync] returns
    ([None]) or throws an error ([Some e]). *)
Class Schema (S : Type) := validateSync : S -> obj -> option yup_error.

(** [validateYupError] (lines 435-444). *)
Definition validateYupError {S} `{Schema S} (schema : S) (formValues : obj) : obj :=
  match validateSync schema formValues with
  | None => []
  | Some err => yupToFormErrors err
  end.

(** A schema as a list of field checks, each returning its message on
    failure; with [abortEarly: false] every failure is collected in
    [inner], in rule order, under a top-level error without a path. *)
Record rule := mkRule { r_path : string; r_check : jsval -> option jsval }.

Definition run_rules (rs : list rule) (values : obj) : list yup_entry :=
  flat_map (fun r => match r_check r (obj_get values (r_path r)) with
                     | Some m => [mkEntry (Some (r_path r)) m]
                     | None => []
                     end) rs.

#[export] Instance rules_schema : Schema (list rule) := fun rs values =>
  match run_rules rs values with
  | [] => None
  | inner => Some (mkYupError None (JString "ValidationError") (Some inner))
  end.

(** The message of the first entry of [l] for key [k]. *)
Definition first_message (l : list yup_entry) (k : string) : option jsval :=
  en_message <$> List.find (fun en => bool_decide (prop_key (en_path en) = k)) l.

(** The reference map of spec 4.8: each entry of [inner] as a binding
    [path: message], the first binding of a path being the one read. *)
Definition entry_binding (en : yup_entry) : string * jsval := (prop_key (en_path en), en_message en).

Definition yup_reference (e : yup_error) : obj :=
  match ye_inner e with
  | None => []
  | Some [] => [(prop_key (ye_path e), ye_message e)]
  | Some inner => map entry_binding inner
  end.

(** ** Lemmas *)

Lemma obj_lookup_spread_wf t s k :
  NoDup (obj_keys s) ->
  obj_lookup (obj_spread t s) k = match obj_lookup s k with Some v => Some v | None => obj_lookup t k end.
Proof.
  revert t. induction s as [|[k' v'] s IH]; intros t Hwf; [done|].
  simpl in Hwf. apply list.NoDup_cons in Hwf as [Hn Hwf].
  change (obj_spread t ((k', v') :: s)) with (obj_spread (obj_set t k' v') s). rewrite IH by done.
  simpl. destruct (decide (k = k')) as [->|Hne].
  - rewrite obj_lookup_None by done. apply obj_lookup_set_eq.
  - destruct (obj_lookup s k); [done|]. by apply obj_lookup_set_ne.
Qed.

Lemma add_first_wf e err : obj_wf e -> obj_wf (add_first e err).
Proof. intros H. apply obj_wf_spread, obj_wf_singleton. Qed.

#[local] Hint Resolve add_first_wf : form.

(** [{ [path]: message, ...errors }] keeps what [errors] has. *)
Lemma obj_lookup_add_first e err k :
  obj_wf e ->
  obj_lookup (add_first e err) k
  = match obj_lookup e k with
    | Some v => Some v
    | None => if bool_decide (prop_key (en_path err) = k) then Some (en_message err) else None
    end.
Proof.
  intros He. unfold add_first. rewrite obj_lookup_spread_wf by apply He.
  destruct (obj_lookup e k); [done|]. simpl. by repeat case_decide; subst.
Qed.

Lemma fold_add_first_wf l e : obj_wf e -> obj_wf (fold_left add_first l e).
Proof.
  revert e. induction l as [|x l IH]; intros e He; simpl; auto with form.
Qed.

Lemma obj_lookup_fold_add_first l e k :
  obj_wf e ->
  obj_lookup (fold_left add_first l e) k
  = match obj_lookup e k with Some v => Some v | None => first_message l k end.
Proof.
  revert e. induction l as [|x l IH]; intros e He; simpl.
  - by destruct (obj_lookup e k).
  - rewrite IH by auto with form. rewrite obj_lookup_add_first by done.
    destruct (obj_lookup e k); [done|]. unfold first_message. simpl.
    by case_bool_decide.
Qed.

Lemma first_message_entries l k : first_message l k = obj_lookup (map entry_binding l) k.
Proof.
  induction l as [|x l IH]; [done|]. unfold first_message in *. simpl.
  case_bool_decide; case_decide; subst; done.
Qed.

(** Spreading the entries one by one, each before the others, is the
    list of the entries up to key order. *)
Lemma fold_add_first_equiv l : fold_left add_first l [] ≡ map entry_binding l.
Proof. intros k. by rewrite obj_lookup_fold_add_first, first_message_entries by apply obj_wf_nil. Qed.

Lemma first_message_head x l : first_message (x :: l) (prop_key (en_path x)) = Some (en_message x).
Proof. unfold first_message. simpl. by rewrite bool_decide_eq_true_2. Qed.

Lemma obj_lookup_None_notin o k : obj_lookup o k = None -> k ∉ obj_keys o.
Proof.
  induction o as [|[k' v] o IH]; simpl; [set_solver|].
  case_decide as Hk; [done|]. intros Hl. set_solver.
Qed.

(** [setAllErrors(m)] as seen through [m]'s lookup. *)
Lemma obj_get_after_setAllErrors cfg (m : obj) w k :
  obj_wf (formErrors (w_cells w)) ->
  obj_get (formErrors (w_cells (exec (run_event cfg (EvSetAllErrors (AObj m))) w))) k
  = match obj_lookup m k with Some v => v | None => obj_get (formErrors (w_cells w)) k end.
Proof.
  intros Hwf. unfold run_event.
  destruct (run_handler_cells cfg (handler cfg (EvSetAllErrors (AObj m))) w) as (_ & _ & He & _).
  rewrite He. simpl.
  destruct (for_each_setError_cells (obj_keys m) (obj_get m) w) as (H1 & _).
  rewrite H1. fold (apply_errors m (formErrors (w_cells w))). rewrite obj_get_apply_errors by done.
  unfold obj_get at 1. destruct (obj_lookup m k) eqn:E.
  - by rewrite decide_True by (by eapply obj_lookup_Some_in).
  - by rewrite decide_False by (by apply obj_lookup_None_notin).
Qed.

(** C25: The adapter against its reference (spec 4.8: "given a validation
    failure object, produce a per-field error map"): up to the order of
    its keys, the map [yupToFormErrors] builds is the list of
    [{path: message}] entries of [inner] read first-binding-first; an
    empty [inner] gives the thrown error's own [{path: message}], and no
    [inner] the empty map. *)
Theorem yupToFormErrors_equiv e : yupToFormErrors e ≡ yup_reference e.
Proof.
  unfold yupToFormErrors, yup_reference. destruct (ye_inner e) as [[|x l]|]; [done| |done].
  apply fold_add_first_equiv.
Qed.

(** C26: [validateYupError] returns the empty map, "no changes to apply",
    exactly when the schema passes or when what it threw has no [inner]:
    a non-validation exception thrown by [validateSync] (a [TypeError] of
    a broken schema, say) is swallowed and reads as success (spec 4.8
    only says what a successful run yields). *)
Theorem validateYupError_empty_iff {S} `{Schema S} (schema : S) values :
  validateYupError schema values = []
  <-> validateSync schema values = None \/
      exists e, validateSync schema values = Some e /\ ye_inner e = None.
Proof.
  unfold validateYupError. destruct (validateSync schema values) as [e|]; [|naive_solver].
  split.
  2:{ intros [Hn|(e' & He & Hi)]; [discriminate|]. injection He as <-.
      unfold yupToFormErrors. by rewrite Hi. }
  intros Hnil. right. exists e. split; [done|].
  unfold yupToFormErrors in Hnil. destruct (ye_inner e) as [[|x l]|]; [done| |done].
  exfalso. pose proof (obj_lookup_fold_add_first (x :: l) [] (prop_key (en_path x)) obj_wf_nil) as Hl.
  rewrite Hnil, first_message_head in Hl. done.
Qed.

(** C27: End to end with a rule schema (spec 7: validation errors always
    surface through the Error Store): after
    [setAllErrors(validateYupError(rules, formValues))], each field's
    committed error is the message of its first failing rule, and a field
    no rule rejects keeps its error. *)
Theorem validation_errors_reach_store cfg (rs : list rule) w k :
  obj_wf (formErrors (w_cells w)) ->
  obj_get (formErrors (w_cells (exec (run_event cfg
            (EvSetAllErrors (AObj (validateYupError rs (formValues (w_cells w)))))) w))) k
  = match first_message (run_rules rs (formValues (w_cells w))) k with
    | Some msg => msg
    | None => obj_get (formErrors (w_cells w)) k
    end.
Proof.
  intros Hwf. rewrite obj_get_after_setAllErrors by done.
  unfold validateYupError, validateSync, rules_schema.
  destruct (run_rules rs (formValues (w_cells w))) as [|x l]; [done|].
  unfold yupToFormErrors. cbn [ye_inner]. by rewrite fold_add_first_equiv, first_message_entries.
Qed.

(** ** The scenarios of spec 8 *)

(** [email] is required and at least 3 characters long. *)
Definition email_required : rule :=
  mkRule "email" (fun v => match v with
                           | JString "" | JUndefined => Some (JString "required")
                           | _ => None
                           end).
Definition email_min3 : rule :=
  mkRule "email" (fun v => match v with
                           | JString s => if bool_decide (String.length s < 3)
                                          then Some (JString "too short") else None
                           | _ => Some (JString "too short")
                           end).

Definition cfg_email : config :=
  demo [("email", JString ""); ("name", JString "")] false false None submit_ok.

(** Both rules fail on the empty email: [inner] lists [required] then
    [too short], and the error map keeps [required]; an empty [inner]
    falls back to the top-level [{name: 'required'}]. *)
Lemma validation_errors_reach_store_witness :
  run_rules [email_required; email_min3] (formValues (w_cells (initial cfg_email)))
  = [mkEntry (Some "email") (JString "required"); mkEntry (Some "email") (JString "too short")] /\
  yupToFormErrors (mkYupError (Some "name") (JString "required") (Some [])) = [("name", JString "required")] /\
  obj_get (formErrors (w_cells (exec (run_event cfg_email
            (EvSetAllErrors (AObj (validateYupError [email_required; email_min3]
                                     (formValues (w_cells (initial cfg_email))))))) (initial cfg_email)))) "email"
  = JString "required".
Proof.
  split; [concrete|]. split; [concrete|].
  rewrite (validation_errors_reach_store cfg_email [email_required; email_min3] (initial cfg_email) "email")
    by concrete.
  concrete.
Defined.
